(** * Subtitle converter (lrc-vtt-srt-translator): a shallow embedding

    The Python class [SubtitleConverter] is embedded function by function.

    - A Python [float] is an IEEE 754 binary64 value: Rocq's primitive
      [float], whose operations are the processor's.  The operators the
      source uses on floats ([+], [-], [*], [/], [//], [%], [int(..)],
      comparison) are given their CPython meaning in [Module PyFloat].
    - A Python [str] is a [string]; a character is a code point below 256.
      [str.strip], [str.isdigit], [str.lower] and the regular expression
      class [\d] follow the Unicode tables on that range.
    - A raised exception is a value of [exn]; a function that may raise
      returns a [result].
    - The compiled regular expressions of [__init__] are values of a small
      pattern type, run by a backtracking matcher.
    - The dict of [parse_lrc] is a list of pairs in insertion order, its
      keys compared as floats; [sorted] is the stable sort by [<].
    - An input file is what [read_file] sees of it: the suffix of its
      path and what reading it does, which is to return its text or to
      raise. *)

From Stdlib Require Import ZArith QArith List String Ascii Bool Lia Floats.
From Stdlib Require Import Sorting.Sorted.
Import ListNotations.

Local Open Scope Z_scope.
Local Open Scope string_scope.

(** ** Exceptions and results *)

Inductive exn : Type :=
| IndexError
| KeyError
| ZeroDivisionError
| OverflowError
| ValueError (msg : string)
| OSError
| UnicodeDecodeError.

Inductive result (A : Type) : Type :=
| Ok (a : A)
| Raise (e : exn).

Arguments Ok {A} a.
Arguments Raise {A} e.

Definition bind {A B : Type} (r : result A) (k : A -> result B) : result B :=
  match r with
  | Ok a => k a
  | Raise e => Raise e
  end.

Notation "x <- r ;; k" := (bind r (fun x => k))
  (at level 61, r at next level, right associativity).

(** ** Python floats *)

Module PyFloat.

Local Open Scope float_scope.

(** [float(n)] for an integer [n]: the nearest binary64 value. *)
Definition of_Z (n : Z) : float :=
  SF2Prim (binary_normalize prec emax n 0 false).

(** [int(x)]: truncation toward zero.  CPython raises [ValueError] on a
    NaN and [OverflowError] on an infinity. *)
Definition to_int (x : float) : result Z :=
  match Prim2SF x with
  | S754_zero _ => Ok 0%Z
  | S754_finite s m e =>
      let a := match e with
               | Zneg p => Z.shiftr (Zpos m) (Zpos p)
               | _ => Z.shiftl (Zpos m) e
               end in
      Ok (if s then Z.opp a else a)
  | S754_infinity _ => Raise OverflowError
  | S754_nan => Raise (ValueError "cannot convert float NaN to integer")
  end.

(** C's [fmod]: the remainder has the sign of the dividend and is exact. *)
Definition fmod (x y : float) : float :=
  match Prim2SF x, Prim2SF y with
  | S754_nan, _ | _, S754_nan => nan
  | S754_infinity _, _ => nan
  | _, S754_zero _ => nan
  | _, S754_infinity _ => x
  | S754_zero _, _ => x
  | S754_finite sx mx ex, S754_finite _ my ey =>
      let e := Z.min ex ey in
      let a := Z.shiftl (Zpos mx) (ex - e) in
      let b := Z.shiftl (Zpos my) (ey - e) in
      let r := Z.rem a b in
      SF2Prim (binary_normalize prec emax (if sx then Z.opp r else r) e sx)
  end.

(** C's [floor]. *)
Definition floor (x : float) : float :=
  match Prim2SF x with
  | S754_finite s m (Zneg p) =>
      let z := if s then Z.opp (Zpos m) else Zpos m in
      SF2Prim (binary_normalize prec emax (Z.shiftr z (Zpos p)) 0 s)
  | _ => x
  end.

(** C's [copysign(0.0, y)]. *)
Definition signed_zero (y : float) : float :=
  if get_sign y then neg_zero else zero.

(** A float used as a C condition: true unless it is a zero. *)
Definition nonzero (x : float) : bool := negb (x =? zero).

(** [x % y] on floats: CPython's [float_rem]. *)
Definition rem (vx wx : float) : result float :=
  if wx =? zero then Raise ZeroDivisionError
  else
    let md := fmod vx wx in
    Ok (if nonzero md
        then if xorb (wx <? zero) (md <? zero) then md + wx else md
        else signed_zero wx).

(** [x // y] on floats: CPython's [float_floor_div]. *)
Definition floor_div (vx wx : float) : result float :=
  if wx =? zero then Raise ZeroDivisionError
  else
    let md := fmod vx wx in
    let dv := (vx - md) / wx in
    let dv := if nonzero md && xorb (wx <? zero) (md <? zero)
              then dv - one else dv in
    Ok (if nonzero dv
        then let fl := floor dv in
             if of_Z 1 / of_Z 2 <? dv - fl then fl + one else fl
        else signed_zero (vx / wx)).

(** The exact value of a finite float, as a rational ([0] for the
    others). *)
Definition to_Q (x : float) : Q :=
  match Prim2SF x with
  | S754_finite s m e =>
      let z := if s then Zneg m else Zpos m in
      match e with
      | Zneg p => Qmake z (Pos.pow 2 p)
      | _ => Qmake (Z.shiftl z e) 1
      end
  | _ => Qmake 0 1
  end.

End PyFloat.

(** ** Python strings *)

Module PyStr.

Definition code (c : ascii) : nat := nat_of_ascii c.

(** [c.isspace()] for a code point below 256. *)
Definition is_space (c : ascii) : bool :=
  let n := code c in
  ((9 <=? n) && (n <=? 13) || (28 <=? n) && (n <=? 32)
   || (n =? 133) || (n =? 160))%nat.

(** The class [\d] of the [re] module: the decimal digits. *)
Definition is_decimal (c : ascii) : bool :=
  let n := code c in ((48 <=? n) && (n <=? 57))%nat.

(** [c.isdigit()]: the decimal digits and the superscripts 1, 2, 3. *)
Definition is_digit_char (c : ascii) : bool :=
  let n := code c in
  (is_decimal c || (n =? 178) || (n =? 179) || (n =? 185))%nat.

Fixpoint all_chars (f : ascii -> bool) (s : string) : bool :=
  match s with
  | EmptyString => true
  | String c s' => f c && all_chars f s'
  end.

Definition is_empty (s : string) : bool :=
  match s with EmptyString => true | _ => false end.

(** [s.isdigit()]: at least one character, all of them digits. *)
Definition isdigit (s : string) : bool :=
  negb (is_empty s) && all_chars is_digit_char s.

Fixpoint lstrip (s : string) : string :=
  match s with
  | String c s' => if is_space c then lstrip s' else s
  | EmptyString => EmptyString
  end.

Fixpoint rstrip (s : string) : string :=
  match s with
  | EmptyString => EmptyString
  | String c s' =>
      let r := rstrip s' in
      if is_space c && is_empty r then EmptyString else String c r
  end.

(** [s.strip()]. *)
Definition strip (s : string) : string := rstrip (lstrip s).

Definition lower_char (c : ascii) : ascii :=
  let n := code c in
  if ((65 <=? n) && (n <=? 90)
      || (192 <=? n) && (n <=? 222) && negb (n =? 215))%nat
  then ascii_of_nat (n + 32) else c.

(** [s.lower()]. *)
Fixpoint lower (s : string) : string :=
  match s with
  | EmptyString => EmptyString
  | String c s' => String (lower_char c) (lower s')
  end.

Fixpoint startswith (p s : string) : bool :=
  match p, s with
  | EmptyString, _ => true
  | String a p', String b s' => Ascii.eqb a b && startswith p' s'
  | String _ _, EmptyString => false
  end.

(** [sub in s]. *)
Fixpoint contains (sub s : string) : bool :=
  startswith sub s
  || match s with
     | EmptyString => false
     | String _ s' => contains sub s'
     end.

Fixpoint rev_app (acc s : string) : string :=
  match acc with
  | EmptyString => s
  | String c acc' => rev_app acc' (String c s)
  end.

(** [s.split(sep)] for a non-empty [sep]: the pieces between the
    occurrences of [sep] found from left to right.  [cur] holds the
    current piece reversed, [skip] the characters of a separator still
    to pass. *)
Fixpoint split_from (sep : string) (skip : nat) (cur s : string)
  : list string :=
  match s with
  | EmptyString => [rev_app cur EmptyString]
  | String c s' =>
      match skip with
      | S k => split_from sep k cur s'
      | O =>
          if startswith sep s
          then rev_app cur EmptyString
               :: split_from sep (String.length sep - 1) EmptyString s'
          else split_from sep O (String c cur) s'
      end
  end.

Definition split (sep s : string) : list string :=
  split_from sep O EmptyString s.

(** [sep.join(l)]. *)
Definition join (sep : string) (l : list string) : string :=
  String.concat sep l.

Definition digit_value (c : ascii) : Z := Z.of_nat (code c) - 48.

Fixpoint int_from (acc : Z) (s : string) : Z :=
  match s with
  | EmptyString => acc
  | String c s' => int_from (10 * acc + digit_value c) s'
  end.

(** [int(s)] for a string of decimal digits. *)
Definition int (s : string) : Z := int_from 0 s.

Definition digit_char (d : Z) : ascii := ascii_of_nat (Z.to_nat (48 + d)).

Fixpoint digits_from (fuel : nat) (n : Z) (acc : string) : string :=
  match fuel with
  | O => acc
  | S fuel' =>
      let acc' := String (digit_char (n mod 10)) acc in
      if (n <? 10)%Z then acc' else digits_from fuel' (n / 10) acc'
  end.

(** The decimal digits of a natural number [n]. *)
Definition digits (n : Z) : string :=
  digits_from (S (Z.to_nat (Z.log2 n))) n EmptyString.

Fixpoint zeros (k : nat) : string :=
  match k with
  | O => EmptyString
  | S k' => String "0" (zeros k')
  end.

(** [f"{n:0wd}"]: sign first, then zeros up to the width [w]. *)
Definition pad (w : nat) (n : Z) : string :=
  let ds := digits (Z.abs n) in
  let sign := if (n <? 0)%Z then "-" else EmptyString in
  sign ++ zeros (w - String.length sign - String.length ds) ++ ds.

(** [str(n)]. *)
Definition str (n : Z) : string := pad 0 n.

End PyStr.

(** ** Regular expressions *)

Module Re.

Import PyStr.

(** The pieces the patterns of [__init__] are made of: a literal
    character, a character set such as [[,.]], and a capturing group of
    [lo] to [hi] decimal digits, [(\d{lo,hi})]. *)
Inductive piece : Type :=
| Lit (c : ascii)
| OneOf (cs : list ascii)
| Digits (lo hi : nat).

Definition pattern := list piece.

Fixpoint take (k : nat) (s : string) : string :=
  match k, s with
  | S k', String c s' => String c (take k' s')
  | _, _ => EmptyString
  end.

Fixpoint drop (k : nat) (s : string) : string :=
  match k, s with
  | S k', String _ s' => drop k' s'
  | _, _ => s
  end.

(** How many decimal digits [s] starts with, at most [hi]. *)
Fixpoint count_digits (hi : nat) (s : string) : nat :=
  match hi, s with
  | S hi', String c s' =>
      if is_decimal c then S (count_digits hi' s') else O
  | _, _ => O
  end.

Definition matched := option (list string * string).

(** A greedy quantifier: try [k] digits, then [k - 1], down to [lo]. *)
Fixpoint try_counts (k lo : nat) (s : string) (rest : string -> matched)
  : matched :=
  let here :=
    if (lo <=? k)%nat then
      match rest (drop k s) with
      | Some (gs, r) => Some (take k s :: gs, r)
      | None => None
      end
    else None in
  match here, k with
  | Some m, _ => Some m
  | None, S k' => try_counts k' lo s rest
  | None, O => None
  end.

(** [pattern.match(s)]: the groups and the text after the match, when
    the pattern matches at the start of [s]. *)
Fixpoint match_here (p : pattern) (s : string) : matched :=
  match p with
  | [] => Some ([], s)
  | Lit c :: p' =>
      match s with
      | String c' s' => if Ascii.eqb c c' then match_here p' s' else None
      | EmptyString => None
      end
  | OneOf cs :: p' =>
      match s with
      | String c' s' =>
          if existsb (Ascii.eqb c') cs then match_here p' s' else None
      | EmptyString => None
      end
  | Digits lo hi :: p' =>
      try_counts (count_digits hi s) lo s (match_here p')
  end.

(** One left-to-right scan for the matches that do not overlap, as
    [findall] and [sub] make it.  [skip] counts the characters of the
    current match still to pass. *)
Fixpoint findall_from (p : pattern) (skip : nat) (s : string)
  : list (list string) :=
  match s with
  | EmptyString => []
  | String _ s' =>
      match skip with
      | S k => findall_from p k s'
      | O =>
          match match_here p s with
          | Some (gs, r) =>
              gs :: findall_from p (String.length s - String.length r - 1) s'
          | None => findall_from p O s'
          end
      end
  end.

(** [pattern.findall(s)]: the group tuples of the matches. *)
Definition findall (p : pattern) (s : string) : list (list string) :=
  findall_from p O s.

Fixpoint remove_from (p : pattern) (skip : nat) (s : string) : string :=
  match s with
  | EmptyString => EmptyString
  | String c s' =>
      match skip with
      | S k => remove_from p k s'
      | O =>
          match match_here p s with
          | Some (_, r) =>
              remove_from p (String.length s - String.length r - 1) s'
          | None => String c (remove_from p O s')
          end
      end
  end.

(** [pattern.sub('', s)]: [s] without its matches. *)
Definition remove (p : pattern) (s : string) : string :=
  remove_from p O s.

End Re.

(** ** The converter *)

Import PyStr.
Local Open Scope float_scope.

(** A cue: [(start, end, text)], the times in seconds. *)
Definition cue : Type := float * float * string.

Definition cue_start (c : cue) : float := fst (fst c).
Definition cue_end (c : cue) : float := snd (fst c).
Definition cue_text (c : cue) : string := snd c.

(** *** [__init__]: the compiled patterns *)

Definition time_pattern : Re.pattern :=
  [Re.Digits 1 2; Re.Lit ":"; Re.Digits 1 2; Re.Lit ":"; Re.Digits 1 2;
   Re.OneOf [","%char; "."%char]; Re.Digits 1 3].

Definition srt_time_pattern : Re.pattern :=
  [Re.Digits 1 2; Re.Lit ":"; Re.Digits 1 2; Re.Lit ":"; Re.Digits 1 2;
   Re.Lit ","; Re.Digits 1 3].

Definition vtt_time_pattern : Re.pattern :=
  [Re.Digits 1 2; Re.Lit ":"; Re.Digits 1 2; Re.Lit ":"; Re.Digits 1 2;
   Re.Lit "."; Re.Digits 1 3].

Definition lrc_time_pattern : Re.pattern :=
  [Re.Lit "["; Re.Digits 1 2; Re.Lit ":"; Re.Digits 1 2; Re.Lit ".";
   Re.Digits 1 2; Re.Lit "]"].

(** *** Time codec *)

(** [h * 3600 + m * 60 + s + ms / 1000]: integer arithmetic, one true
    division, one float addition. *)
Definition hms_seconds (h m s ms : Z) : float :=
  PyFloat.of_Z (h * 3600 + m * 60 + s)
  + PyFloat.of_Z ms / PyFloat.of_Z 1000.

(** [m * 60 + s + cs / 100]. *)
Definition lrc_seconds (m s cs : Z) : float :=
  PyFloat.of_Z (m * 60 + s) + PyFloat.of_Z cs / PyFloat.of_Z 100.

Definition parse_time (time_str format : string) : float :=
  if String.eqb format "srt" || String.eqb format "vtt" then
    match Re.match_here time_pattern time_str with
    | Some ([h; m; s; ms], _) => hms_seconds (int h) (int m) (int s) (int ms)
    | _ => zero
    end
  else if String.eqb format "lrc" then
    match Re.match_here lrc_time_pattern time_str with
    | Some ([m; s; cs], _) => lrc_seconds (int m) (int s) (int cs)
    | _ => zero
    end
  else zero.

(** The fields [h], [m], [s] of [format_time] for srt and vtt. *)
Definition hms_fields (seconds : float) : result (Z * Z * Z) :=
  q <- PyFloat.floor_div seconds (PyFloat.of_Z 3600) ;;
  h <- PyFloat.to_int q ;;
  r <- PyFloat.rem seconds (PyFloat.of_Z 3600) ;;
  q <- PyFloat.floor_div r (PyFloat.of_Z 60) ;;
  m <- PyFloat.to_int q ;;
  r <- PyFloat.rem seconds (PyFloat.of_Z 60) ;;
  s <- PyFloat.to_int r ;;
  Ok (h, m, s).

(** [int((seconds - int(seconds)) * unit)]. *)
Definition fraction_field (seconds : float) (unit : Z) : result Z :=
  i <- PyFloat.to_int seconds ;;
  PyFloat.to_int ((seconds - PyFloat.of_Z i) * PyFloat.of_Z unit).

Definition format_time (seconds : float) (target_format : string)
  : result string :=
  if String.eqb target_format "srt" then
    f <- hms_fields seconds ;;
    let '(h, m, s) := f in
    ms <- fraction_field seconds 1000 ;;
    Ok (pad 2 h ++ ":" ++ pad 2 m ++ ":" ++ pad 2 s ++ "," ++ pad 3 ms)%string
  else if String.eqb target_format "vtt" then
    f <- hms_fields seconds ;;
    let '(h, m, s) := f in
    ms <- fraction_field seconds 1000 ;;
    Ok (pad 2 h ++ ":" ++ pad 2 m ++ ":" ++ pad 2 s ++ "." ++ pad 3 ms)%string
  else if String.eqb target_format "lrc" then
    q <- PyFloat.floor_div seconds (PyFloat.of_Z 60) ;;
    m <- PyFloat.to_int q ;;
    r <- PyFloat.rem seconds (PyFloat.of_Z 60) ;;
    s <- PyFloat.to_int r ;;
    cs <- fraction_field seconds 100 ;;
    Ok ("[" ++ pad 2 m ++ ":" ++ pad 2 s ++ "." ++ pad 2 cs ++ "]")%string
  else Ok EmptyString.

(** *** Parsers *)

Definition newline : string := String (ascii_of_nat 10) EmptyString.

(** The inner loop of [parse_srt] and [parse_vtt]:
    [while i < len(lines) and lines[i].strip()], run on the lines from
    [i] on; it returns the stripped lines and how many there were. *)
Fixpoint text_run (rest : list string) : list string * nat :=
  match rest with
  | [] => ([], O)
  | l :: rest' =>
      if is_empty (strip l) then ([], O)
      else let '(ts, n) := text_run rest' in (strip l :: ts, S n)
  end.

Definition take_text (lines : list string) (i : nat) : list string * nat :=
  let '(ts, n) := text_run (skipn i lines) in (ts, (i + n)%nat).

(** The [while i < len(lines)] loop of [parse_srt].  Every iteration
    moves [i] forward, so [length lines] iterations are enough
    ([srt_loop_fuel]). *)
Fixpoint srt_loop (fuel : nat) (lines : list string) (i : nat)
  (subtitles : list cue) : result (list cue) :=
  match fuel with
  | O => Ok subtitles
  | S fuel' =>
      match nth_error lines i with
      | None => Ok subtitles
      | Some line =>
          if isdigit (strip line) then
            let i := (i + 1)%nat in
            match nth_error lines i with
            | None => Raise IndexError
            | Some time_line =>
                match split " --> " (strip time_line) with
                | [t0; t1] =>
                    let start := parse_time (strip t0) "srt" in
                    let end_ := parse_time (strip t1) "srt" in
                    let '(text_lines, i) := take_text lines (i + 1) in
                    srt_loop fuel' lines (i + 1)
                      (subtitles ++ [(start, end_, join newline text_lines)])
                | _ => srt_loop fuel' lines (i + 1) subtitles
                end
            end
          else srt_loop fuel' lines (i + 1) subtitles
      end
  end.

Definition parse_srt (lines : list string) : result (string * list cue) :=
  subtitles <- srt_loop (List.length lines) lines O [] ;;
  Ok ("srt"%string, subtitles).

Fixpoint vtt_loop (fuel : nat) (lines : list string) (i : nat)
  (subtitles : list cue) : list cue :=
  match fuel with
  | O => subtitles
  | S fuel' =>
      match nth_error lines i with
      | None => subtitles
      | Some line =>
          if contains "-->" line then
            match split " --> " (strip line) with
            | [t0; t1] =>
                let start := parse_time (strip t0) "vtt" in
                let end_ := parse_time (strip t1) "vtt" in
                let '(text_lines, i) := take_text lines (i + 1) in
                vtt_loop fuel' lines (i + 1)
                  (subtitles ++ [(start, end_, join newline text_lines)])
            | _ => vtt_loop fuel' lines (i + 1) subtitles
            end
          else vtt_loop fuel' lines (i + 1) subtitles
      end
  end.

Definition parse_vtt (lines : list string) : result (string * list cue) :=
  Ok ("vtt"%string, vtt_loop (List.length lines) lines O []).

(** [time_text_map]: a dict keyed by floats, kept in insertion order.
    Two keys are the same key when they are equal as floats. *)
Definition dict : Type := list (float * string).

Fixpoint dict_set (d : dict) (k : float) (v : string) : dict :=
  match d with
  | [] => [(k, v)]
  | (k', v') :: d' =>
      if k' =? k then (k', v) :: d' else (k', v') :: dict_set d' k v
  end.

Fixpoint dict_get (d : dict) (k : float) : result string :=
  match d with
  | [] => Raise KeyError
  | (k', v') :: d' => if k' =? k then Ok v' else dict_get d' k
  end.

Definition dict_keys (d : dict) : list float := map fst d.

(** [sorted(..)] on floats: the stable sort by [<]. *)
Fixpoint insert_sorted (x : float) (l : list float) : list float :=
  match l with
  | [] => [x]
  | y :: l' => if x <? y then x :: l else y :: insert_sorted x l'
  end.

Definition sorted (l : list float) : list float :=
  fold_left (fun acc x => insert_sorted x acc) l [].

(** [m * 60 + s + cs / 100] for one tag of [findall]. *)
Definition tag_seconds (tag : list string) : float :=
  match tag with
  | [m; s; cs] => lrc_seconds (int m) (int s) (int cs)
  | _ => zero
  end.

(** The body of [for line in lines]. *)
Definition lrc_line (time_text_map : dict) (line : string) : dict :=
  let line := strip line in
  if is_empty line then time_text_map
  else
    let time_tags := Re.findall lrc_time_pattern line in
    match time_tags with
    | [] => time_text_map
    | _ =>
        let text := strip (Re.remove lrc_time_pattern line) in
        fold_left (fun d tag => dict_set d (tag_seconds tag) text)
          time_tags time_text_map
    end.

(** [for i in range(len(sorted_times))], run on the times from [i] on. *)
Fixpoint lrc_cues (time_text_map : dict) (sorted_times : list float)
  : result (list cue) :=
  match sorted_times with
  | [] => Ok []
  | start :: later =>
      let end_ := match later with
                  | next :: _ => next
                  | [] => start + PyFloat.of_Z 5
                  end in
      text <- dict_get time_text_map start ;;
      subtitles <- lrc_cues time_text_map later ;;
      Ok ((start, end_, text) :: subtitles)
  end.

Definition parse_lrc (lines : list string) : result (string * list cue) :=
  let time_text_map := fold_left lrc_line lines [] in
  let sorted_times := sorted (dict_keys time_text_map) in
  subtitles <- lrc_cues time_text_map sorted_times ;;
  Ok ("lrc"%string, subtitles).

(** *** Serializers *)

Fixpoint srt_blocks (i : Z) (subtitles : list cue) : result (list string) :=
  match subtitles with
  | [] => Ok []
  | (start, end_, text) :: later =>
      start_str <- format_time start "srt" ;;
      end_str <- format_time end_ "srt" ;;
      blocks <- srt_blocks (i + 1) later ;;
      Ok ((str i ++ newline ++ start_str ++ " --> " ++ end_str ++ newline
           ++ text ++ newline)%string :: blocks)
  end.

Definition to_srt (subtitles : list cue) : result string :=
  output <- srt_blocks 1 subtitles ;;
  Ok (join newline output).

Fixpoint vtt_blocks (subtitles : list cue) : result (list string) :=
  match subtitles with
  | [] => Ok []
  | (start, end_, text) :: later =>
      start_str <- format_time start "vtt" ;;
      end_str <- format_time end_ "vtt" ;;
      blocks <- vtt_blocks later ;;
      Ok ((start_str ++ " --> " ++ end_str ++ newline ++ text ++ newline)%string
          :: blocks)
  end.

Definition to_vtt (subtitles : list cue) : result string :=
  blocks <- vtt_blocks subtitles ;;
  Ok (join newline (["WEBVTT"; ""]%string ++ blocks)).

Fixpoint lrc_blocks (subtitles : list cue) : result (list string) :=
  match subtitles with
  | [] => Ok []
  | (start, _, text) :: later =>
      time_str <- format_time start "lrc" ;;
      blocks <- lrc_blocks later ;;
      Ok ((time_str ++ text)%string :: blocks)
  end.

Definition to_lrc (subtitles : list cue) : result string :=
  output <- lrc_blocks subtitles ;;
  Ok (join newline output).

(** *** Files and the driver *)

(** An input file as [read_file] sees it: [Path(file_path).suffix] and
    what [read_text(encoding='utf-8')] does.  It returns the text of the
    file, or it raises: [OSError] (in Python one of its subclasses
    [FileNotFoundError], [PermissionError], [IsADirectoryError]) for a
    file that cannot be opened, [UnicodeDecodeError] for bytes that are
    not UTF-8. *)
Record file : Type := Path { suffix : string; read_text : result string }.

(** A file that is read without an error, and its text. *)
Definition File (suffix text : string) : file := Path suffix (Ok text).

Definition read_file (file_path : file) : result (string * list cue) :=
  content <- read_text file_path ;;
  let content := strip content in
  let lines := split newline content in
  if String.eqb (lower (suffix file_path)) ".srt" then parse_srt lines
  else if String.eqb (lower (suffix file_path)) ".vtt" then parse_vtt lines
  else if String.eqb (lower (suffix file_path)) ".lrc" then parse_lrc lines
  else Raise (ValueError ("Unsupported file format: " ++ suffix file_path)).

Definition same_format_error : exn :=
  ValueError "Input and output formats are the same".

Definition convert (input_file : file) (output_format : string)
  : result string :=
  parsed <- read_file input_file ;;
  let '(input_format, subtitles) := parsed in
  if String.eqb input_format output_format then Raise same_format_error
  else if String.eqb output_format "srt" then to_srt subtitles
  else if String.eqb output_format "vtt" then to_vtt subtitles
  else if String.eqb output_format "lrc" then to_lrc subtitles
  else Raise (ValueError ("Unsupported output format: " ++ output_format)).

(** *** Round trips *)

(** [parse_time(format_time(t, f), f)]. *)
Definition time_round_trip (t : float) (f : string) : result float :=
  time_str <- format_time t f ;;
  Ok (parse_time time_str f).

(** An SRT document read, written as VTT, and read again. *)
Definition srt_vtt_round_trip (srt_text : string)
  : result (string * list cue) :=
  vtt_text <- convert (File ".srt" srt_text) "vtt" ;;
  read_file (File ".vtt" vtt_text).

(** [abs(a - b) <= tolerance], as a test on floats would check it. *)
Definition within (tolerance a b : float) : bool :=
  abs (a - b) <=? tolerance.

Definition lines_of (l : list string) : string := join newline l.

(** *** Notions the properties are stated with *)

(** The comparison of two floats as IEEE 754 defines it, on their
    specification values; [None] when one is a NaN. *)
Definition fcmp (x y : float) : option comparison :=
  SFcompare (Prim2SF x) (Prim2SF y).

(** The order of two finite values of one sign: exponent first. *)
Definition lex (e1 : Z) (m1 : positive) (e2 : Z) (m2 : positive)
  : comparison :=
  match (e1 ?= e2)%Z with
  | Lt => Lt
  | Gt => Gt
  | Eq => Pos.compare_cont Eq m1 m2
  end.

Definition flt (x y : float) : Prop := (x <? y) = true.

(** A time that is a number and lies before the time five seconds on. *)
Definition time_ok (k : float) : bool :=
  (k =? k) && (k <? k + PyFloat.of_Z 5).

Fixpoint upto (n : nat) : list Z :=
  match n with
  | O => []
  | S n' => Z.of_nat n' :: upto n'
  end.

(** [time_ok] on every sum of a whole number of [wholes] and a fraction
    of [fractions]; [five] is the float 5. *)
Definition times_ok_from (five : float) (fractions : list float)
  (wholes : list Z) : bool :=
  forallb
    (fun a =>
       let whole := PyFloat.of_Z a in
       forallb (fun q => let k := whole + q in (k =? k) && (k <? k + five))
         fractions)
    wholes.

(** The fractions [b / 100] with [b < 100], as [lrc_seconds] forms them. *)
Definition lrc_fractions : list float :=
  map (fun b => PyFloat.of_Z b / PyFloat.of_Z 100) (upto 100).

(** A string of [lo] to [hi] decimal digits. *)
Definition digit_string (lo hi : nat) (d : string) : Prop :=
  all_chars is_decimal d = true
  /\ (lo <= String.length d <= hi)%nat.

(** The digits of [d] end where [rest] begins: [d] has all the [hi] digits
    a group may take, or [rest] does not start with a digit. *)
Definition digits_end (hi : nat) (d rest : string) : Prop :=
  String.length d = hi
  \/ match rest with
     | String c _ => is_decimal c = false
     | EmptyString => True
     end.

(** What a match of [p] at the start of [s] looks like: [gs] are the
    groups and [r] is the text after the match. *)
Fixpoint shape (p : Re.pattern) (gs : list string) (s r : string) : Prop :=
  match p with
  | [] => gs = [] /\ s = r
  | Re.Lit c :: p' => exists s', s = String c s' /\ shape p' gs s' r
  | Re.OneOf cs :: p' =>
      exists c s', In c cs /\ s = String c s' /\ shape p' gs s' r
  | Re.Digits lo hi :: p' =>
      exists g gs' s',
        gs = g :: gs' /\ digit_string lo hi g
        /\ s = (g ++ s')%string /\ shape p' gs' s' r
  end.

(** No two keys of a dict are equal as floats. *)
Definition keys_distinct (keys : list float) : Prop :=
  ForallOrdPairs (fun a b => (a =? b) = false) keys.

(** A dict as [parse_lrc] builds it: its keys are times of tags. *)
Definition dict_ok (d : dict) : Prop :=
  Forall (fun k => time_ok k = true) (dict_keys d)
  /\ keys_distinct (dict_keys d).

(** Each cue ends where the next one starts, and the last one five
    seconds after its start. *)
Fixpoint chained (subtitles : list cue) : Prop :=
  match subtitles with
  | [] => True
  | c :: later =>
      cue_end c = match later with
                  | next :: _ => cue_start next
                  | [] => cue_start c + PyFloat.of_Z 5
                  end
      /\ chained later
  end.

(** The times of the tags of one LRC line, and its text. *)
Definition line_times (line : string) : list float :=
  map tag_seconds (Re.findall lrc_time_pattern (strip line)).

Definition line_text (line : string) : string :=
  strip (Re.remove lrc_time_pattern (strip line)).

(** The cue [c] comes from the tags of [lines]: it starts at the time of
    a tag, and its text is the text of the last line with a tag for that
    time. *)
Definition cue_of_tags (lines : list string) (c : cue) : Prop :=
  (exists line, In line lines /\ In (cue_start c) (line_times line))
  /\ exists before line after t,
       lines = (before ++ line :: after)%list
       /\ In t (line_times line) /\ (t =? cue_start c) = true
       /\ (forall l t', In l after -> In t' (line_times l) ->
                        (t' =? cue_start c) = false)
       /\ cue_text c = line_text line.

(** The three extensions [read_file] knows and the three formats
    [convert] writes. *)
Definition known_suffix (ext : string) : Prop :=
  ext = ".srt"%string \/ ext = ".vtt"%string \/ ext = ".lrc"%string.

Definition known_format (format : string) : Prop :=
  format = "srt"%string \/ format = "vtt"%string \/ format = "lrc"%string.

(** The two errors of [int(x)]: on an infinity and on a NaN. *)
Definition int_error (e : exn) : Prop :=
  e = OverflowError
  \/ e = ValueError "cannot convert float NaN to integer".

(** [HH:MM:SS.mmm]: the fields zero-padded to 2, 2, 2 and 3 digits. *)
Definition vtt_time (h m s ms : Z) : string :=
  (pad 2 h ++ ":" ++ pad 2 m ++ ":" ++ pad 2 s ++ "." ++ pad 3 ms)%string.

(** [block] is the VTT block of the cue [c]: the time-range line, then
    the text, each closed by a newline. *)
Definition vtt_block_of (c : cue) (block : string) : Prop :=
  exists h m s ms h' m' s' ms',
    format_time (cue_start c) "vtt" = Ok (vtt_time h m s ms)
    /\ format_time (cue_end c) "vtt" = Ok (vtt_time h' m' s' ms')
    /\ block = (vtt_time h m s ms ++ " --> " ++ vtt_time h' m' s' ms'
                ++ newline ++ cue_text c ++ newline)%string.

(** Every block after a blank line. *)
Fixpoint after_blank_lines (blocks : list string) : string :=
  match blocks with
  | [] => EmptyString
  | b :: later => (newline ++ b ++ after_blank_lines later)%string
  end.

(** The line [WEBVTT], then the blocks, a blank line before each. *)
Definition vtt_document (blocks : list string) : string :=
  ("WEBVTT" ++ newline ++ after_blank_lines blocks)%string.

(** [time_str] starts with a timestamp [h:m:s<sep>f], the separator a
    comma or a full stop, [f] taking every digit it can. *)
Definition hms_start (time_str h m s f : string) : Prop :=
  exists (sep : ascii) (rest : string),
    digit_string 1 2 h /\ digit_string 1 2 m /\ digit_string 1 2 s
    /\ (sep = ","%char \/ sep = "."%char)
    /\ digit_string 1 3 f /\ digits_end 3 f rest
    /\ time_str = (h ++ ":" ++ m ++ ":" ++ s ++ String sep (f ++ rest))%string.

(** [time_str] starts with a tag [[m:s.cs]]. *)
Definition lrc_start (time_str m s cs : string) : Prop :=
  exists rest : string,
    digit_string 1 2 m /\ digit_string 1 2 s /\ digit_string 1 2 cs
    /\ time_str = ("[" ++ m ++ ":" ++ s ++ "." ++ cs ++ "]" ++ rest)%string.

(** *** Notions for the further properties *)

(** A field written with [pad w] reads back: [w] decimal digits whose
    value is the field. *)
Definition field_ok (w : nat) (n : Z) : bool :=
  all_chars is_decimal (pad w n)
  && (String.length (pad w n) =? w)%nat
  && (int (pad w n) =? n)%Z.

(** [HH:MM:SS,mmm] and [[MM:SS.cc]], as [format_time] writes them. *)
Definition srt_time (h m s ms : Z) : string :=
  (pad 2 h ++ ":" ++ pad 2 m ++ ":" ++ pad 2 s ++ "," ++ pad 3 ms)%string.

Definition lrc_tag (m s cs : Z) : string :=
  ("[" ++ pad 2 m ++ ":" ++ pad 2 s ++ "." ++ pad 2 cs ++ "]")%string.

(** A field that fits two digits, and one that fits three. *)
Definition two_digits (n : Z) : Prop := (0 <= n <= 99)%Z.
Definition three_digits (n : Z) : Prop := (0 <= n <= 999)%Z.

(** The two times of a time line, as [parse_srt] and [parse_vtt] take
    them: the stripped line splits at [" --> "] into exactly two parts. *)
Definition time_range (format time_line : string) : option (float * float) :=
  match split " --> " (strip time_line) with
  | [t0; t1] => Some (parse_time (strip t0) format, parse_time (strip t1) format)
  | _ => None
  end.

(** The text of a cue: its lines stripped and joined by newlines. *)
Definition text_of (texts : list string) : string :=
  join newline (map strip texts).

Definition not_blank (l : string) : Prop := is_empty (strip l) = false.

(** A well-formed SRT document, as a list of lines, and its cues: blocks
    of an index line, a time line and text lines that are not blank; a
    blank line ends a block that is not the last; lines that are not
    index lines may stand between blocks. *)
Inductive srt_document : list string -> list cue -> Prop :=
| srt_end : srt_document [] []
| srt_skip (l : string) (rest : list string) (cues : list cue) :
    isdigit (strip l) = false ->
    srt_document rest cues ->
    srt_document (l :: rest) cues
| srt_last (index time_line : string) (texts : list string)
    (start end_ : float) :
    isdigit (strip index) = true ->
    time_range "srt" time_line = Some (start, end_) ->
    Forall not_blank texts ->
    srt_document (index :: time_line :: texts) [(start, end_, text_of texts)]
| srt_block (index time_line : string) (texts : list string) (sep : string)
    (rest : list string) (start end_ : float) (cues : list cue) :
    isdigit (strip index) = true ->
    time_range "srt" time_line = Some (start, end_) ->
    Forall not_blank texts ->
    is_empty (strip sep) = true ->
    srt_document rest cues ->
    srt_document (index :: time_line :: texts ++ sep :: rest)
      ((start, end_, text_of texts) :: cues).

(** A well-formed VTT document: blocks of a time line, which holds an
    arrow, and text lines that are not blank; lines without an arrow,
    such as the header, may stand between blocks. *)
Inductive vtt_document_lines : list string -> list cue -> Prop :=
| vtt_end : vtt_document_lines [] []
| vtt_skip (l : string) (rest : list string) (cues : list cue) :
    contains "-->" l = false ->
    vtt_document_lines rest cues ->
    vtt_document_lines (l :: rest) cues
| vtt_last (time_line : string) (texts : list string) (start end_ : float) :
    contains "-->" time_line = true ->
    time_range "vtt" time_line = Some (start, end_) ->
    Forall not_blank texts ->
    vtt_document_lines (time_line :: texts) [(start, end_, text_of texts)]
| vtt_block (time_line : string) (texts : list string) (sep : string)
    (rest : list string) (start end_ : float) (cues : list cue) :
    contains "-->" time_line = true ->
    time_range "vtt" time_line = Some (start, end_) ->
    Forall not_blank texts ->
    is_empty (strip sep) = true ->
    vtt_document_lines rest cues ->
    vtt_document_lines (time_line :: texts ++ sep :: rest)
      ((start, end_, text_of texts) :: cues).

(** [block] is the SRT block of the cue [c] numbered [i]: the number, the
    time-range line, the text, each closed by a newline. *)
Definition srt_block_of (i : Z) (c : cue) (block : string) : Prop :=
  exists h m s ms h' m' s' ms',
    format_time (cue_start c) "srt" = Ok (srt_time h m s ms)
    /\ format_time (cue_end c) "srt" = Ok (srt_time h' m' s' ms')
    /\ block = (str i ++ newline ++ srt_time h m s ms ++ " --> "
                ++ srt_time h' m' s' ms' ++ newline ++ cue_text c
                ++ newline)%string.

(** The blocks of the cues, numbered from [i] on. *)
Fixpoint numbered_from (i : Z) (subtitles : list cue) (blocks : list string)
  : Prop :=
  match subtitles, blocks with
  | [], [] => True
  | c :: later, b :: blocks' =>
      srt_block_of i c b /\ numbered_from (i + 1) later blocks'
  | _, _ => False
  end.

(** The blocks, a blank line between two of them. *)
Definition blocks_text (blocks : list string) : string :=
  match blocks with
  | [] => EmptyString
  | b :: later => (b ++ after_blank_lines later)%string
  end.

(** [line] is the LRC line of the cue [c]: the tag of its start, then its
    text. *)
Definition lrc_line_of (c : cue) (line : string) : Prop :=
  exists m s cs,
    format_time (cue_start c) "lrc" = Ok (lrc_tag m s cs)
    /\ line = (lrc_tag m s cs ++ cue_text c)%string.

(** *** Notions for reading back what the serializers write *)

Definition newline_char : ascii := ascii_of_nat 10.

Definition no_space (t : string) : bool :=
  all_chars (fun c => negb (is_space c)) t.

Definition no_newline (l : string) : bool :=
  all_chars (fun c => negb (Ascii.eqb newline_char c)) l.

(** A line of text as the parsers keep it: not empty, on one line, no
    white space at either end. *)
Definition plain_line (l : string) : Prop :=
  l <> EmptyString /\ no_newline l = true /\ lstrip l = l /\ rstrip l = l.

(** A text of one or more such lines. *)
Definition plain_text (text : string) : Prop :=
  exists ls, ls <> [] /\ Forall plain_line ls /\ text = join newline ls.

(** The fields [format_time] computes for [t], srt and vtt. *)
Definition time_fields (t : float) (h m s ms : Z) : Prop :=
  hms_fields t = Ok (h, m, s) /\ fraction_field t 1000 = Ok ms.

(** Fields that fit the widths they are written with. *)
Definition fields_ok (h m s ms : Z) : Prop :=
  two_digits h /\ two_digits m /\ two_digits s /\ three_digits ms.

(** What is read back of a cue written as SRT or VTT: the times of the
    written fields, and the text. *)
Definition reads_back (c c' : cue) : Prop :=
  exists h m s ms h' m' s' ms',
    time_fields (cue_start c) h m s ms /\ fields_ok h m s ms
    /\ time_fields (cue_end c) h' m' s' ms' /\ fields_ok h' m' s' ms'
    /\ plain_text (cue_text c)
    /\ c' = (hms_seconds h m s ms, hms_seconds h' m' s' ms', cue_text c).

(** The lines of a document made of blocks: the lines of each block, an
    empty line between two blocks. *)
Fixpoint flatten (blocks : list (list string)) : list string :=
  match blocks with
  | [] => []
  | [b] => b
  | b :: later => (b ++ EmptyString :: flatten later)%list
  end.

(** The text of a block: its lines, each closed by a newline. *)
Definition block_text (b : list string) : string :=
  (join newline b ++ newline)%string.

(** Lines whose text, joined, ends in a character that is not white
    space. *)
Definition closed (lines : list string) : Prop :=
  lines <> []
  /\ join newline lines <> EmptyString
  /\ rstrip (join newline lines) = join newline lines.

(** The lines of a block of a VTT document, and of an SRT document, for
    the cue [c]: the time line gives the times of [c], the lines of text
    its text; an SRT block starts with an index line. *)
Definition vtt_block_lines (b : list string) (c : cue) : Prop :=
  exists time_line ls,
    b = time_line :: ls
    /\ contains "-->" time_line = true /\ no_newline time_line = true
    /\ time_range "vtt" time_line = Some (cue_start c, cue_end c)
    /\ ls <> [] /\ Forall plain_line ls /\ cue_text c = join newline ls.

Definition srt_block_lines (b : list string) (c : cue) : Prop :=
  exists index time_line ls,
    b = index :: time_line :: ls
    /\ isdigit (strip index) = true /\ no_newline index = true
    /\ no_newline time_line = true
    /\ time_range "srt" time_line = Some (cue_start c, cue_end c)
    /\ ls <> [] /\ Forall plain_line ls /\ cue_text c = join newline ls.

Definition no_bracket (t : string) : bool :=
  all_chars (fun c => negb (Ascii.eqb "[" c)) t.

(** The text of a cue that an LRC line can carry: on one line, without
    an opening bracket, no white space at either end. *)
Definition lrc_text (text : string) : Prop :=
  no_newline text = true /\ no_bracket text = true
  /\ lstrip text = text /\ rstrip text = text.

(** What is read back of the start and the text of a cue written as
    LRC. *)
Definition lrc_reads_back (c c' : cue) : Prop :=
  exists m s cs,
    format_time (cue_start c) "lrc" = Ok (lrc_tag m s cs)
    /\ two_digits m /\ two_digits s /\ two_digits cs
    /\ lrc_text (cue_text c)
    /\ cue_start c' = lrc_seconds m s cs /\ cue_text c' = cue_text c.

(** The dict [parse_lrc] builds from lines of one tag each, given as
    cues. *)
Definition dict_of (cues : list cue) (d : dict) : dict :=
  fold_left (fun d c => dict_set d (cue_start c) (cue_text c)) cues d.

(** * Properties *)

(** Split a conjunction into its parts, and nothing else. *)
Ltac conjuncts := repeat match goal with |- _ /\ _ => split end.

(** ** The loops end before their fuel does *)

Lemma take_text_index (lines : list string) (i : nat) :
  (i <= snd (take_text lines i))%nat.
Proof.
  unfold take_text. destruct (text_run (skipn i lines)) as [ts n].
  simpl. lia.
Qed.

Lemma srt_loop_fuel (lines : list string) :
  forall fuel i subtitles extra,
    (List.length lines <= i + fuel)%nat ->
    srt_loop (fuel + extra) lines i subtitles
    = srt_loop fuel lines i subtitles.
Proof.
  induction fuel as [|fuel IH]; intros i subtitles extra Hlen.
  - assert (Hnone : nth_error lines i = None)
      by (apply nth_error_None; lia).
    destruct extra; simpl; [reflexivity | now rewrite Hnone].
  - simpl. destruct (nth_error lines i) as [line|]; [|reflexivity].
    destruct (isdigit (strip line)); [|apply IH; lia].
    destruct (nth_error lines (i + 1)) as [time_line|]; [|reflexivity].
    destruct (split " --> " (strip time_line)) as [|t0 [|t1 [|t2 ts]]];
      try (apply IH; lia).
    pose proof (take_text_index lines (i + 1 + 1)) as Hi.
    destruct (take_text lines (i + 1 + 1)) as [text_lines j].
    simpl in Hi. apply IH. lia.
Qed.

Lemma vtt_loop_fuel (lines : list string) :
  forall fuel i subtitles extra,
    (List.length lines <= i + fuel)%nat ->
    vtt_loop (fuel + extra) lines i subtitles
    = vtt_loop fuel lines i subtitles.
Proof.
  induction fuel as [|fuel IH]; intros i subtitles extra Hlen.
  - assert (Hnone : nth_error lines i = None)
      by (apply nth_error_None; lia).
    destruct extra; simpl; [reflexivity | now rewrite Hnone].
  - simpl. destruct (nth_error lines i) as [line|]; [|reflexivity].
    destruct (contains "-->" line); [|apply IH; lia].
    destruct (split " --> " (strip line)) as [|t0 [|t1 [|t2 ts]]];
      try (apply IH; lia).
    pose proof (take_text_index lines (i + 1)) as Hi.
    destruct (take_text lines (i + 1)) as [text_lines j].
    simpl in Hi. apply IH. lia.
Qed.

(** ** Time codec: what truncation loses *)

(** C1.  The timestamp 00:00:04,005 is in range for srt, and so is
    [00:00.58] for lrc.  [format_time] writes them as 00:00:04,004 and
    [00:00.57]: the fraction is cut by [int], not rounded, and the product
    it is cut from lies just below the next integer.  Parsing the result
    back gives a time further from the original than the declared precision
    (1 ms for srt, 10 ms for lrc), both as a float test measures it and in
    exact arithmetic. *)
Theorem format_time_cuts_a_unit :
  let t := parse_time "00:00:04,005" "srt" in
  let u := parse_time "[00:00.58]" "lrc" in
  format_time t "srt" = Ok "00:00:04,004"
  /\ format_time t "vtt" = Ok "00:00:04.004"
  /\ time_round_trip t "srt" = Ok (parse_time "00:00:04,004" "srt")
  /\ within (PyFloat.of_Z 1 / PyFloat.of_Z 1000)
       (parse_time "00:00:04,004" "srt") t = false
  /\ (1 # 1000 < PyFloat.to_Q t
                 - PyFloat.to_Q (parse_time "00:00:04,004" "srt"))%Q
  /\ format_time u "lrc" = Ok "[00:00.57]"
  /\ time_round_trip u "lrc" = Ok (parse_time "[00:00.57]" "lrc")
  /\ within (PyFloat.of_Z 1 / PyFloat.of_Z 100)
       (parse_time "[00:00.57]" "lrc") u = false
  /\ (1 # 100 < PyFloat.to_Q u
                - PyFloat.to_Q (parse_time "[00:00.57]" "lrc"))%Q.
Proof.
  cbv zeta. conjuncts; vm_compute; reflexivity.
Qed.

(** ** SRT to VTT and back *)

(** C2.  A well-formed SRT document with one cue starting at 00:00:01,001
    comes back from VTT with a cue starting at 00:00:01.000: [to_vtt] wrote
    the start through [format_time], which cut the millisecond. *)
Theorem srt_vtt_round_trip_loses_a_millisecond :
  let doc := lines_of ["1"; "00:00:01,001 --> 00:00:02,000"; "Hi"] in
  let t1 := parse_time "00:00:01,001" "srt" in
  let t2 := parse_time "00:00:02,000" "srt" in
  let t0 := parse_time "00:00:01.000" "vtt" in
  read_file (File ".srt" doc) = Ok ("srt", [(t1, t2, "Hi")])
  /\ convert (File ".srt" doc) "vtt"
     = Ok (lines_of ["WEBVTT"; ""; "00:00:01.000 --> 00:00:02.000"; "Hi"; ""])
  /\ srt_vtt_round_trip doc = Ok ("vtt", [(t0, t2, "Hi")])
  /\ (t0 =? t1) = false.
Proof.
  cbv zeta. conjuncts; vm_compute; reflexivity.
Qed.

(** ** The order of floats *)

Lemma eqb_fcmp (x y : float) :
  (x =? y) = match fcmp x y with Some Eq => true | _ => false end.
Proof. rewrite FloatAxioms.eqb_spec. reflexivity. Qed.

Lemma ltb_fcmp (x y : float) :
  (x <? y) = match fcmp x y with Some Lt => true | _ => false end.
Proof. rewrite FloatAxioms.ltb_spec. reflexivity. Qed.

Lemma lex_lt e1 m1 e2 m2 :
  lex e1 m1 e2 m2 = Lt <-> (e1 < e2 \/ e1 = e2 /\ Zpos m1 < Zpos m2)%Z.
Proof.
  unfold lex. change (Pos.compare_cont Eq m1 m2) with (Pos.compare m1 m2).
  destruct (Z.compare_spec e1 e2) as [He|He|He];
    destruct (Pos.compare_spec m1 m2) as [Hm|Hm|Hm];
    split; intros H; try discriminate; try reflexivity; try lia.
Qed.

Lemma SFcompare_finite s1 m1 e1 s2 m2 e2 :
  SFcompare (S754_finite s1 m1 e1) (S754_finite s2 m2 e2)
  = Some match s1, s2 with
         | true, false => Lt
         | false, true => Gt
         | false, false => lex e1 m1 e2 m2
         | true, true => lex e2 m2 e1 m1
         end.
Proof.
  destruct s1, s2; try reflexivity.
  simpl. unfold lex. f_equal.
  change (Pos.compare_cont Eq m1 m2) with (Pos.compare m1 m2).
  change (Pos.compare_cont Eq m2 m1) with (Pos.compare m2 m1).
  rewrite (Z.compare_antisym e1 e2), (Pos.compare_antisym m1 m2).
  destruct (e1 ?= e2)%Z; reflexivity.
Qed.

Lemma SFcompare_sym a b c :
  SFcompare a b = Some c -> SFcompare b a = Some (CompOpp c).
Proof.
  destruct a as [sa|sa| |sa ma ea], b as [sb|sb| |sb mb eb]; simpl;
    intros H; try discriminate; injection H as <-;
    try (destruct sa); try (destruct sb); try reflexivity.
  all: change (Pos.compare_cont Eq mb ma) with (Pos.compare mb ma);
    change (Pos.compare_cont Eq ma mb) with (Pos.compare ma mb);
    rewrite (Z.compare_antisym ea eb), (Pos.compare_antisym ma mb);
    destruct (ea ?= eb)%Z; simpl; try reflexivity;
    destruct (Pos.compare ma mb); reflexivity.
Qed.

Lemma SFcompare_none a b :
  SFcompare a b = None -> a = S754_nan \/ b = S754_nan.
Proof.
  destruct a, b; simpl; intros H; try discriminate; auto.
Qed.

Lemma SFcompare_eq a b :
  SFcompare a b = Some Eq ->
  a = b \/ exists sa sb, a = S754_zero sa /\ b = S754_zero sb.
Proof.
  destruct a as [sa|sa| |sa ma ea], b as [sb|sb| |sb mb eb]; simpl;
    intros H; try discriminate;
    try (right; eexists _, _; split; reflexivity);
    left; try (destruct sa); try (destruct sb); try discriminate;
    try reflexivity.
  all: injection H as H;
    destruct (ea ?= eb)%Z eqn:He; try discriminate;
    apply Z.compare_eq in He; subst eb;
    change (Pos.compare_cont Eq ma mb) with (Pos.compare ma mb) in H;
    destruct (ma ?= mb)%positive eqn:Hm; try discriminate;
    apply Pos.compare_eq in Hm; subst; reflexivity.
Qed.

Lemma SFcompare_lt_trans a b c :
  SFcompare a b = Some Lt -> SFcompare b c = Some Lt ->
  SFcompare a c = Some Lt.
Proof.
  destruct a as [sa|sa| |sa ma ea], b as [sb|sb| |sb mb eb],
    c as [sc|sc| |sc mc ec];
    rewrite ?SFcompare_finite; simpl; intros H1 H2; try discriminate;
    try (destruct sa); try (destruct sb); try (destruct sc);
    try discriminate; try reflexivity.
  all: injection H1 as H1; injection H2 as H2; f_equal;
    apply lex_lt in H1; apply lex_lt in H2; apply lex_lt; lia.
Qed.

Lemma fcmp_sym x y c : fcmp x y = Some c -> fcmp y x = Some (CompOpp c).
Proof. apply SFcompare_sym. Qed.

(** Equal floats compare alike with every third one. *)
Lemma fcmp_eq_l (x y z : float) :
  (x =? y) = true -> fcmp x z = fcmp y z.
Proof.
  rewrite eqb_fcmp. unfold fcmp.
  destruct (SFcompare (Prim2SF x) (Prim2SF y)) as [[| |]|] eqn:H;
    try discriminate.
  intros _. apply SFcompare_eq in H as [H | (sa & sb & Ha & Hb)].
  - now rewrite H.
  - rewrite Ha, Hb. destruct (Prim2SF z); reflexivity.
Qed.

Lemma feq_sym (x y : float) : (x =? y) = (y =? x).
Proof.
  rewrite !eqb_fcmp.
  destruct (fcmp x y) as [c|] eqn:H.
  - apply fcmp_sym in H. rewrite H. destruct c; reflexivity.
  - destruct (fcmp y x) as [c|] eqn:H'; [|reflexivity].
    apply fcmp_sym in H'. rewrite H in H'. discriminate.
Qed.

Lemma feq_trans_l (x y z : float) :
  (x =? y) = true -> (x =? z) = (y =? z).
Proof. intros H. rewrite !eqb_fcmp, (fcmp_eq_l x y z H). reflexivity. Qed.

Lemma feq_trans_r (x y z : float) :
  (x =? y) = true -> (z =? x) = (z =? y).
Proof. intros H. rewrite (feq_sym z x), (feq_sym z y). now apply feq_trans_l. Qed.

Lemma flt_trans (x y z : float) : flt x y -> flt y z -> flt x z.
Proof.
  unfold flt. rewrite !ltb_fcmp. unfold fcmp.
  destruct (SFcompare (Prim2SF x) (Prim2SF y)) as [[| |]|] eqn:H1;
    try discriminate.
  destruct (SFcompare (Prim2SF y) (Prim2SF z)) as [[| |]|] eqn:H2;
    try discriminate.
  now rewrite (SFcompare_lt_trans _ _ _ H1 H2).
Qed.

Lemma flt_not_eq (x y : float) : flt x y -> (x =? y) = false.
Proof.
  unfold flt. rewrite ltb_fcmp, eqb_fcmp.
  destruct (fcmp x y) as [[| |]|]; intros H; try discriminate; reflexivity.
Qed.

(** Two numbers that are neither equal nor in order are in the other
    order. *)
Lemma flt_total (x y : float) :
  (x =? x) = true -> (y =? y) = true ->
  (x <? y) = false -> (x =? y) = false -> flt y x.
Proof.
  unfold flt. rewrite !ltb_fcmp, !eqb_fcmp. intros Hx Hy Hlt Heq.
  destruct (fcmp x y) as [c|] eqn:H.
  - apply fcmp_sym in H. rewrite H.
    destruct c; try discriminate; reflexivity.
  - apply SFcompare_none in H as [H | H]; unfold fcmp in Hx, Hy;
      rewrite H in *; discriminate.
Qed.

(** ** The times an LRC tag can denote *)

Lemma In_upto (n : nat) (z : Z) : 0 <= z < Z.of_nat n -> In z (upto n).
Proof.
  induction n as [|n IH]; intros H; [lia|].
  simpl. destruct (Z.eq_dec z (Z.of_nat n)) as [->|Hne]; [now left|].
  right. apply IH. lia.
Qed.

(** Every value [a + b / 100] with [a < 6040] and [b < 100], the values
    a tag [[MM:SS.cc]] can denote, is [time_ok]: by evaluation. *)
Lemma lrc_times_ok :
  times_ok_from (PyFloat.of_Z 5) lrc_fractions (upto (Z.to_nat 6040)) = true.
Proof. vm_compute. reflexivity. Qed.

Lemma times_ok_from_spec five fractions wholes a q :
  times_ok_from five fractions wholes = true ->
  In a wholes -> In q fractions ->
  let k := PyFloat.of_Z a + q in (k =? k) && (k <? k + five) = true.
Proof.
  unfold times_ok_from. intros H Ha Hq.
  rewrite forallb_forall in H. specialize (H a Ha). cbv zeta in H.
  rewrite forallb_forall in H. exact (H q Hq).
Qed.

Lemma lrc_seconds_ok (m s cs : Z) :
  0 <= m <= 99 -> 0 <= s <= 99 -> 0 <= cs <= 99 ->
  time_ok (lrc_seconds m s cs) = true.
Proof.
  intros Hm Hs Hcs. unfold time_ok, lrc_seconds.
  refine (times_ok_from_spec _ _ _ (m * 60 + s)%Z
            (PyFloat.of_Z cs / PyFloat.of_Z 100) lrc_times_ok _ _).
  - apply In_upto. rewrite Z2Nat.id; lia.
  - unfold lrc_fractions.
    apply (in_map (fun b => PyFloat.of_Z b / PyFloat.of_Z 100)).
    apply In_upto. lia.
Qed.

(** ** The matcher *)

Lemma count_digits_le (hi : nat) (s : string) :
  (Re.count_digits hi s <= hi)%nat.
Proof.
  revert s. induction hi as [|hi IH]; intros [|c s]; simpl; try lia.
  destruct (is_decimal c); [specialize (IH s)|]; lia.
Qed.

Lemma take_drop (k : nat) (s : string) :
  (Re.take k s ++ Re.drop k s)%string = s.
Proof.
  revert s. induction k as [|k IH]; intros [|c s]; simpl; try reflexivity.
  now rewrite IH.
Qed.

Lemma take_digits (hi k : nat) (s : string) :
  (k <= Re.count_digits hi s)%nat ->
  all_chars is_decimal (Re.take k s) = true
  /\ String.length (Re.take k s) = k.
Proof.
  revert hi s. induction k as [|k IH]; intros hi s Hk.
  - destruct s; simpl; auto.
  - destruct hi as [|hi], s as [|c s]; simpl in Hk; try lia.
    destruct (is_decimal c) eqn:Hc; [|lia].
    destruct (IH hi s ltac:(lia)) as [Ha Hl].
    simpl. rewrite Hc, Ha, Hl. auto.
Qed.

Lemma try_counts_eq (k lo : nat) (s : string) (rest : string -> Re.matched) :
  Re.try_counts k lo s rest
  = match (if (lo <=? k)%nat
           then match rest (Re.drop k s) with
                | Some (gs, r) => Some (Re.take k s :: gs, r)
                | None => None
                end
           else None), k with
    | Some m, _ => Some m
    | None, S k' => Re.try_counts k' lo s rest
    | None, O => None
    end.
Proof. destruct k; reflexivity. Qed.

Lemma try_counts_some (lo : nat) (s : string) (rest : string -> Re.matched) :
  forall k gs r,
    Re.try_counts k lo s rest = Some (gs, r) ->
    exists j gs',
      (lo <= j <= k)%nat /\ rest (Re.drop j s) = Some (gs', r)
      /\ gs = Re.take j s :: gs'.
Proof.
  induction k as [|k IH]; intros gs r H; rewrite try_counts_eq in H.
  - destruct (lo <=? 0)%nat eqn:Hlo; [|discriminate].
    apply Nat.leb_le in Hlo.
    destruct (rest (Re.drop 0 s)) as [[gs' r']|] eqn:Hr; [|discriminate].
    injection H as <- <-. exists O, gs'. repeat split; auto; lia.
  - destruct (lo <=? S k)%nat eqn:Hlo.
    + apply Nat.leb_le in Hlo.
      destruct (rest (Re.drop (S k) s)) as [[gs' r']|] eqn:Hr.
      * injection H as <- <-. exists (S k), gs'. repeat split; auto; lia.
      * destruct (IH _ _ H) as (j & gs' & Hj & Hrest & Hgs).
        exists j, gs'. repeat split; auto; lia.
    + destruct (IH _ _ H) as (j & gs' & Hj & Hrest & Hgs).
      exists j, gs'. repeat split; auto; lia.
Qed.

(** A match has the shape of its pattern. *)
Lemma match_here_shape (p : Re.pattern) :
  forall s gs r, Re.match_here p s = Some (gs, r) -> shape p gs s r.
Proof.
  induction p as [|[c|cs|lo hi] p IH]; intros s gs r H; simpl in H.
  - injection H as <- <-. simpl. auto.
  - destruct s as [|c' s]; [discriminate|].
    destruct (Ascii.eqb c c') eqn:Hc; [|discriminate].
    apply Ascii.eqb_eq in Hc. subst c'. simpl. eauto.
  - destruct s as [|c' s]; [discriminate|].
    destruct (existsb (Ascii.eqb c') cs) eqn:Hc; [|discriminate].
    apply existsb_exists in Hc as (x & Hin & Hx).
    apply Ascii.eqb_eq in Hx. subst x. simpl. eauto 6.
  - apply try_counts_some in H as (j & gs' & Hj & Hrest & ->).
    destruct (take_digits hi j s ltac:(lia)) as [Ha Hl].
    pose proof (count_digits_le hi s).
    simpl. exists (Re.take j s), gs', (Re.drop j s).
    repeat split; auto; try lia.
    now rewrite take_drop.
Qed.

Lemma count_digits_app (g rest : string) :
  forall hi,
    all_chars is_decimal g = true -> (String.length g <= hi)%nat ->
    digits_end hi g rest ->
    Re.count_digits hi (g ++ rest) = String.length g.
Proof.
  induction g as [|c g IH]; intros hi Hall Hlen Hend.
  - simpl. destruct Hend as [Hend | Hend].
    + simpl in Hend. subst hi. destruct rest; reflexivity.
    + destruct hi, rest as [|c rest]; simpl; try reflexivity.
      now rewrite Hend.
  - simpl in Hall, Hlen. apply andb_true_iff in Hall as [Hc Hall].
    destruct hi as [|hi]; [lia|]. simpl. rewrite Hc. f_equal.
    apply IH; auto; [lia|].
    destruct Hend as [Hend | Hend]; [left; simpl in Hend; lia | now right].
Qed.

Lemma take_app (g rest : string) :
  Re.take (String.length g) (g ++ rest) = g.
Proof. induction g as [|c g IH]; simpl; [now destruct rest | now rewrite IH]. Qed.

Lemma drop_app (g rest : string) :
  Re.drop (String.length g) (g ++ rest) = rest.
Proof. induction g as [|c g IH]; simpl; [now destruct rest | apply IH]. Qed.

(** A group takes the digits in front of it, all of them, when what
    follows matches the rest of the pattern. *)
Lemma match_here_digits (lo hi : nat) (p : Re.pattern) (g rest : string)
  (gs : list string) (r : string) :
  digit_string lo hi g -> digits_end hi g rest ->
  Re.match_here p rest = Some (gs, r) ->
  Re.match_here (Re.Digits lo hi :: p) (g ++ rest) = Some (g :: gs, r).
Proof.
  intros [Hall [Hlo Hhi]] Hend Hrest. simpl.
  rewrite (count_digits_app g rest hi Hall Hhi Hend), try_counts_eq.
  apply Nat.leb_le in Hlo. rewrite Hlo, drop_app, Hrest, take_app.
  reflexivity.
Qed.

(** ** The tags of an LRC line *)

Lemma digit_value_range (c : ascii) :
  is_decimal c = true -> 0 <= digit_value c <= 9.
Proof.
  unfold is_decimal, digit_value. intros H.
  apply andb_true_iff in H as [H1 H2].
  apply Nat.leb_le in H1, H2. lia.
Qed.

Lemma int_two_digits (lo : nat) (d : string) :
  digit_string lo 2 d -> 0 <= int d <= 99.
Proof.
  intros [Hall [_ Hlen]]. unfold int.
  destruct d as [|c1 [|c2 [|c3 d]]];
    cbn [int_from String.length all_chars] in *; try lia.
  - apply andb_true_iff in Hall as [H1 _].
    apply digit_value_range in H1. lia.
  - apply andb_true_iff in Hall as [H1 Hall].
    apply andb_true_iff in Hall as [H2 _].
    apply digit_value_range in H1, H2. lia.
Qed.

Lemma findall_from_match (p : Re.pattern) (gs : list string) :
  forall s skip,
    In gs (Re.findall_from p skip s) ->
    exists s' r, Re.match_here p s' = Some (gs, r).
Proof.
  induction s as [|c s IH]; intros skip Hin; simpl in Hin; [contradiction|].
  destruct skip as [|k]; [|now apply IH in Hin].
  destruct (Re.match_here p (String c s)) as [[gs' r]|] eqn:Hm.
  - destruct Hin as [<- | Hin]; [eauto | now apply IH in Hin].
  - now apply IH in Hin.
Qed.

Lemma lrc_match_time (s r : string) (tag : list string) :
  Re.match_here lrc_time_pattern s = Some (tag, r) ->
  time_ok (tag_seconds tag) = true.
Proof.
  intros H. apply match_here_shape in H. simpl in H.
  destruct H as (s1 & _ & g1 & gs1 & s2 & -> & Hg1 & _
                 & s3 & _ & g2 & gs2 & s4 & -> & Hg2 & _
                 & s5 & _ & g3 & gs3 & s6 & -> & Hg3 & _
                 & s7 & _ & -> & _).
  simpl. apply lrc_seconds_ok; eapply int_two_digits; eassumption.
Qed.

Lemma line_times_ok (line : string) (k : float) :
  In k (line_times line) -> time_ok k = true.
Proof.
  unfold line_times. intros H. apply in_map_iff in H as (tag & <- & Hin).
  apply findall_from_match in Hin as (s' & r & Hm).
  eapply lrc_match_time; eassumption.
Qed.

Lemma time_ok_number (k : float) : time_ok k = true -> (k =? k) = true.
Proof. unfold time_ok. intros H. now apply andb_true_iff in H. Qed.

Lemma time_ok_five (k : float) :
  time_ok k = true -> flt k (k + PyFloat.of_Z 5).
Proof. unfold time_ok, flt. intros H. now apply andb_true_iff in H. Qed.

(** ** The dict *)

(** Reading a key after a write: the value written when the two keys are
    equal, what was there before when they are not. *)
Lemma dict_get_set (d : dict) (k : float) (v : string) (k2 : float) :
  dict_get (dict_set d k v) k2
  = if k =? k2 then Ok v else dict_get d k2.
Proof.
  induction d as [|[k' v'] d IH]; simpl.
  - reflexivity.
  - destruct (k' =? k) eqn:Hk; simpl.
    + rewrite (feq_trans_l k' k k2 Hk). now destruct (k =? k2).
    + rewrite IH. destruct (k =? k2) eqn:Hk2; [|reflexivity].
      now rewrite <- (feq_trans_r k k2 k' Hk2), Hk.
Qed.

Lemma dict_get_eq (d : dict) (k1 k2 : float) :
  (k1 =? k2) = true -> dict_get d k1 = dict_get d k2.
Proof.
  intros H. induction d as [|[k' v'] d IH]; simpl; [reflexivity|].
  now rewrite (feq_trans_r k1 k2 k' H), IH.
Qed.

Lemma dict_get_key (d : dict) (k : float) (v : string) :
  dict_get d k = Ok v ->
  exists k', In k' (dict_keys d) /\ (k' =? k) = true.
Proof.
  induction d as [|[k' v'] d IH]; simpl; [discriminate|].
  destruct (k' =? k) eqn:Hk.
  - intros _. exists k'. auto.
  - intros H. destruct (IH H) as (k'' & Hin & Heq). exists k''. auto.
Qed.

Lemma dict_get_in (d : dict) (k : float) :
  In k (dict_keys d) -> (k =? k) = true -> exists v, dict_get d k = Ok v.
Proof.
  induction d as [|[k' v'] d IH]; simpl; [contradiction|].
  intros Hin Hk. destruct (k' =? k) eqn:Hk'; [eauto|].
  destruct Hin as [-> | Hin]; [congruence | auto].
Qed.

Lemma dict_keys_set (d : dict) (k : float) (v : string) :
  dict_keys (dict_set d k v) = dict_keys d
  \/ dict_keys (dict_set d k v) = (dict_keys d ++ [k])%list
     /\ Forall (fun k' => (k' =? k) = false) (dict_keys d).
Proof.
  induction d as [|[k' v'] d IH]; simpl.
  - right. auto.
  - destruct (k' =? k) eqn:Hk; simpl; [now left|].
    destruct IH as [IH | [IH Hall]].
    + left. now rewrite IH.
    + right. rewrite IH. auto.
Qed.

Lemma keys_distinct_snoc (keys : list float) (k : float) :
  keys_distinct keys -> Forall (fun k' => (k' =? k) = false) keys ->
  keys_distinct (keys ++ [k])%list.
Proof.
  unfold keys_distinct. induction 1 as [|a l Ha Hl IH]; intros Hall; simpl.
  - repeat constructor.
  - inversion Hall as [|? ? Hak Hall']; subst. constructor.
    + apply Forall_app. split; [assumption | now constructor].
    + now apply IH.
Qed.

Lemma dict_set_ok (d : dict) (k : float) (v : string) :
  dict_ok d -> time_ok k = true -> dict_ok (dict_set d k v).
Proof.
  intros [Hall Hdist] Hk. unfold dict_ok.
  destruct (dict_keys_set d k v) as [-> | [-> Hnew]]; split; auto.
  - apply Forall_app. split; [assumption | now constructor].
  - now apply keys_distinct_snoc.
Qed.

Lemma lrc_line_ok (d : dict) (line : string) :
  dict_ok d -> dict_ok (lrc_line d line).
Proof.
  intros Hd. unfold lrc_line.
  destruct (is_empty (strip line)); [assumption|].
  pose proof (line_times_ok line) as Hok. unfold line_times in Hok.
  destruct (Re.findall lrc_time_pattern (strip line)) as [|tag tags];
    [assumption|].
  set (text := strip (Re.remove lrc_time_pattern (strip line))).
  clearbody text. revert d Hd Hok.
  generalize (tag :: tags) as l. clear tag tags.
  induction l as [|tag l IH]; intros d Hd Hok; simpl; [assumption|].
  apply IH.
  - apply dict_set_ok; [assumption|]. apply Hok. simpl. now left.
  - intros k Hin. apply Hok. simpl. now right.
Qed.

Lemma lrc_lines_ok (lines : list string) :
  forall d, dict_ok d -> dict_ok (fold_left lrc_line lines d).
Proof.
  induction lines as [|line lines IH]; intros d Hd; simpl; [assumption|].
  apply IH. now apply lrc_line_ok.
Qed.

Lemma dict_ok_empty : dict_ok [].
Proof. split; constructor. Qed.

(** ** [sorted] *)

Lemma insert_sorted_In (x y : float) (l : list float) :
  In y (insert_sorted x l) <-> y = x \/ In y l.
Proof.
  induction l as [|z l IH]; simpl.
  - intuition.
  - destruct (x <? z); simpl; rewrite ?IH; intuition.
Qed.

Lemma insert_sorted_Sorted (x : float) (l : list float) :
  Sorted flt l ->
  (x =? x) = true -> Forall (fun y => (y =? y) = true) l ->
  Forall (fun y => (y =? x) = false) l ->
  Sorted flt (insert_sorted x l).
Proof.
  intros Hs Hx. induction Hs as [|y l Hs IH Hhd]; intros Hnum Hne; simpl.
  - repeat constructor.
  - inversion Hnum as [|? ? Hy Hnum']; subst.
    inversion Hne as [|? ? Hyx Hne']; subst.
    destruct (x <? y) eqn:Hlt.
    + constructor; [now constructor | now constructor].
    + assert (Hyltx : flt y x).
      { apply flt_total; auto. now rewrite feq_sym. }
      constructor; [now apply IH|].
      destruct Hhd as [|z l Hyz]; simpl; [now constructor|].
      destruct (x <? z); now constructor.
Qed.

Lemma sorted_from (l : list float) :
  forall acc,
    Sorted flt acc ->
    Forall (fun y => (y =? y) = true) acc ->
    Forall (fun y => (y =? y) = true) l ->
    keys_distinct l ->
    (forall a x, In a acc -> In x l -> (a =? x) = false) ->
    Sorted flt (fold_left (fun acc x => insert_sorted x acc) l acc)
    /\ forall y, In y (fold_left (fun acc x => insert_sorted x acc) l acc)
                 <-> In y acc \/ In y l.
Proof.
  induction l as [|x l IH]; intros acc Hs Hacc Hl Hdist Hsep; simpl.
  - split; [assumption | intuition].
  - inversion Hl as [|? ? Hx Hl']; subst.
    inversion Hdist as [|? ? Hxl Hdist']; subst.
    destruct (IH (insert_sorted x acc)) as [Hsorted Hin]; auto.
    + apply insert_sorted_Sorted; auto.
      apply Forall_forall. intros a Ha. apply Hsep; simpl; auto.
    + apply Forall_forall. intros y Hy.
      apply insert_sorted_In in Hy as [-> | Hy]; [assumption|].
      rewrite Forall_forall in Hacc. auto.
    + intros a y Ha Hy. apply insert_sorted_In in Ha as [-> | Ha].
      * rewrite Forall_forall in Hxl. auto.
      * apply Hsep; simpl; auto.
    + split; [assumption|]. intros y. rewrite Hin, insert_sorted_In.
      intuition.
Qed.

Lemma sorted_spec (l : list float) :
  Forall (fun y => (y =? y) = true) l -> keys_distinct l ->
  StronglySorted flt (sorted l) /\ forall y, In y (sorted l) <-> In y l.
Proof.
  intros Hl Hdist.
  assert (Hsep : forall a x : float, In a [] -> In x l -> (a =? x) = false)
    by (intros a x []).
  destruct (sorted_from l [] (Sorted_nil _) (Forall_nil _) Hl Hdist Hsep)
    as [Hs Hin].
  split.
  - apply Sorted_StronglySorted; [|exact Hs].
    intros a b c. apply flt_trans.
  - intros y. unfold sorted. rewrite Hin. simpl. intuition.
Qed.

(** ** [parse_lrc] *)

Lemma lrc_cues_spec (d : dict) (times : list float) :
  Forall (fun k => In k (dict_keys d) /\ (k =? k) = true) times ->
  exists subtitles,
    lrc_cues d times = Ok subtitles
    /\ map cue_start subtitles = times
    /\ chained subtitles
    /\ Forall (fun c => dict_get d (cue_start c) = Ok (cue_text c)) subtitles.
Proof.
  induction 1 as [|start later [Hin Hnum] Hlater (subs & Hsubs & Hmap & Hch & Htxt)].
  - exists []. simpl. repeat split; constructor.
  - destruct (dict_get_in d start Hin Hnum) as [text Htext].
    exists ((start,
             match later with
             | next :: _ => next
             | [] => start + PyFloat.of_Z 5
             end, text) :: subs).
    simpl. rewrite Htext, Hsubs. simpl. rewrite Hmap.
    repeat split; auto.
    destruct later as [|next later'], subs as [|c subs'];
      simpl in Hmap; try discriminate; unfold cue_end; simpl; auto.
    now injection Hmap as -> _.
Qed.

(** [parse_lrc] returns on every input: one cue per key of the dict, in
    ascending order of start, chained, each with the text the dict holds
    for its start. *)
Lemma parse_lrc_spec (lines : list string) :
  let d := fold_left lrc_line lines [] in
  exists subtitles,
    parse_lrc lines = Ok ("lrc"%string, subtitles)
    /\ StronglySorted flt (map cue_start subtitles)
    /\ chained subtitles
    /\ Forall (fun c => time_ok (cue_start c) = true) subtitles
    /\ Forall (fun c => dict_get d (cue_start c) = Ok (cue_text c)) subtitles
    /\ forall k, In k (map cue_start subtitles) <-> In k (dict_keys d).
Proof.
  intros d.
  destruct (lrc_lines_ok lines [] dict_ok_empty) as [Hok Hdist].
  fold d in Hok, Hdist.
  assert (Hnum : Forall (fun y => (y =? y) = true) (dict_keys d)).
  { eapply Forall_impl; [|exact Hok]. intros k. apply time_ok_number. }
  destruct (sorted_spec (dict_keys d) Hnum Hdist) as [Hsorted Hin].
  destruct (lrc_cues_spec d (sorted (dict_keys d)))
    as (subs & Hsubs & Hmap & Hch & Htxt).
  { apply Forall_forall. intros k Hk. apply Hin in Hk.
    rewrite Forall_forall in Hnum. auto. }
  exists subs. unfold parse_lrc. fold d. rewrite Hsubs. simpl.
  rewrite Hmap. repeat split; auto.
  - apply Forall_forall. intros c Hc.
    rewrite Forall_forall in Hok. apply Hok, Hin. rewrite <- Hmap.
    now apply in_map.
  - apply Hin.
  - apply Hin.
Qed.

Lemma chained_start_before_end (subtitles : list cue) :
  StronglySorted flt (map cue_start subtitles) ->
  chained subtitles ->
  Forall (fun c => time_ok (cue_start c) = true) subtitles ->
  Forall (fun c => flt (cue_start c) (cue_end c)) subtitles.
Proof.
  induction subtitles as [|c later IH]; intros Hs Hch Hok; [constructor|].
  simpl in Hs. inversion Hs as [|? ? Hs' Hall]; subst.
  destruct Hch as [Hend Hch]. inversion Hok as [|? ? Hc Hok']; subst.
  constructor; [|now apply IH].
  rewrite Hend. destruct later as [|next later'].
  - now apply time_ok_five.
  - simpl in Hall. now inversion Hall.
Qed.

(** C10.  Every cue [parse_lrc] produces starts strictly before it
    ends. *)
Theorem parse_lrc_start_before_end :
  forall lines,
    exists subtitles,
      parse_lrc lines = Ok ("lrc"%string, subtitles)
      /\ Forall (fun c => (cue_start c <? cue_end c) = true) subtitles.
Proof.
  intros lines.
  destruct (parse_lrc_spec lines) as (subs & Hp & Hs & Hch & Hok & _).
  exists subs. split; [assumption|].
  now apply chained_start_before_end.
Qed.

(** ** Parsers on malformed input *)

(** C3.  An index line as the last line: [parse_srt] moves to the line
    after it without looking whether there is one, and [lines[i]] raises
    [IndexError].  The other two parsers return on every input. *)
Theorem parse_srt_index_line_last :
  parse_srt ["1"%string] = Raise IndexError
  /\ read_file (File ".srt" "1") = Raise IndexError
  /\ parse_srt (["1"; "00:00:01,000 --> 00:00:02,000"; "Hi"; ""; "2"]%string)
     = Raise IndexError
  /\ (forall lines,
         exists subtitles, parse_vtt lines = Ok ("vtt"%string, subtitles))
  /\ (forall lines,
         exists subtitles, parse_lrc lines = Ok ("lrc"%string, subtitles)).
Proof.
  split; [vm_compute; reflexivity|].
  split; [vm_compute; reflexivity|].
  split; [vm_compute; reflexivity|].
  split.
  - intros lines. eexists. reflexivity.
  - intros lines. destruct (parse_lrc_spec lines) as (subs & Hp & _). eauto.
Qed.

(** ** Duplicate timestamps *)

Lemma existsb_map {A B : Type} (f : B -> bool) (g : A -> B) (l : list A) :
  existsb f (map g l) = existsb (fun x => f (g x)) l.
Proof. induction l as [|x l IH]; simpl; [reflexivity | now rewrite IH]. Qed.

Lemma tags_get (text : string) (k : float) (tags : list (list string)) :
  forall d,
    dict_get
      (fold_left (fun d tag => dict_set d (tag_seconds tag) text) tags d) k
    = if existsb (fun tag => tag_seconds tag =? k) tags
      then Ok text else dict_get d k.
Proof.
  induction tags as [|tag tags IH]; intros d; simpl; [reflexivity|].
  rewrite IH, dict_get_set.
  destruct (tag_seconds tag =? k); simpl; [|reflexivity].
  now destruct (existsb _ tags).
Qed.

(** What one line does to the text held for a time [k]. *)
Lemma lrc_line_get (d : dict) (line : string) (k : float) :
  dict_get (lrc_line d line) k
  = if existsb (fun t => t =? k) (line_times line)
    then Ok (line_text line) else dict_get d k.
Proof.
  unfold lrc_line, line_times, line_text. rewrite existsb_map.
  destruct (strip line) as [|c s] eqn:Hs; [reflexivity|].
  cbn [is_empty].
  destruct (Re.findall lrc_time_pattern (String c s)) as [|tag tags] eqn:Ht;
    [reflexivity|].
  apply tags_get.
Qed.

Lemma lrc_lines_get (k : float) (lines : list string) :
  forall d,
    (forall l t, In l lines -> In t (line_times l) -> (t =? k) = false) ->
    dict_get (fold_left lrc_line lines d) k = dict_get d k.
Proof.
  induction lines as [|l lines IH]; intros d Hno; simpl; [reflexivity|].
  rewrite IH by (intros l' t Hl; apply Hno; simpl; auto).
  rewrite lrc_line_get.
  destruct (existsb (fun t => t =? k) (line_times l)) eqn:He; [|reflexivity].
  apply existsb_exists in He as (t & Hin & Ht).
  rewrite (Hno l t) in Ht; simpl; auto. discriminate.
Qed.

Lemma flt_eq_exclusive (a b k : float) :
  flt a b -> (a =? k) = true -> (b =? k) = false.
Proof.
  intros Hlt Ha. destruct (b =? k) eqn:Hb; [|reflexivity].
  apply flt_not_eq in Hlt.
  rewrite (feq_trans_l a k b Ha), feq_sym, Hb in Hlt. discriminate.
Qed.

Lemma filter_none {A : Type} (f : A -> bool) (l : list A) :
  (forall x, In x l -> f x = false) -> filter f l = [].
Proof.
  induction l as [|x l IH]; intros H; simpl; [reflexivity|].
  rewrite (H x) by (simpl; auto). apply IH. intros y Hy. apply H. simpl. auto.
Qed.

(** In a list of cues in strictly ascending order of start, one cue at
    most starts at a given time. *)
Lemma filter_sorted_one (subtitles : list cue) (c : cue) (k : float) :
  StronglySorted flt (map cue_start subtitles) ->
  In c subtitles -> (cue_start c =? k) = true ->
  filter (fun c' => cue_start c' =? k) subtitles = [c].
Proof.
  induction subtitles as [|h t IH]; intros Hs Hin Hk; [contradiction|].
  simpl in Hs. inversion Hs as [|? ? Hs' Hall]; subst.
  rewrite Forall_forall in Hall. simpl.
  destruct Hin as [-> | Hin].
  - rewrite Hk. f_equal. apply filter_none. intros c' Hc'.
    apply (flt_eq_exclusive (cue_start c)); [|assumption].
    apply Hall. now apply in_map.
  - destruct (cue_start h =? k) eqn:Hh.
    + assert (Hf : (cue_start c =? k) = false).
      { apply (flt_eq_exclusive (cue_start h)); [|assumption].
        apply Hall. now apply in_map. }
      congruence.
    + now apply IH.
Qed.

(** C8.  When a line carries a tag for the time [k] and no later line
    does, the cues of [parse_lrc] hold exactly one cue starting at [k],
    and its text is the text of that line: earlier lines with the same
    timestamp are overwritten. *)
Theorem parse_lrc_last_line_wins
  (before after : list string) (line : string) (k : float) :
  In k (line_times line) ->
  (forall l t, In l after -> In t (line_times l) -> (t =? k) = false) ->
  exists subtitles,
    parse_lrc (before ++ line :: after) = Ok ("lrc"%string, subtitles)
    /\ map cue_text (filter (fun c => cue_start c =? k) subtitles)
       = [line_text line].
Proof.
  intros Hk Hafter.
  destruct (parse_lrc_spec (before ++ line :: after))
    as (subs & Hp & Hs & _ & _ & Htxt & Hkeys).
  exists subs. split; [assumption|].
  set (d := fold_left lrc_line (before ++ line :: after) []) in *.
  assert (Hget : dict_get d k = Ok (line_text line)).
  { unfold d. rewrite fold_left_app. simpl.
    rewrite (lrc_lines_get k after _ Hafter), lrc_line_get.
    assert (He : existsb (fun t => t =? k) (line_times line) = true).
    { apply existsb_exists. exists k. split; [assumption|].
      apply time_ok_number. eapply line_times_ok. eassumption. }
    now rewrite He. }
  destruct (dict_get_key d k _ Hget) as (k' & Hin & Heq).
  apply Hkeys in Hin. apply in_map_iff in Hin as (c & <- & Hc).
  rewrite (filter_sorted_one subs c k Hs Hc Heq). simpl. f_equal.
  rewrite Forall_forall in Htxt. specialize (Htxt c Hc).
  rewrite (dict_get_eq d _ _ Heq), Hget in Htxt. congruence.
Qed.

(** Three lines, the first two sharing [00:02.00]: the cue at 2.0 has the
    text of the second. *)
Lemma parse_lrc_last_line_wins_witness :
  let before := ["[00:02.00]first"%string] in
  let line := "[00:02.00]second"%string in
  let after := ["[00:03.00]third"%string] in
  let k := PyFloat.of_Z 2 in
  In k (line_times line)
  /\ (forall l t, In l after -> In t (line_times l) -> (t =? k) = false)
  /\ exists subtitles,
       parse_lrc (before ++ line :: after) = Ok ("lrc"%string, subtitles)
       /\ map cue_text (filter (fun c => cue_start c =? k) subtitles)
          = ["second"%string].
Proof.
  cbv zeta.
  assert (H1 : In (PyFloat.of_Z 2) (line_times "[00:02.00]second")).
  { left. vm_compute. reflexivity. }
  assert (H2 : forall l t,
             In l ["[00:03.00]third"%string] -> In t (line_times l) ->
             (t =? PyFloat.of_Z 2) = false).
  { intros l t [<- | []] [<- | []]. vm_compute. reflexivity. }
  split; [exact H1|]. split; [exact H2|].
  exact (parse_lrc_last_line_wins ["[00:02.00]first"%string]
           ["[00:03.00]third"%string] "[00:02.00]second"
           (PyFloat.of_Z 2) H1 H2).
Defined.

(** ** The driver *)

Lemma parse_srt_format (lines : list string) (format : string)
  (subtitles : list cue) :
  parse_srt lines = Ok (format, subtitles) -> format = "srt"%string.
Proof.
  unfold parse_srt.
  destruct (srt_loop (List.length lines) lines 0 []); simpl; congruence.
Qed.

Lemma parse_lrc_format (lines : list string) (format : string)
  (subtitles : list cue) :
  parse_lrc lines = Ok (format, subtitles) -> format = "lrc"%string.
Proof.
  unfold parse_lrc.
  destruct (lrc_cues _ _); simpl; congruence.
Qed.

(** A file whose read raises: [read_file] raises the same. *)
Lemma read_file_read_error (f : file) (e : exn) :
  read_text f = Raise e -> read_file f = Raise e.
Proof. intros H. unfold read_file. now rewrite H. Qed.

(** A file that is read: [read_file] goes by the extension. *)
Lemma read_file_text (f : file) (text : string) :
  read_text f = Ok text ->
  read_file f
  = let lines := split newline (strip text) in
    if String.eqb (lower (suffix f)) ".srt" then parse_srt lines
    else if String.eqb (lower (suffix f)) ".vtt" then parse_vtt lines
    else if String.eqb (lower (suffix f)) ".lrc" then parse_lrc lines
    else Raise (ValueError ("Unsupported file format: " ++ suffix f)).
Proof. intros H. unfold read_file. now rewrite H. Qed.

(** The format [read_file] returns is the one the extension names. *)
Lemma read_file_format (f : file) (format : string) (subtitles : list cue) :
  read_file f = Ok (format, subtitles) ->
  lower (suffix f) = ("." ++ format)%string /\ known_format format.
Proof.
  destruct (read_text f) as [text|e] eqn:Hread.
  2: { rewrite (read_file_read_error f e Hread). discriminate. }
  rewrite (read_file_text f text Hread). cbv zeta. unfold known_format.
  destruct (String.eqb_spec (lower (suffix f)) ".srt") as [-> | _].
  { intros H. apply parse_srt_format in H. subst. auto. }
  destruct (String.eqb_spec (lower (suffix f)) ".vtt") as [-> | _].
  { unfold parse_vtt. intros H. injection H as <- _. auto. }
  destruct (String.eqb_spec (lower (suffix f)) ".lrc") as [-> | _].
  { intros H. apply parse_lrc_format in H. subst. auto. }
  discriminate.
Qed.

Lemma read_file_vtt_lrc (f : file) (text : string) :
  read_text f = Ok text ->
  lower (suffix f) = ".vtt"%string \/ lower (suffix f) = ".lrc"%string ->
  exists format subtitles, read_file f = Ok (format, subtitles).
Proof.
  intros Hread. rewrite (read_file_text f text Hread). cbv zeta.
  intros [-> | ->]; simpl.
  - unfold parse_vtt. eauto.
  - destruct (parse_lrc_spec (split newline (strip text)))
      as (subs & -> & _). eauto.
Qed.

(** On a file that [read_file] parses, which is every .vtt and every
    .lrc file that is read and every .srt file on which [parse_srt]
    returns, the format detected is the one of the extension and
    [convert] to that format raises the same-format error. *)
Lemma convert_same_format_parsed (f : file) :
  (exists text,
      read_text f = Ok text
      /\ (lower (suffix f) = ".vtt"%string
          \/ lower (suffix f) = ".lrc"%string))
  \/ (exists format subtitles, read_file f = Ok (format, subtitles)) ->
  exists format,
    lower (suffix f) = ("." ++ format)%string
    /\ known_format format
    /\ convert f format = Raise same_format_error.
Proof.
  intros H.
  assert (Hread : exists format subtitles, read_file f = Ok (format, subtitles)).
  { destruct H as [(text & Htext & H) | H]; [|exact H].
    eapply read_file_vtt_lrc; eassumption. }
  destruct Hread as (format & subs & Hread).
  destruct (read_file_format f format subs Hread) as [Hext Hknown].
  exists format. repeat split; auto.
  unfold convert. rewrite Hread. simpl. now rewrite String.eqb_refl.
Qed.

(** C4.  On the file [a.srt] holding the single line "1", [convert] to
    srt raises [IndexError] out of [parse_srt], which reads the line after
    an index line without a look at the length of the list, and so never
    comes to compare the formats; the error is not the same-format error.
    The same file with a time line and a text after the index line, every
    .vtt file and every .lrc file that is read, and every file that
    [read_file] parses, raise the same-format error as claimed. *)
Theorem convert_same_format_index_error :
  convert (File ".srt" "1") "srt" = Raise IndexError
  /\ IndexError <> same_format_error
  /\ convert
       (File ".srt" (lines_of ["1"; "00:00:01,000 --> 00:00:03,000"; "Hello"]))
       "srt"
     = Raise same_format_error
  /\ (forall ext text format,
         lower ext = ("." ++ format)%string ->
         format = "vtt"%string \/ format = "lrc"%string ->
         convert (File ext text) format = Raise same_format_error)
  /\ (forall f format subtitles,
         read_file f = Ok (format, subtitles) ->
         convert f format = Raise same_format_error).
Proof.
  split; [vm_compute; reflexivity|]. split; [discriminate|].
  split; [vm_compute; reflexivity|]. split.
  - intros ext text format Hext Hformat.
    destruct (convert_same_format_parsed (File ext text))
      as (format' & Hext' & _ & Hc).
    { left. exists text. split; [reflexivity|]. cbn [suffix File].
      rewrite Hext. destruct Hformat as [-> | ->]; auto. }
    cbn [suffix File] in Hext'. rewrite Hext in Hext'.
    injection Hext' as <-. exact Hc.
  - intros f format subs Hread. unfold convert. rewrite Hread. simpl.
    now rewrite String.eqb_refl.
Qed.




(** ** The VTT serializer *)

Lemma string_app_nil (s : string) : (s ++ "")%string = s.
Proof. induction s as [|c s IH]; simpl; [reflexivity | now rewrite IH]. Qed.

Lemma join_blocks (b : string) (later : list string) :
  join newline (b :: later) = (b ++ after_blank_lines later)%string.
Proof.
  revert b. induction later as [|b' later IH]; intros b.
  - simpl. now rewrite string_app_nil.
  - change (join newline (b :: b' :: later))
      with (b ++ newline ++ join newline (b' :: later))%string.
    rewrite IH. reflexivity.
Qed.

Lemma format_time_vtt (t : float) (time_str : string) :
  format_time t "vtt" = Ok time_str ->
  exists h m s ms, time_str = vtt_time h m s ms.
Proof.
  unfold format_time.
  change (String.eqb "vtt" "srt") with false.
  change (String.eqb "vtt" "vtt") with true. cbv iota.
  destruct (hms_fields t) as [[[h m] s]|e]; [|discriminate].
  unfold bind. destruct (fraction_field t 1000) as [ms|e]; [|discriminate].
  intros H. injection H as <-. exists h, m, s, ms. reflexivity.
Qed.

Lemma vtt_blocks_spec (subtitles : list cue) (blocks : list string) :
  vtt_blocks subtitles = Ok blocks <-> Forall2 vtt_block_of subtitles blocks.
Proof.
  revert blocks. induction subtitles as [|[[start end_] text] later IH];
    intros blocks; simpl.
  - split.
    + intros H. injection H as <-. constructor.
    + intros H. inversion H. reflexivity.
  - split.
    + destruct (format_time start "vtt") as [s1|e] eqn:H1; [|discriminate].
      destruct (format_time end_ "vtt") as [s2|e] eqn:H2; [|discriminate].
      destruct (vtt_blocks later) as [bs|e] eqn:H3; [|discriminate].
      simpl. intros H. injection H as <-.
      constructor; [|now apply IH].
      destruct (format_time_vtt _ _ H1) as (h & m & s & ms & ->).
      destruct (format_time_vtt _ _ H2) as (h' & m' & s' & ms' & ->).
      exists h, m, s, ms, h', m', s', ms'. auto.
    + intros H. inversion H as [|c b l bs Hb Hl]; subst.
      destruct Hb as (h & m & s & ms & h' & m' & s' & ms' & H1 & H2 & ->).
      unfold cue_start, cue_end, cue_text in H1, H2. simpl in H1, H2.
      rewrite H1, H2. simpl. apply IH in Hl. rewrite Hl. reflexivity.
Qed.

Lemma join_vtt (blocks : list string) :
  join newline (["WEBVTT"; ""]%string ++ blocks)%list = vtt_document blocks.
Proof.
  cbn [app].
  change (join newline ("WEBVTT"%string :: ""%string :: blocks))
    with ("WEBVTT" ++ newline ++ join newline (""%string :: blocks))%string.
  now rewrite join_blocks.
Qed.

Lemma to_int_raises (x : float) (e : exn) :
  PyFloat.to_int x = Raise e -> int_error e.
Proof.
  unfold PyFloat.to_int, int_error.
  destruct (Prim2SF x); intros H; try discriminate; injection H as <-; auto.
Qed.

Lemma rem_returns (x : float) (d : Z) :
  (PyFloat.of_Z d =? zero) = false ->
  exists r, PyFloat.rem x (PyFloat.of_Z d) = Ok r.
Proof. unfold PyFloat.rem. intros ->. eauto. Qed.

Lemma floor_div_returns (x : float) (d : Z) :
  (PyFloat.of_Z d =? zero) = false ->
  exists q, PyFloat.floor_div x (PyFloat.of_Z d) = Ok q.
Proof. unfold PyFloat.floor_div. intros ->. eauto. Qed.

Lemma divisor_3600 : (PyFloat.of_Z 3600 =? zero) = false.
Proof. vm_compute. reflexivity. Qed.

Lemma divisor_60 : (PyFloat.of_Z 60 =? zero) = false.
Proof. vm_compute. reflexivity. Qed.

Lemma fraction_field_raises (t : float) (unit : Z) (e : exn) :
  fraction_field t unit = Raise e -> int_error e.
Proof.
  unfold fraction_field, bind.
  destruct (PyFloat.to_int t) as [i|e'] eqn:Hi.
  - apply to_int_raises.
  - intros H. injection H as <-. eapply to_int_raises. eassumption.
Qed.

Lemma hms_fields_raises (t : float) (e : exn) :
  hms_fields t = Raise e -> int_error e.
Proof.
  unfold hms_fields, bind.
  destruct (floor_div_returns t 3600 divisor_3600) as [q ->].
  destruct (PyFloat.to_int q) as [h|e1] eqn:Hh;
    [|intros H; injection H as <-; eapply to_int_raises; eassumption].
  destruct (rem_returns t 3600 divisor_3600) as [r ->].
  destruct (floor_div_returns r 60 divisor_60) as [q' ->].
  destruct (PyFloat.to_int q') as [m|e2] eqn:Hm;
    [|intros H; injection H as <-; eapply to_int_raises; eassumption].
  destruct (rem_returns t 60 divisor_60) as [r' ->].
  destruct (PyFloat.to_int r') as [s|e3] eqn:Hs;
    [|intros H; injection H as <-; eapply to_int_raises; eassumption].
  discriminate.
Qed.

(** [format_time] to vtt raises nothing but the errors of [int]. *)
Lemma format_time_vtt_raises (t : float) (e : exn) :
  format_time t "vtt" = Raise e -> int_error e.
Proof.
  unfold format_time.
  change (String.eqb "vtt" "srt") with false.
  change (String.eqb "vtt" "vtt") with true. cbv iota.
  destruct (hms_fields t) as [[[h m] s]|e'] eqn:Hf.
  - unfold bind.
    destruct (fraction_field t 1000) as [ms|e'] eqn:Hms; [discriminate|].
    intros H. injection H as <-. eapply fraction_field_raises. eassumption.
  - unfold bind. intros H. injection H as <-.
    eapply hms_fields_raises. eassumption.
Qed.

Lemma vtt_blocks_raises (subtitles : list cue) (e : exn) :
  vtt_blocks subtitles = Raise e -> int_error e.
Proof.
  induction subtitles as [|[[start end_] text] later IH]; simpl;
    [discriminate|].
  destruct (format_time start "vtt") as [s1|e1] eqn:H1;
    [|intros H; injection H as <-; eapply format_time_vtt_raises; eassumption].
  destruct (format_time end_ "vtt") as [s2|e2] eqn:H2;
    [|intros H; injection H as <-; eapply format_time_vtt_raises; eassumption].
  destruct (vtt_blocks later) as [bs|e3] eqn:H3; [discriminate|].
  simpl. intros H. injection H as <-. now apply IH.
Qed.

(** C9, the claim as stated fails: on a cue whose start is a NaN,
    [to_vtt] raises the error of [int] and produces no document; and a
    time of 100 hours, which [parse_srt] reads from 99:60:00,000, is
    written with a three-digit hour, not as HH:MM:SS.mmm. *)
Lemma to_vtt_counterexample :
  to_vtt [(nan, PyFloat.of_Z 3, "Hello world"%string)]
  = Raise (ValueError "cannot convert float NaN to integer")
  /\ parse_time "99:60:00,000" "srt" = PyFloat.of_Z 360000
  /\ to_vtt [(PyFloat.of_Z 1, PyFloat.of_Z 360000, "Hello world"%string)]
     = Ok (lines_of ["WEBVTT"; ""; "00:00:01.000 --> 100:00:00.000";
                     "Hello world"; ""]).
Proof.
  conjuncts; vm_compute; reflexivity.
Qed.

(** C9, amended.  [to_vtt] returns a document exactly when [format_time]
    can write every start and end, and the document is then the line
    WEBVTT, and, for each cue in order, a blank line followed by the block
    of the cue: the line [start --> end], the times written with the
    fields zero-padded to 2, 2, 2 and 3 digits, then the text.  It raises
    nothing but the error of [int] on a time that is a NaN or infinite.
    The SRT example of the specification converts to the VTT text given
    there. *)
Theorem to_vtt_layout :
  (forall subtitles doc,
      to_vtt subtitles = Ok doc
      <-> exists blocks,
          Forall2 vtt_block_of subtitles blocks /\ doc = vtt_document blocks)
  /\ (forall subtitles e, to_vtt subtitles = Raise e -> int_error e)
  /\ convert
       (File ".srt"
          (lines_of ["1"; "00:00:01,000 --> 00:00:03,000"; "Hello world"; "";
                     "2"; "00:00:04,500 --> 00:00:06,000"; "Second line"]))
       "vtt"
     = Ok (lines_of ["WEBVTT"; "";
                     "00:00:01.000 --> 00:00:03.000"; "Hello world"; "";
                     "00:00:04.500 --> 00:00:06.000"; "Second line"; ""]).
Proof.
  split; [|split; [|vm_compute; reflexivity]].
  2: { intros subtitles e. unfold to_vtt, bind.
       destruct (vtt_blocks subtitles) as [blocks|e'] eqn:Hb; [discriminate|].
       intros H. injection H as <-. eapply vtt_blocks_raises. eassumption. }
  intros subtitles doc. unfold to_vtt, bind. split.
  - destruct (vtt_blocks subtitles) as [blocks|e] eqn:Hb; [|discriminate].
    rewrite join_vtt. intros H. exists blocks.
    split; [now apply vtt_blocks_spec | congruence].
  - intros (blocks & Hb & ->). apply vtt_blocks_spec in Hb.
    now rewrite Hb, join_vtt.
Qed.

(** One cue from 1.0 to 3.0, and one cue whose start is a NaN. *)
Lemma to_vtt_layout_witness :
  (exists blocks,
      Forall2 vtt_block_of
        [(PyFloat.of_Z 1, PyFloat.of_Z 3, "Hello world"%string)] blocks
      /\ lines_of ["WEBVTT"; ""; "00:00:01.000 --> 00:00:03.000";
                   "Hello world"; ""]
         = vtt_document blocks)
  /\ to_vtt [(nan, PyFloat.of_Z 3, "Hello world"%string)]
     = Raise (ValueError "cannot convert float NaN to integer")
  /\ int_error (ValueError "cannot convert float NaN to integer").
Proof.
  assert (H1 : to_vtt [(PyFloat.of_Z 1, PyFloat.of_Z 3, "Hello world"%string)]
               = Ok (lines_of ["WEBVTT"; ""; "00:00:01.000 --> 00:00:03.000";
                               "Hello world"; ""]))
    by (vm_compute; reflexivity).
  assert (H2 : to_vtt [(nan, PyFloat.of_Z 3, "Hello world"%string)]
               = Raise (ValueError "cannot convert float NaN to integer"))
    by (vm_compute; reflexivity).
  split; [|split; [exact H2|]].
  - exact (proj1 (proj1 to_vtt_layout _ _) H1).
  - exact (proj1 (proj2 to_vtt_layout) _ _ H2).
Defined.

(** ** [parse_time] *)

Lemma match_here_digits_inv (lo hi : nat) (p : Re.pattern) (s : string)
  (gs : list string) (r : string) :
  Re.match_here (Re.Digits lo hi :: p) s = Some (gs, r) ->
  exists g gs' s',
    gs = g :: gs' /\ digit_string lo hi g /\ s = (g ++ s')%string
    /\ Re.match_here p s' = Some (gs', r).
Proof.
  simpl. intros H.
  apply try_counts_some in H as (j & gs' & Hj & Hrest & ->).
  destruct (take_digits hi j s ltac:(lia)) as [Ha Hl].
  pose proof (count_digits_le hi s).
  exists (Re.take j s), gs', (Re.drop j s).
  repeat split; auto; try lia. now rewrite take_drop.
Qed.

Lemma match_here_lit_inv (c : ascii) (p : Re.pattern) (s : string)
  (gs : list string) (r : string) :
  Re.match_here (Re.Lit c :: p) s = Some (gs, r) ->
  exists s', s = String c s' /\ Re.match_here p s' = Some (gs, r).
Proof.
  simpl. destruct s as [|c' s]; [discriminate|].
  destruct (Ascii.eqb c c') eqn:Hc; [|discriminate].
  apply Ascii.eqb_eq in Hc. subst c'. eauto.
Qed.

Lemma match_here_oneof_inv (cs : list ascii) (p : Re.pattern) (s : string)
  (gs : list string) (r : string) :
  Re.match_here (Re.OneOf cs :: p) s = Some (gs, r) ->
  exists c s', In c cs /\ s = String c s'
               /\ Re.match_here p s' = Some (gs, r).
Proof.
  simpl. destruct s as [|c' s]; [discriminate|].
  destruct (existsb (Ascii.eqb c') cs) eqn:Hc; [|discriminate].
  apply existsb_exists in Hc as (x & Hin & Hx).
  apply Ascii.eqb_eq in Hx. subst x. eauto.
Qed.

Lemma try_counts_none (lo : nat) (s : string) (rest : string -> Re.matched) :
  forall k, (k < lo)%nat -> Re.try_counts k lo s rest = None.
Proof.
  induction k as [|k IH]; intros Hk; rewrite try_counts_eq.
  - destruct (Nat.leb_spec lo 0); [lia | reflexivity].
  - destruct (Nat.leb_spec lo (S k)); [lia|]. apply IH. lia.
Qed.

Lemma count_digits_end (hi : nat) :
  forall s,
    Re.count_digits hi s = hi
    \/ match Re.drop (Re.count_digits hi s) s with
       | String c _ => is_decimal c = false
       | EmptyString => True
       end.
Proof.
  induction hi as [|hi IH]; intros s; [now left|].
  destruct s as [|c s]; simpl; [now right|].
  destruct (is_decimal c) eqn:Hc; simpl; [|now right].
  destruct (IH s) as [-> | H]; [now left | now right].
Qed.

(** The last group takes every digit it can. *)
Lemma match_here_last_digits (lo hi : nat) (s : string) (gs : list string)
  (r : string) :
  Re.match_here [Re.Digits lo hi] s = Some (gs, r) ->
  exists g,
    gs = [g] /\ s = (g ++ r)%string /\ digit_string lo hi g
    /\ digits_end hi g r.
Proof.
  cbn [Re.match_here]. rewrite try_counts_eq.
  destruct (Nat.leb_spec lo (Re.count_digits hi s)) as [Hlo | Hlo].
  - intros H. injection H as <- <-.
    destruct (take_digits hi (Re.count_digits hi s) s (le_n _)) as [Ha Hl].
    pose proof (count_digits_le hi s).
    exists (Re.take (Re.count_digits hi s) s).
    repeat split; auto; try lia.
    + now rewrite take_drop.
    + unfold digits_end. rewrite Hl. apply count_digits_end.
  - destruct (Re.count_digits hi s) as [|k]; [discriminate|].
    rewrite try_counts_none by lia. discriminate.
Qed.

Lemma digits_end_nondigit (hi : nat) (g : string) (c : ascii) (rest : string) :
  is_decimal c = false -> digits_end hi g (String c rest).
Proof. intros H. now right. Qed.

Lemma match_here_lit (c : ascii) (p : Re.pattern) (s : string) :
  Re.match_here (Re.Lit c :: p) (String c s) = Re.match_here p s.
Proof. simpl. now rewrite Ascii.eqb_refl. Qed.

Lemma match_here_oneof (c : ascii) (cs : list ascii) (p : Re.pattern)
  (s : string) :
  existsb (Ascii.eqb c) cs = true ->
  Re.match_here (Re.OneOf cs :: p) (String c s) = Re.match_here p s.
Proof. intros H. simpl. now rewrite H. Qed.

Lemma time_pattern_match (h m s f rest : string) (sep : ascii) :
  digit_string 1 2 h -> digit_string 1 2 m -> digit_string 1 2 s ->
  sep = ","%char \/ sep = "."%char ->
  digit_string 1 3 f -> digits_end 3 f rest ->
  Re.match_here time_pattern
    (h ++ ":" ++ m ++ ":" ++ s ++ String sep (f ++ rest))
  = Some ([h; m; s; f], rest).
Proof.
  intros Hh Hm Hs Hsep Hf Hend. unfold time_pattern.
  assert (Hsepd : is_decimal sep = false)
    by (destruct Hsep; subst; reflexivity).
  assert (Hin : existsb (Ascii.eqb sep) [","%char; "."%char] = true)
    by (destruct Hsep; subst; reflexivity).
  cbn [append].
  apply match_here_digits; auto; [now apply digits_end_nondigit|].
  rewrite match_here_lit.
  apply match_here_digits; auto; [now apply digits_end_nondigit|].
  rewrite match_here_lit.
  apply match_here_digits; auto; [now apply digits_end_nondigit|].
  rewrite (match_here_oneof _ _ _ _ Hin).
  now apply match_here_digits.
Qed.

Lemma lrc_pattern_match (m s cs rest : string) :
  digit_string 1 2 m -> digit_string 1 2 s -> digit_string 1 2 cs ->
  Re.match_here lrc_time_pattern
    ("[" ++ m ++ ":" ++ s ++ "." ++ cs ++ "]" ++ rest)
  = Some ([m; s; cs], rest).
Proof.
  intros Hm Hs Hcs. unfold lrc_time_pattern.
  cbn [append]. rewrite match_here_lit.
  apply match_here_digits; auto; [now apply digits_end_nondigit|].
  rewrite match_here_lit.
  apply match_here_digits; auto; [now apply digits_end_nondigit|].
  rewrite match_here_lit.
  apply match_here_digits; try assumption;
    [now apply digits_end_nondigit|].
  now rewrite match_here_lit.
Qed.

Lemma time_pattern_match_inv (time_str : string) (gs : list string)
  (r : string) :
  Re.match_here time_pattern time_str = Some (gs, r) ->
  exists h m s f, gs = [h; m; s; f] /\ hms_start time_str h m s f.
Proof.
  unfold time_pattern. intros H.
  apply match_here_digits_inv in H as (h & gs1 & s1 & -> & Hh & -> & H).
  apply match_here_lit_inv in H as (s2 & -> & H).
  apply match_here_digits_inv in H as (m & gs2 & s3 & -> & Hm & -> & H).
  apply match_here_lit_inv in H as (s4 & -> & H).
  apply match_here_digits_inv in H as (s & gs3 & s5 & -> & Hs & -> & H).
  apply match_here_oneof_inv in H as (sep & s6 & Hsep & -> & H).
  apply match_here_last_digits in H as (f & -> & -> & Hf & Hend).
  exists h, m, s, f. split; [reflexivity|].
  exists sep, r. repeat split; auto; try apply Hh; try apply Hm;
    try apply Hs; try apply Hf.
  simpl in Hsep. intuition.
Qed.

Lemma lrc_pattern_match_inv (time_str : string) (gs : list string)
  (r : string) :
  Re.match_here lrc_time_pattern time_str = Some (gs, r) ->
  exists m s cs, gs = [m; s; cs] /\ lrc_start time_str m s cs.
Proof.
  unfold lrc_time_pattern. intros H.
  apply match_here_lit_inv in H as (s1 & -> & H).
  apply match_here_digits_inv in H as (m & gs1 & s2 & -> & Hm & -> & H).
  apply match_here_lit_inv in H as (s3 & -> & H).
  apply match_here_digits_inv in H as (s & gs2 & s4 & -> & Hs & -> & H).
  apply match_here_lit_inv in H as (s5 & -> & H).
  apply match_here_digits_inv in H as (cs & gs3 & s6 & -> & Hcs & -> & H).
  apply match_here_lit_inv in H as (s7 & -> & H).
  simpl in H. injection H as <- ->.
  exists m, s, cs. split; [reflexivity|].
  exists r. repeat split; auto; try apply Hm; try apply Hs; try apply Hcs.
Qed.

(** C6, the claim as stated fails: with format 'srt', the VTT-style
    timestamp 00:00:01.500 is not read as 0.0 but as 1.5, and so is a
    timestamp followed by other text; 'srt' and 'vtt' are read by one
    pattern, whose separator is a comma or a full stop.  The two patterns
    of [__init__] with one separator each would not match, but
    [parse_time] does not use them. *)
Lemma parse_time_srt_counterexample :
  parse_time "00:00:01.500" "srt" = hms_seconds 0 0 1 500
  /\ parse_time "00:00:01,500 and more" "srt" = hms_seconds 0 0 1 500
  /\ parse_time "00:00:01,500" "vtt" = hms_seconds 0 0 1 500
  /\ (hms_seconds 0 0 1 500 =? zero) = false
  /\ Re.match_here srt_time_pattern "00:00:01.500" = None
  /\ Re.match_here vtt_time_pattern "00:00:01,500" = None.
Proof.
  conjuncts; vm_compute; reflexivity.
Qed.

(** C6, amended.  For 'srt' and for 'vtt' alike, [parse_time] reads a
    timestamp at the start of the string, with either separator: on a
    string that starts with [h:m:s,f] or [h:m:s.f] (one or two digits for
    [h], [m], [s]; one to three for [f], as many as there are) it returns
    [h * 3600 + m * 60 + s + f / 1000], whatever follows; for 'lrc', on a
    string that starts with [[m:s.cs]], it returns [m * 60 + s + cs / 100].
    It returns 0.0 when the string has no such start, and for every other
    format. *)
Theorem parse_time_reads_a_start (time_str format : string) :
  (format = "srt"%string \/ format = "vtt"%string ->
   (forall h m s f,
       hms_start time_str h m s f ->
       parse_time time_str format
       = hms_seconds (int h) (int m) (int s) (int f))
   /\ ((~ exists h m s f, hms_start time_str h m s f) ->
       parse_time time_str format = zero))
  /\ (format = "lrc"%string ->
      (forall m s cs,
          lrc_start time_str m s cs ->
          parse_time time_str format
          = lrc_seconds (int m) (int s) (int cs))
      /\ ((~ exists m s cs, lrc_start time_str m s cs) ->
          parse_time time_str format = zero))
  /\ (~ known_format format -> parse_time time_str format = zero).
Proof.
  split; [|split].
  - intros Hfmt.
    assert (Hsel : String.eqb format "srt" || String.eqb format "vtt" = true)
      by (destruct Hfmt; subst; reflexivity).
    unfold parse_time. rewrite Hsel. split.
    + intros h m s f (sep & rest & Hh & Hm & Hs & Hsep & Hf & Hend & ->).
      now rewrite time_pattern_match.
    + intros Hno.
      destruct (Re.match_here time_pattern time_str) as [[gs r]|] eqn:H;
        [|reflexivity].
      exfalso. apply Hno.
      apply time_pattern_match_inv in H as (h & m & s & f & _ & H). eauto.
  - intros ->. unfold parse_time.
    change (String.eqb "lrc" "srt" || String.eqb "lrc" "vtt") with false.
    change (String.eqb "lrc" "lrc") with true. cbv iota. split.
    + intros m s cs (rest & Hm & Hs & Hcs & ->).
      now rewrite lrc_pattern_match.
    + intros Hno.
      destruct (Re.match_here lrc_time_pattern time_str) as [[gs r]|] eqn:H;
        [|reflexivity].
      exfalso. apply Hno.
      apply lrc_pattern_match_inv in H as (m & s & cs & _ & H). eauto.
  - intros Hfmt. unfold known_format in Hfmt. unfold parse_time.
    destruct (String.eqb_spec format "srt"); [tauto|].
    destruct (String.eqb_spec format "vtt"); [tauto|].
    destruct (String.eqb_spec format "lrc"); [tauto|].
    reflexivity.
Qed.

(** A string of digits of the right length, given in full. *)
Ltac digits_given := split; [reflexivity | simpl; lia].

(** A VTT-style timestamp read as srt, a short timestamp with text after
    it, a string with no timestamp, an LRC tag, an unknown format. *)
Lemma parse_time_reads_a_start_witness :
  parse_time "00:00:01.500" "srt" = hms_seconds 0 0 1 500
  /\ parse_time "1:2:3,5 and more" "vtt" = hms_seconds 1 2 3 5
  /\ parse_time "abc" "srt" = zero
  /\ parse_time "[01:02.5]x" "lrc" = lrc_seconds 1 2 5
  /\ parse_time "00:00:01,000" "ass" = zero.
Proof.
  split; [|split; [|split; [|split]]].
  - refine (proj1 (proj1 (parse_time_reads_a_start "00:00:01.500" "srt")
                     (or_introl eq_refl)) "00" "00" "01" "500" _)%string.
    exists "."%char, ""%string.
    repeat (split; [digits_given|]).
    split; [now right|]. split; [digits_given|].
    split; [now left | reflexivity].
  - refine (proj1 (proj1 (parse_time_reads_a_start "1:2:3,5 and more" "vtt")
                     (or_intror eq_refl)) "1" "2" "3" "5" _)%string.
    exists ","%char, " and more"%string.
    repeat (split; [digits_given|]).
    split; [now left|]. split; [digits_given|].
    split; [right; reflexivity | reflexivity].
  - refine (proj2 (proj1 (parse_time_reads_a_start "abc" "srt")
                     (or_introl eq_refl)) _).
    intros (h & m & s & f & sep & rest & [Hall [Hlen _]] & _ & _ & _ & _ & _ & Heq).
    destruct h as [|c h]; [simpl in Hlen; lia|].
    simpl in Heq. injection Heq as <- _. discriminate.
  - refine (proj1 (proj1 (proj2 (parse_time_reads_a_start "[01:02.5]x" "lrc"))
                     eq_refl) "01" "02" "5" _)%string.
    exists "x"%string. repeat (split; [digits_given|]). reflexivity.
  - refine (proj2 (proj2 (parse_time_reads_a_start "00:00:01,000" "ass")) _).
    intros [H | [H | H]]; discriminate.
Defined.

(** * Further properties *)

(** ** The text layer of the time codec *)

Lemma pad_2_fields : forallb (field_ok 2) (upto 100) = true.
Proof. vm_compute. reflexivity. Qed.

Lemma pad_3_fields : forallb (field_ok 3) (upto 1000) = true.
Proof. vm_compute. reflexivity. Qed.

Lemma field_ok_spec (w : nat) (n : Z) :
  field_ok w n = true ->
  digit_string 1 w (pad w n) /\ String.length (pad w n) = w
  /\ int (pad w n) = n.
Proof.
  unfold field_ok, digit_string. intros H.
  apply andb_true_iff in H as [H Hint].
  apply andb_true_iff in H as [Hall Hlen].
  apply Nat.eqb_eq in Hlen. apply Z.eqb_eq in Hint.
  destruct w as [|w].
  - exfalso. destruct (pad 0 n) as [|c p] eqn:Hp; [|discriminate].
    unfold int in Hint. simpl in Hint. subst n. discriminate.
  - repeat split; auto; lia.
Qed.

Lemma pad_2_spec (n : Z) :
  two_digits n ->
  digit_string 1 2 (pad 2 n) /\ String.length (pad 2 n) = 2%nat
  /\ int (pad 2 n) = n.
Proof.
  intros Hn. apply field_ok_spec.
  pose proof pad_2_fields as H. rewrite forallb_forall in H.
  apply H, In_upto. unfold two_digits in Hn. lia.
Qed.

Lemma pad_3_spec (n : Z) :
  three_digits n ->
  digit_string 1 3 (pad 3 n) /\ String.length (pad 3 n) = 3%nat
  /\ int (pad 3 n) = n.
Proof.
  intros Hn. apply field_ok_spec.
  pose proof pad_3_fields as H. rewrite forallb_forall in H.
  apply H, In_upto. unfold three_digits in Hn. lia.
Qed.

Lemma parse_time_srt_time (h m s f : Z) :
  fields_ok h m s f ->
  parse_time (srt_time h m s f) "srt" = hms_seconds h m s f.
Proof.
  intros (Hh & Hm & Hs & Hf).
  destruct (pad_2_spec h Hh) as (Dh & _ & Ih).
  destruct (pad_2_spec m Hm) as (Dm & _ & Im).
  destruct (pad_2_spec s Hs) as (Ds & _ & Is).
  destruct (pad_3_spec f Hf) as (Df & Lf & If).
  assert (Hend : digits_end 3 (pad 3 f) "") by (now left).
  unfold parse_time, srt_time.
  change (String.eqb "srt" "srt" || String.eqb "srt" "vtt") with true.
  cbv iota. rewrite <- (string_app_nil (pad 3 f)) at 1.
  change ("," ++ (pad 3 f ++ ""))%string
    with (String ","%char (pad 3 f ++ "")).
  rewrite (time_pattern_match _ _ _ _ _ _ Dh Dm Ds (or_introl eq_refl)
             Df Hend).
  now rewrite Ih, Im, Is, If.
Qed.

Lemma parse_time_vtt_time (h m s f : Z) :
  fields_ok h m s f ->
  parse_time (vtt_time h m s f) "vtt" = hms_seconds h m s f.
Proof.
  intros (Hh & Hm & Hs & Hf).
  destruct (pad_2_spec h Hh) as (Dh & _ & Ih).
  destruct (pad_2_spec m Hm) as (Dm & _ & Im).
  destruct (pad_2_spec s Hs) as (Ds & _ & Is).
  destruct (pad_3_spec f Hf) as (Df & Lf & If).
  assert (Hend : digits_end 3 (pad 3 f) "") by (now left).
  unfold parse_time, vtt_time.
  change (String.eqb "vtt" "srt" || String.eqb "vtt" "vtt") with true.
  cbv iota. rewrite <- (string_app_nil (pad 3 f)) at 1.
  change ("." ++ (pad 3 f ++ ""))%string
    with (String "."%char (pad 3 f ++ "")).
  rewrite (time_pattern_match _ _ _ _ _ _ Dh Dm Ds (or_intror eq_refl)
             Df Hend).
  now rewrite Ih, Im, Is, If.
Qed.

Lemma parse_time_lrc_tag (m s cs : Z) :
  two_digits m -> two_digits s -> two_digits cs ->
  parse_time (lrc_tag m s cs) "lrc" = lrc_seconds m s cs.
Proof.
  intros Hm Hs Hcs.
  destruct (pad_2_spec m Hm) as (Dm & _ & Im).
  destruct (pad_2_spec s Hs) as (Ds & _ & Is).
  destruct (pad_2_spec cs Hcs) as (Dcs & _ & Ics).
  unfold parse_time, lrc_tag.
  change (String.eqb "lrc" "srt" || String.eqb "lrc" "vtt") with false.
  change (String.eqb "lrc" "lrc") with true. cbv iota.
  change ("]"%string) with ("]" ++ "")%string.
  rewrite (lrc_pattern_match _ _ _ "" Dm Ds Dcs).
  now rewrite Im, Is, Ics.
Qed.

(** X1.  [parse_time] reads back the fields [format_time] writes: on the
    text of a time whose fields fit their widths it returns exactly
    [h * 3600 + m * 60 + s + f / 1000] (srt and vtt) or
    [m * 60 + s + f / 100] (lrc). *)
Theorem parse_time_reads_written_fields (h m s f : Z) :
  two_digits h -> two_digits m -> two_digits s -> three_digits f ->
  parse_time (srt_time h m s f) "srt" = hms_seconds h m s f
  /\ parse_time (vtt_time h m s f) "vtt" = hms_seconds h m s f
  /\ (two_digits f -> parse_time (lrc_tag m s f) "lrc" = lrc_seconds m s f).
Proof.
  intros Hh Hm Hs Hf.
  assert (Hok : fields_ok h m s f) by (unfold fields_ok; auto).
  split; [|split].
  - now apply parse_time_srt_time.
  - now apply parse_time_vtt_time.
  - intros Hf2. now apply parse_time_lrc_tag.
Qed.

(** The fields of 01:02:03 and 45 (hundredths or thousandths). *)
Lemma parse_time_reads_written_fields_witness :
  parse_time "01:02:03,045" "srt" = hms_seconds 1 2 3 45
  /\ parse_time "01:02:03.045" "vtt" = hms_seconds 1 2 3 45
  /\ parse_time "[02:03.45]" "lrc" = lrc_seconds 2 3 45.
Proof.
  assert (H2 : forall n, (0 <= n <= 99)%Z -> two_digits n)
    by (intros n Hn; exact Hn).
  assert (H3 : three_digits 45) by (unfold three_digits; lia).
  destruct (parse_time_reads_written_fields 1 2 3 45
              (H2 1%Z ltac:(lia)) (H2 2%Z ltac:(lia)) (H2 3%Z ltac:(lia)) H3)
    as (Hsrt & Hvtt & Hlrc).
  split; [exact Hsrt|]. split; [exact Hvtt|].
  exact (Hlrc (H2 45%Z ltac:(lia))).
Defined.

(** ** The parsers on well-formed documents *)

Lemma nth_error_at {A : Type} (pre : list A) (x : A) (l : list A) :
  nth_error (pre ++ x :: l) (List.length pre) = Some x.
Proof.
  rewrite nth_error_app2 by lia. now rewrite Nat.sub_diag.
Qed.

Lemma nth_error_after {A : Type} (pre : list A) (x y : A) (l : list A) :
  nth_error (pre ++ x :: y :: l) (List.length pre + 1) = Some y.
Proof.
  rewrite nth_error_app2 by lia.
  replace (List.length pre + 1 - List.length pre)%nat with 1%nat by lia.
  reflexivity.
Qed.

Lemma skipn_at {A : Type} (pre l : list A) :
  skipn (List.length pre) (pre ++ l) = l.
Proof. induction pre as [|x pre IH]; simpl; auto. Qed.

Lemma text_run_last (texts : list string) :
  Forall not_blank texts ->
  text_run texts = (map strip texts, List.length texts).
Proof.
  induction 1 as [|l texts Hl _ IH]; simpl; [reflexivity|].
  unfold not_blank in Hl. now rewrite Hl, IH.
Qed.

Lemma text_run_block (texts : list string) (sep : string)
  (rest : list string) :
  Forall not_blank texts -> is_empty (strip sep) = true ->
  text_run (texts ++ sep :: rest) = (map strip texts, List.length texts).
Proof.
  intros Ht Hsep. induction Ht as [|l texts Hl _ IH]; simpl.
  - now rewrite Hsep.
  - unfold not_blank in Hl. now rewrite Hl, IH.
Qed.

Lemma time_range_split (format time_line : string) (start end_ : float) :
  time_range format time_line = Some (start, end_) ->
  exists t0 t1,
    split " --> " (strip time_line) = [t0; t1]
    /\ start = parse_time (strip t0) format
    /\ end_ = parse_time (strip t1) format.
Proof.
  unfold time_range.
  destruct (split " --> " (strip time_line)) as [|t0 [|t1 [|t2 ts]]];
    try discriminate.
  intros H. injection H as <- <-. eauto.
Qed.

Lemma srt_loop_past (lines : list string) (fuel i : nat)
  (subtitles : list cue) :
  (List.length lines <= i)%nat ->
  srt_loop fuel lines i subtitles = Ok subtitles.
Proof.
  intros Hi. assert (H : nth_error lines i = None)
    by (now apply nth_error_None).
  destruct fuel; simpl; [reflexivity | now rewrite H].
Qed.

Lemma vtt_loop_past (lines : list string) (fuel i : nat)
  (subtitles : list cue) :
  (List.length lines <= i)%nat ->
  vtt_loop fuel lines i subtitles = subtitles.
Proof.
  intros Hi. assert (H : nth_error lines i = None)
    by (now apply nth_error_None).
  destruct fuel; simpl; [reflexivity | now rewrite H].
Qed.

Lemma srt_loop_document (lines : list string) (cues : list cue) :
  srt_document lines cues ->
  forall pre subtitles fuel,
    (List.length lines <= fuel)%nat ->
    srt_loop fuel (pre ++ lines) (List.length pre) subtitles
    = Ok (subtitles ++ cues)%list.
Proof.
  induction 1 as [|l rest cues Hl _ IH
                  |index time_line texts start end_ Hidx Htime Htexts
                  |index time_line texts sep rest start end_ cues
                     Hidx Htime Htexts Hsep _ IH];
    intros pre subs fuel Hfuel.
  - rewrite srt_loop_past, app_nil_r by (rewrite app_nil_r; lia).
    reflexivity.
  - destruct fuel as [|fuel]; [simpl in Hfuel; lia|].
    cbn [srt_loop]. rewrite nth_error_at, Hl.
    replace (pre ++ l :: rest)%list with ((pre ++ [l]) ++ rest)%list
      by (now rewrite <- app_assoc).
    replace (List.length pre + 1)%nat with (List.length (pre ++ [l]))
      by (rewrite length_app; reflexivity).
    apply IH. simpl in Hfuel. lia.
  - destruct fuel as [|fuel]; [simpl in Hfuel; lia|].
    apply time_range_split in Htime as (t0 & t1 & Hsplit & -> & ->).
    cbn [srt_loop]. rewrite nth_error_at, Hidx, nth_error_after, Hsplit.
    unfold take_text.
    replace (List.length pre + 1 + 1)%nat
      with (List.length (pre ++ [index; time_line]))
      by (rewrite length_app; simpl; lia).
    replace (pre ++ index :: time_line :: texts)%list
      with ((pre ++ [index; time_line]) ++ texts)%list
      by (now rewrite <- app_assoc).
    rewrite skipn_at, (text_run_last texts Htexts).
    apply srt_loop_past. rewrite !length_app. simpl. lia.
  - destruct fuel as [|fuel]; [simpl in Hfuel; lia|].
    apply time_range_split in Htime as (t0 & t1 & Hsplit & -> & ->).
    cbn [srt_loop]. rewrite nth_error_at, Hidx, nth_error_after, Hsplit.
    unfold take_text.
    replace (List.length pre + 1 + 1)%nat
      with (List.length (pre ++ [index; time_line]))
      by (rewrite length_app; simpl; lia).
    replace (pre ++ index :: time_line :: texts ++ sep :: rest)%list
      with ((pre ++ [index; time_line]) ++ texts ++ sep :: rest)%list
      by (now rewrite <- app_assoc).
    rewrite skipn_at, (text_run_block texts sep rest Htexts Hsep).
    replace ((pre ++ [index; time_line]) ++ texts ++ sep :: rest)%list
      with ((pre ++ [index; time_line] ++ texts ++ [sep]) ++ rest)%list
      by (now rewrite <- !app_assoc).
    replace (List.length (pre ++ [index; time_line]) + List.length texts + 1)%nat
      with (List.length (pre ++ [index; time_line] ++ texts ++ [sep]))
      by (rewrite !length_app; simpl; lia).
    rewrite IH by (simpl in Hfuel; rewrite length_app in Hfuel;
                   simpl in Hfuel; lia).
    now rewrite <- app_assoc.
Qed.

Lemma vtt_loop_document (lines : list string) (cues : list cue) :
  vtt_document_lines lines cues ->
  forall pre subtitles fuel,
    (List.length lines <= fuel)%nat ->
    vtt_loop fuel (pre ++ lines) (List.length pre) subtitles
    = (subtitles ++ cues)%list.
Proof.
  induction 1 as [|l rest cues Hl _ IH
                  |time_line texts start end_ Harrow Htime Htexts
                  |time_line texts sep rest start end_ cues
                     Harrow Htime Htexts Hsep _ IH];
    intros pre subs fuel Hfuel.
  - rewrite vtt_loop_past, app_nil_r by (rewrite app_nil_r; lia).
    reflexivity.
  - destruct fuel as [|fuel]; [simpl in Hfuel; lia|].
    cbn [vtt_loop]. rewrite nth_error_at, Hl.
    replace (pre ++ l :: rest)%list with ((pre ++ [l]) ++ rest)%list
      by (now rewrite <- app_assoc).
    replace (List.length pre + 1)%nat with (List.length (pre ++ [l]))
      by (rewrite length_app; reflexivity).
    apply IH. simpl in Hfuel. lia.
  - destruct fuel as [|fuel]; [simpl in Hfuel; lia|].
    apply time_range_split in Htime as (t0 & t1 & Hsplit & -> & ->).
    cbn [vtt_loop]. rewrite nth_error_at, Harrow, Hsplit.
    unfold take_text.
    replace (List.length pre + 1)%nat
      with (List.length (pre ++ [time_line]))
      by (rewrite length_app; simpl; lia).
    replace (pre ++ time_line :: texts)%list
      with ((pre ++ [time_line]) ++ texts)%list
      by (now rewrite <- app_assoc).
    rewrite skipn_at, (text_run_last texts Htexts).
    apply vtt_loop_past. rewrite !length_app. simpl. lia.
  - destruct fuel as [|fuel]; [simpl in Hfuel; lia|].
    apply time_range_split in Htime as (t0 & t1 & Hsplit & -> & ->).
    cbn [vtt_loop]. rewrite nth_error_at, Harrow, Hsplit.
    unfold take_text.
    replace (List.length pre + 1)%nat
      with (List.length (pre ++ [time_line]))
      by (rewrite length_app; simpl; lia).
    replace (pre ++ time_line :: texts ++ sep :: rest)%list
      with ((pre ++ [time_line]) ++ texts ++ sep :: rest)%list
      by (now rewrite <- app_assoc).
    rewrite skipn_at, (text_run_block texts sep rest Htexts Hsep).
    replace ((pre ++ [time_line]) ++ texts ++ sep :: rest)%list
      with ((pre ++ [time_line] ++ texts ++ [sep]) ++ rest)%list
      by (now rewrite <- !app_assoc).
    replace (List.length (pre ++ [time_line]) + List.length texts + 1)%nat
      with (List.length (pre ++ [time_line] ++ texts ++ [sep]))
      by (rewrite !length_app; simpl; lia).
    rewrite IH by (simpl in Hfuel; rewrite length_app in Hfuel;
                   simpl in Hfuel; lia).
    now rewrite <- app_assoc.
Qed.

(** X2.  [parse_srt] reads a well-formed SRT document as its cues, in
    order: for each block the two times of the time line and the text
    lines, stripped and joined by newlines. *)
Theorem parse_srt_well_formed (lines : list string) (cues : list cue) :
  srt_document lines cues -> parse_srt lines = Ok ("srt"%string, cues).
Proof.
  intros H. unfold parse_srt.
  pose proof (srt_loop_document lines cues H [] [] _ (le_n _)) as Hloop.
  cbn [app List.length] in Hloop. now rewrite Hloop.
Qed.

(** Two blocks, the first with two text lines, a line of spaces between
    them. *)
Lemma parse_srt_well_formed_witness :
  parse_srt ["1"; "00:00:01,000 --> 00:00:03,000"; "Hello"; " world ";
             "   "; "2"; "00:00:04,500 --> 00:00:06,000"; "Second line"]%string
  = Ok ("srt"%string,
        [(PyFloat.of_Z 1, PyFloat.of_Z 3, text_of ["Hello"; " world "]%string);
         (PyFloat.of_Z 9 / PyFloat.of_Z 2, PyFloat.of_Z 6,
          text_of ["Second line"%string])]).
Proof.
  apply parse_srt_well_formed.
  apply (srt_block "1" "00:00:01,000 --> 00:00:03,000"
           ["Hello"; " world "]%string "   "
           ["2"; "00:00:04,500 --> 00:00:06,000"; "Second line"]%string).
  - reflexivity.
  - vm_compute. reflexivity.
  - repeat constructor.
  - reflexivity.
  - apply (srt_last "2" "00:00:04,500 --> 00:00:06,000"
             ["Second line"%string]).
    + reflexivity.
    + vm_compute. reflexivity.
    + repeat constructor.
Defined.

(** X3.  [parse_vtt] reads a well-formed VTT document as its cues, in
    order; the header and every other line without an arrow outside the
    blocks is passed over. *)
Theorem parse_vtt_well_formed (lines : list string) (cues : list cue) :
  vtt_document_lines lines cues -> parse_vtt lines = Ok ("vtt"%string, cues).
Proof.
  intros H. unfold parse_vtt.
  pose proof (vtt_loop_document lines cues H [] [] _ (le_n _)) as Hloop.
  cbn [app List.length] in Hloop. now rewrite Hloop.
Qed.

(** The header, a cue identifier, and two blocks. *)
Lemma parse_vtt_well_formed_witness :
  parse_vtt ["WEBVTT"; ""; "intro"; "00:00:01.000 --> 00:00:03.000";
             "Hello world"; ""; "00:00:04.500 --> 00:00:06.000";
             "Second line"]%string
  = Ok ("vtt"%string,
        [(PyFloat.of_Z 1, PyFloat.of_Z 3, text_of ["Hello world"%string]);
         (PyFloat.of_Z 9 / PyFloat.of_Z 2, PyFloat.of_Z 6,
          text_of ["Second line"%string])]).
Proof.
  apply parse_vtt_well_formed.
  apply vtt_skip; [reflexivity|].
  apply vtt_skip; [reflexivity|].
  apply vtt_skip; [reflexivity|].
  apply (vtt_block "00:00:01.000 --> 00:00:03.000" ["Hello world"%string] ""
           ["00:00:04.500 --> 00:00:06.000"; "Second line"]%string).
  - reflexivity.
  - vm_compute. reflexivity.
  - repeat constructor.
  - reflexivity.
  - apply (vtt_last "00:00:04.500 --> 00:00:06.000" ["Second line"%string]).
    + reflexivity.
    + vm_compute. reflexivity.
    + repeat constructor.
Defined.

(** ** The SRT and LRC serializers *)

Lemma format_time_srt (t : float) (time_str : string) :
  format_time t "srt" = Ok time_str ->
  exists h m s ms, time_str = srt_time h m s ms.
Proof.
  unfold format_time.
  change (String.eqb "srt" "srt") with true. cbv iota.
  destruct (hms_fields t) as [[[h m] s]|e]; [|discriminate].
  unfold bind. destruct (fraction_field t 1000) as [ms|e]; [|discriminate].
  intros H. injection H as <-. exists h, m, s, ms. reflexivity.
Qed.

Lemma format_time_srt_raises (t : float) (e : exn) :
  format_time t "srt" = Raise e -> int_error e.
Proof.
  unfold format_time.
  change (String.eqb "srt" "srt") with true. cbv iota.
  destruct (hms_fields t) as [[[h m] s]|e'] eqn:Hf.
  - unfold bind.
    destruct (fraction_field t 1000) as [ms|e'] eqn:Hms; [discriminate|].
    intros H. injection H as <-. eapply fraction_field_raises. eassumption.
  - unfold bind. intros H. injection H as <-.
    eapply hms_fields_raises. eassumption.
Qed.

Lemma format_time_lrc_cases (t : float) :
  (exists m s cs, format_time t "lrc" = Ok (lrc_tag m s cs))
  \/ exists e, format_time t "lrc" = Raise e /\ int_error e.
Proof.
  unfold format_time.
  change (String.eqb "lrc" "srt") with false.
  change (String.eqb "lrc" "vtt") with false.
  change (String.eqb "lrc" "lrc") with true. cbv iota. unfold bind.
  destruct (floor_div_returns t 60 divisor_60) as [q ->].
  destruct (PyFloat.to_int q) as [m|e1] eqn:Hm;
    [|right; eexists; split; [reflexivity | eapply to_int_raises; eassumption]].
  destruct (rem_returns t 60 divisor_60) as [r ->].
  destruct (PyFloat.to_int r) as [s|e2] eqn:Hs;
    [|right; eexists; split; [reflexivity | eapply to_int_raises; eassumption]].
  destruct (fraction_field t 100) as [cs|e3] eqn:Hcs;
    [|right; eexists; split;
      [reflexivity | eapply fraction_field_raises; eassumption]].
  left. exists m, s, cs. reflexivity.
Qed.

Lemma srt_blocks_spec (subtitles : list cue) :
  forall i blocks,
    srt_blocks i subtitles = Ok blocks <-> numbered_from i subtitles blocks.
Proof.
  induction subtitles as [|[[start end_] text] later IH];
    intros i blocks; simpl.
  - split.
    + intros H. injection H as <-. exact I.
    + destruct blocks; [reflexivity | contradiction].
  - split.
    + destruct (format_time start "srt") as [s1|e] eqn:H1; [|discriminate].
      destruct (format_time end_ "srt") as [s2|e] eqn:H2; [|discriminate].
      destruct (srt_blocks (i + 1) later) as [bs|e] eqn:H3; [|discriminate].
      simpl. intros H. injection H as <-.
      split; [|now apply IH].
      destruct (format_time_srt _ _ H1) as (h & m & s & ms & ->).
      destruct (format_time_srt _ _ H2) as (h' & m' & s' & ms' & ->).
      exists h, m, s, ms, h', m', s', ms'. auto.
    + destruct blocks as [|b bs]; [contradiction|].
      intros [(h & m & s & ms & h' & m' & s' & ms' & H1 & H2 & ->) Hl].
      unfold cue_start, cue_end, cue_text in H1, H2. simpl in H1, H2.
      rewrite H1, H2. simpl. apply IH in Hl. rewrite Hl. reflexivity.
Qed.

Lemma srt_blocks_raises (subtitles : list cue) (e : exn) :
  forall i, srt_blocks i subtitles = Raise e -> int_error e.
Proof.
  induction subtitles as [|[[start end_] text] later IH]; intros i; simpl;
    [discriminate|].
  destruct (format_time start "srt") as [s1|e1] eqn:H1;
    [|intros H; injection H as <-; eapply format_time_srt_raises; eassumption].
  destruct (format_time end_ "srt") as [s2|e2] eqn:H2;
    [|intros H; injection H as <-; eapply format_time_srt_raises; eassumption].
  destruct (srt_blocks (i + 1) later) as [bs|e3] eqn:H3; [discriminate|].
  simpl. intros H. injection H as <-. eapply IH. eassumption.
Qed.

Lemma join_blocks_text (blocks : list string) :
  join newline blocks = blocks_text blocks.
Proof. destruct blocks as [|b later]; [reflexivity | apply join_blocks]. Qed.

(** X4.  [to_srt] returns a document exactly when [format_time] can write
    every start and end; the document is then the blocks of the cues in
    order, numbered 1, 2, 3, ..., a blank line between two blocks, and the
    empty text for no cue.  It raises nothing but the error of [int] on a
    time that is a NaN or infinite. *)
Theorem to_srt_layout :
  (forall subtitles doc,
      to_srt subtitles = Ok doc
      <-> exists blocks,
          numbered_from 1 subtitles blocks /\ doc = blocks_text blocks)
  /\ (forall subtitles e, to_srt subtitles = Raise e -> int_error e).
Proof.
  split.
  - intros subtitles doc. unfold to_srt, bind. split.
    + destruct (srt_blocks 1 subtitles) as [blocks|e] eqn:Hb; [|discriminate].
      rewrite join_blocks_text. intros H. exists blocks.
      split; [now apply srt_blocks_spec | congruence].
    + intros (blocks & Hb & ->). apply srt_blocks_spec in Hb.
      now rewrite Hb, join_blocks_text.
  - intros subtitles e. unfold to_srt, bind.
    destruct (srt_blocks 1 subtitles) as [blocks|e'] eqn:Hb; [discriminate|].
    intros H. injection H as <-. eapply srt_blocks_raises. eassumption.
Qed.

(** Two cues, and a cue whose end is infinite. *)
Lemma to_srt_layout_witness :
  (exists blocks,
      numbered_from 1
        [(PyFloat.of_Z 1, PyFloat.of_Z 5, "Line A"%string);
         (PyFloat.of_Z 5, PyFloat.of_Z 10, "Line B"%string)] blocks
      /\ lines_of ["1"; "00:00:01,000 --> 00:00:05,000"; "Line A"; "";
                   "2"; "00:00:05,000 --> 00:00:10,000"; "Line B"; ""]
         = blocks_text blocks)
  /\ int_error (ValueError "cannot convert float NaN to integer").
Proof.
  assert (H1 : to_srt [(PyFloat.of_Z 1, PyFloat.of_Z 5, "Line A"%string);
                       (PyFloat.of_Z 5, PyFloat.of_Z 10, "Line B"%string)]
               = Ok (lines_of ["1"; "00:00:01,000 --> 00:00:05,000"; "Line A";
                               ""; "2"; "00:00:05,000 --> 00:00:10,000";
                               "Line B"; ""]))
    by (vm_compute; reflexivity).
  assert (H2 : to_srt [(PyFloat.of_Z 1, infinity, "Line A"%string)]
               = Raise (ValueError "cannot convert float NaN to integer"))
    by (vm_compute; reflexivity).
  split.
  - exact (proj1 (proj1 to_srt_layout _ _) H1).
  - exact (proj2 to_srt_layout _ _ H2).
Defined.

Lemma lrc_blocks_spec (subtitles : list cue) (lines : list string) :
  lrc_blocks subtitles = Ok lines <-> Forall2 lrc_line_of subtitles lines.
Proof.
  revert lines. induction subtitles as [|[[start end_] text] later IH];
    intros lines; simpl.
  - split.
    + intros H. injection H as <-. constructor.
    + intros H. inversion H. reflexivity.
  - split.
    + destruct (format_time_lrc_cases start)
        as [(m & s & cs & H1) | (e & H1 & _)]; rewrite H1; [|discriminate].
      simpl. destruct (lrc_blocks later) as [ls|e] eqn:H2; [|discriminate].
      simpl. intros H. injection H as <-.
      constructor; [|now apply IH]. exists m, s, cs. auto.
    + intros H. inversion H as [|c l cs' ls (m & s & cs & H1 & ->) Hl]; subst.
      unfold cue_start, cue_text in H1. simpl in H1. rewrite H1. simpl.
      apply IH in Hl. rewrite Hl. reflexivity.
Qed.

Lemma lrc_blocks_raises (subtitles : list cue) (e : exn) :
  lrc_blocks subtitles = Raise e -> int_error e.
Proof.
  induction subtitles as [|[[start end_] text] later IH]; simpl;
    [discriminate|].
  destruct (format_time_lrc_cases start)
    as [(m & s & cs & H1) | (e' & H1 & He')]; rewrite H1; simpl.
  - destruct (lrc_blocks later) as [ls|e''] eqn:H2; [discriminate|].
    simpl. intros H. injection H as <-. now apply IH.
  - intros H. injection H as <-. exact He'.
Qed.

Lemma lrc_blocks_ends (subtitles subtitles' : list cue) :
  map cue_start subtitles = map cue_start subtitles' ->
  map cue_text subtitles = map cue_text subtitles' ->
  lrc_blocks subtitles = lrc_blocks subtitles'.
Proof.
  revert subtitles'.
  induction subtitles as [|[[start end_] text] later IH];
    intros [|[[start' end_'] text'] later']; simpl; intros Hs Ht;
    try discriminate; [reflexivity|].
  unfold cue_start, cue_text in Hs, Ht. simpl in Hs, Ht.
  injection Hs as -> Hs. injection Ht as -> Ht.
  now rewrite (IH later' Hs Ht).
Qed.

(** X5.  [to_lrc] writes one line per cue, the tag of the start followed
    by the text, and looks at no end: two cue lists with the same starts
    and texts give the same result, whatever their ends; and it raises
    nothing but the error of [int] on a start that is a NaN or
    infinite. *)
Theorem to_lrc_layout :
  (forall subtitles doc,
      to_lrc subtitles = Ok doc
      <-> exists lines,
          Forall2 lrc_line_of subtitles lines /\ doc = join newline lines)
  /\ (forall subtitles subtitles',
         map cue_start subtitles = map cue_start subtitles' ->
         map cue_text subtitles = map cue_text subtitles' ->
         to_lrc subtitles = to_lrc subtitles')
  /\ (forall subtitles e, to_lrc subtitles = Raise e -> int_error e).
Proof.
  split; [|split].
  - intros subtitles doc. unfold to_lrc, bind. split.
    + destruct (lrc_blocks subtitles) as [lines|e] eqn:Hb; [|discriminate].
      intros H. exists lines. split; [now apply lrc_blocks_spec | congruence].
    + intros (lines & Hb & ->). apply lrc_blocks_spec in Hb. now rewrite Hb.
  - intros subtitles subtitles' Hs Ht. unfold to_lrc.
    now rewrite (lrc_blocks_ends subtitles subtitles' Hs Ht).
  - intros subtitles e. unfold to_lrc, bind.
    destruct (lrc_blocks subtitles) as [lines|e'] eqn:Hb; [discriminate|].
    intros H. injection H as <-. eapply lrc_blocks_raises. eassumption.
Qed.

(** A cue with a NaN for its end is written like the cue of the same
    start and text; a cue with a NaN for its start is not written. *)
Lemma to_lrc_layout_witness :
  to_lrc [(PyFloat.of_Z 1, nan, "Line A"%string)]
  = to_lrc [(PyFloat.of_Z 1, PyFloat.of_Z 5, "Line A"%string)]
  /\ (exists lines,
         Forall2 lrc_line_of [(PyFloat.of_Z 1, nan, "Line A"%string)] lines
         /\ "[00:01.00]Line A"%string = join newline lines)
  /\ int_error (ValueError "cannot convert float NaN to integer").
Proof.
  assert (H1 : to_lrc [(PyFloat.of_Z 1, nan, "Line A"%string)]
               = Ok "[00:01.00]Line A"%string)
    by (vm_compute; reflexivity).
  assert (H2 : to_lrc [(nan, PyFloat.of_Z 5, "Line A"%string)]
               = Raise (ValueError "cannot convert float NaN to integer"))
    by (vm_compute; reflexivity).
  split; [|split].
  - exact (proj1 (proj2 to_lrc_layout) _ _ eq_refl eq_refl).
  - exact (proj1 (proj1 to_lrc_layout _ _) H1).
  - exact (proj2 (proj2 to_lrc_layout) _ _ H2).
Defined.

(** ** The cues of an LRC file and its tags *)

Lemma dict_set_keys_in (d : dict) (k : float) (v : string) (k0 : float) :
  In k0 (dict_keys (dict_set d k v)) -> In k0 (dict_keys d) \/ k0 = k.
Proof.
  destruct (dict_keys_set d k v) as [-> | [-> _]]; [now left|].
  intros H. apply in_app_or in H as [H | [<- | []]]; auto.
Qed.

Lemma lrc_line_keys (d : dict) (line : string) (k : float) :
  In k (dict_keys (lrc_line d line)) ->
  In k (dict_keys d) \/ In k (line_times line).
Proof.
  unfold lrc_line, line_times.
  destruct (is_empty (strip line)); [now left|].
  destruct (Re.findall lrc_time_pattern (strip line)) as [|tag tags];
    [now left|].
  set (text := strip (Re.remove lrc_time_pattern (strip line))).
  clearbody text. revert d. generalize (tag :: tags) as l. clear tag tags.
  induction l as [|tag l IH]; intros d; simpl; [now left|].
  intros H. apply IH in H as [H | H]; [|now auto].
  apply dict_set_keys_in in H as [H | ->]; auto.
Qed.

Lemma lrc_lines_keys (lines : list string) :
  forall d k,
    In k (dict_keys (fold_left lrc_line lines d)) ->
    In k (dict_keys d)
    \/ exists line, In line lines /\ In k (line_times line).
Proof.
  induction lines as [|l lines IH]; intros d k; simpl; [now left|].
  intros H. apply IH in H as [H | (line & Hl & Hk)].
  - apply lrc_line_keys in H as [H | H]; [now left|].
    right. exists l. auto.
  - right. exists line. auto.
Qed.

Lemma lrc_lines_text (lines : list string) :
  forall d k v,
    dict_get (fold_left lrc_line lines d) k = Ok v ->
    dict_get d k = Ok v
    \/ exists line t,
        In line lines /\ In t (line_times line) /\ (t =? k) = true
        /\ v = line_text line.
Proof.
  induction lines as [|l lines IH]; intros d k v; simpl; [now left|].
  intros H. apply IH in H as [H | (line & t & Hl & Ht & Hk & ->)].
  - rewrite lrc_line_get in H.
    destruct (existsb (fun t => t =? k) (line_times l)) eqn:He; [|now left].
    apply existsb_exists in He as (t & Hin & Ht).
    right. exists l, t. repeat split; auto. congruence.
  - right. exists line, t. auto.
Qed.

Lemma lrc_lines_keep (lines : list string) :
  forall d k,
    (exists v, dict_get d k = Ok v) ->
    exists v, dict_get (fold_left lrc_line lines d) k = Ok v.
Proof.
  induction lines as [|l lines IH]; intros d k Hd; simpl; [assumption|].
  apply IH. rewrite lrc_line_get.
  destruct (existsb (fun t => t =? k) (line_times l)); eauto.
Qed.

Lemma lrc_lines_cover (lines : list string) (line : string) (t : float) :
  In line lines -> In t (line_times line) ->
  forall d, exists v, dict_get (fold_left lrc_line lines d) t = Ok v.
Proof.
  intros Hl Ht d. apply in_split in Hl as (l1 & l2 & ->).
  rewrite fold_left_app. simpl. apply lrc_lines_keep.
  rewrite lrc_line_get.
  assert (He : existsb (fun t' => t' =? t) (line_times line) = true).
  { apply existsb_exists. exists t. split; [assumption|].
    apply time_ok_number. eapply line_times_ok. eassumption. }
  rewrite He. eauto.
Qed.

Lemma lrc_lines_last (lines : list string) :
  forall d k v,
    dict_get (fold_left lrc_line lines d) k = Ok v ->
    (dict_get d k = Ok v
     /\ forall l t, In l lines -> In t (line_times l) -> (t =? k) = false)
    \/ exists before line after t,
        lines = (before ++ line :: after)%list
        /\ In t (line_times line) /\ (t =? k) = true
        /\ (forall l t', In l after -> In t' (line_times l) ->
                         (t' =? k) = false)
        /\ v = line_text line.
Proof.
  induction lines as [|l rest IH]; intros d k v; simpl.
  - intros H. left. split; [assumption|]. intros l t [].
  - intros H.
    apply IH in H as [[Hd Hno] | (before & line & after & t & -> & H)].
    + rewrite lrc_line_get in Hd.
      destruct (existsb (fun t => t =? k) (line_times l)) eqn:He.
      * apply existsb_exists in He as (t & Hin & Ht).
        right. exists [], l, rest, t. simpl.
        repeat split; auto. congruence.
      * left. split; [assumption|]. intros l' t' [<- | Hl'] Ht'.
        -- destruct (t' =? k) eqn:E; [|reflexivity].
           assert (Ht : existsb (fun t => t =? k) (line_times l) = true)
             by (apply existsb_exists; eauto).
           congruence.
        -- eapply Hno; eassumption.
    + right. exists (l :: before), line, after, t. simpl. auto.
Qed.

(** C7.  On every input [parse_lrc] returns the cues of the tags of its
    lines, one for every time a tag names, in strictly ascending order of
    start, each cue ending where the next one starts and the last one
    5 seconds after its start: every cue starts at the time of a tag and
    carries the text of the last line with a tag for that time, and every
    tag of every line has a cue that starts at its time.  The two-line
    example gives the cues (1.0, 5.0, "Line A") and (5.0, 10.0, "Line B"),
    which [to_srt] writes as cue 1 and cue 2. *)
Theorem parse_lrc_sorted_and_chained :
  (forall lines,
      exists subtitles,
        parse_lrc lines = Ok ("lrc"%string, subtitles)
        /\ StronglySorted flt (map cue_start subtitles)
        /\ chained subtitles
        /\ (forall c, In c subtitles -> cue_of_tags lines c)
        /\ (forall line t, In line lines -> In t (line_times line) ->
              exists c, In c subtitles /\ (cue_start c =? t) = true))
  /\ let example :=
       File ".lrc" (lines_of ["[00:01.00]Line A"; "[00:05.00]Line B"]%string) in
     read_file example
     = Ok ("lrc"%string,
           [(PyFloat.of_Z 1, PyFloat.of_Z 5, "Line A"%string);
            (PyFloat.of_Z 5, PyFloat.of_Z 10, "Line B"%string)])
     /\ convert example "srt"
        = Ok (lines_of ["1"; "00:00:01,000 --> 00:00:05,000"; "Line A"; "";
                        "2"; "00:00:05,000 --> 00:00:10,000"; "Line B"; ""]%string).
Proof.
  split.
  - intros lines.
    destruct (parse_lrc_spec lines)
      as (subs & Hp & Hs & Hch & _ & Htxt & Hkeys).
    set (d := fold_left lrc_line lines []) in *.
    exists subs. split; [assumption|]. split; [assumption|].
    split; [assumption|]. split.
    + intros c Hc. split.
      * assert (Hk : In (cue_start c) (dict_keys d))
          by (apply Hkeys; now apply in_map).
        apply lrc_lines_keys in Hk as [[] | Hk]. exact Hk.
      * rewrite Forall_forall in Htxt. specialize (Htxt c Hc).
        apply lrc_lines_last in Htxt as [[Htxt _] | Htxt];
          [discriminate | exact Htxt].
    + intros line t Hl Ht.
      destruct (lrc_lines_cover lines line t Hl Ht []) as (v & Hv).
      destruct (dict_get_key _ _ _ Hv) as (k' & Hin & Heq).
      apply Hkeys in Hin. apply in_map_iff in Hin as (c & <- & Hc). eauto.
  - cbv zeta. split; vm_compute; reflexivity.
Qed.

(** X6.  The cues of [parse_lrc] are the tags of the file: every cue
    starts at the time of a tag of some line and carries the text of a
    line with a tag for that time; every tag of every line has a cue
    starting at its time; and there is no cue exactly when no line has a
    tag. *)
Theorem parse_lrc_cues_are_the_tags (lines : list string) :
  exists subtitles,
    parse_lrc lines = Ok ("lrc"%string, subtitles)
    /\ (forall c, In c subtitles ->
          (exists line, In line lines /\ In (cue_start c) (line_times line))
          /\ exists line t,
               In line lines /\ In t (line_times line)
               /\ (t =? cue_start c) = true /\ cue_text c = line_text line)
    /\ (forall line t, In line lines -> In t (line_times line) ->
          exists c, In c subtitles /\ (cue_start c =? t) = true)
    /\ (subtitles = [] <-> forall line, In line lines -> line_times line = []).
Proof.
  destruct (parse_lrc_spec lines) as (subs & Hp & _ & _ & _ & Htxt & Hkeys).
  set (d := fold_left lrc_line lines []) in *.
  exists subs. split; [assumption|].
  assert (Hfrom : forall c, In c subs ->
            exists line, In line lines /\ In (cue_start c) (line_times line)).
  { intros c Hc.
    assert (Hk : In (cue_start c) (dict_keys d))
      by (apply Hkeys; now apply in_map).
    apply lrc_lines_keys in Hk as [[] | Hk]. exact Hk. }
  assert (Hto : forall line t, In line lines -> In t (line_times line) ->
            exists c, In c subs /\ (cue_start c =? t) = true).
  { intros line t Hl Ht.
    destruct (lrc_lines_cover lines line t Hl Ht []) as (v & Hv).
    destruct (dict_get_key _ _ _ Hv) as (k' & Hin & Heq).
    apply Hkeys in Hin. apply in_map_iff in Hin as (c & <- & Hc). eauto. }
  split; [|split].
  - intros c Hc. split; [now apply Hfrom|].
    rewrite Forall_forall in Htxt. specialize (Htxt c Hc).
    apply lrc_lines_text in Htxt as [Htxt | Htxt]; [discriminate | exact Htxt].
  - exact Hto.
  - split.
    + intros -> line Hl. destruct (line_times line) as [|t ts] eqn:Ht;
        [reflexivity|].
      destruct (Hto line t Hl) as (c & [] & _). rewrite Ht. now left.
    + intros Hno. destruct subs as [|c subs']; [reflexivity|].
      destruct (Hfrom c (or_introl eq_refl)) as (line & Hl & Hin).
      rewrite (Hno line Hl) in Hin. contradiction.
Qed.

(** ** What [convert] can raise *)

Lemma srt_loop_raises (lines : list string) (e : exn) :
  forall fuel i subtitles,
    srt_loop fuel lines i subtitles = Raise e -> e = IndexError.
Proof.
  induction fuel as [|fuel IH]; intros i subs; simpl; [discriminate|].
  destruct (nth_error lines i) as [line|]; [|discriminate].
  destruct (isdigit (strip line)); [|apply IH].
  destruct (nth_error lines (i + 1)) as [time_line|]; [|congruence].
  destruct (split " --> " (strip time_line)) as [|t0 [|t1 [|t2 ts]]];
    try apply IH.
  destruct (take_text lines (i + 1 + 1)) as [text_lines i']. apply IH.
Qed.

Lemma read_file_raises (f : file) (e : exn) :
  read_file f = Raise e ->
  read_text f = Raise e
  \/ (e = IndexError /\ lower (suffix f) = ".srt"%string)
  \/ (e = ValueError ("Unsupported file format: " ++ suffix f)
      /\ ~ known_suffix (lower (suffix f))).
Proof.
  destruct (read_text f) as [text|e'] eqn:Hread.
  2: { rewrite (read_file_read_error f e' Hread). intros H.
       injection H as <-. now left. }
  rewrite (read_file_text f text Hread). cbv zeta. unfold known_suffix.
  intros H. right. revert H.
  destruct (String.eqb_spec (lower (suffix f)) ".srt") as [Hs | Hs].
  { unfold parse_srt, bind.
    destruct (srt_loop _ _ _ _) as [subs|e'] eqn:Hl; [discriminate|].
    intros H. injection H as <-. left. split; [|assumption].
    eapply srt_loop_raises. eassumption. }
  destruct (String.eqb_spec (lower (suffix f)) ".vtt") as [Hv | Hv].
  { discriminate. }
  destruct (String.eqb_spec (lower (suffix f)) ".lrc") as [Hl | Hl].
  { destruct (parse_lrc_spec (split newline (strip text)))
      as (subs & -> & _). discriminate. }
  intros H. injection H as <-. right. split; [reflexivity|]. tauto.
Qed.

(** X7.  Whatever the file and the output format, [convert] raises at
    most: the error the read of the file raises ([OSError] or
    [UnicodeDecodeError]); [IndexError], and only on an SRT file; the two
    [ValueError]s of an extension and of an output format that are not
    known; the [ValueError] of equal formats; and the error of [int] on a
    time that is a NaN or infinite.  On a file that is read it raises no
    [KeyError] and no [ZeroDivisionError]. *)
Theorem convert_raises (f : file) (output_format : string) (e : exn) :
  convert f output_format = Raise e ->
  read_text f = Raise e
  \/ (e = IndexError /\ lower (suffix f) = ".srt"%string)
  \/ (e = ValueError ("Unsupported file format: " ++ suffix f)
      /\ ~ known_suffix (lower (suffix f)))
  \/ (e = same_format_error
      /\ lower (suffix f) = ("." ++ output_format)%string)
  \/ (e = ValueError ("Unsupported output format: " ++ output_format)
      /\ ~ known_format output_format)
  \/ int_error e.
Proof.
  unfold convert, bind.
  destruct (read_file f) as [[input_format subs]|e'] eqn:Hr.
  - apply read_file_format in Hr as [Hsuf _].
    destruct (String.eqb_spec input_format output_format) as [-> | _].
    { intros H. injection H as <-. do 3 right. left. auto. }
    destruct (String.eqb_spec output_format "srt") as [_ | Hs].
    { unfold to_srt, bind.
      destruct (srt_blocks 1 subs) as [blocks|e'] eqn:Hb; [discriminate|].
      intros H. injection H as <-. do 5 right.
      eapply srt_blocks_raises. eassumption. }
    destruct (String.eqb_spec output_format "vtt") as [_ | Hv].
    { unfold to_vtt, bind.
      destruct (vtt_blocks subs) as [blocks|e'] eqn:Hb; [discriminate|].
      intros H. injection H as <-. do 5 right.
      eapply vtt_blocks_raises. eassumption. }
    destruct (String.eqb_spec output_format "lrc") as [_ | Hl].
    { unfold to_lrc, bind.
      destruct (lrc_blocks subs) as [blocks|e'] eqn:Hb; [discriminate|].
      intros H. injection H as <-. do 5 right.
      eapply lrc_blocks_raises. eassumption. }
    intros H. injection H as <-. do 4 right. left. split; [reflexivity|].
    unfold known_format. tauto.
  - intros H. injection H as <-.
    apply read_file_raises in Hr as [Hr | [Hr | Hr]]; auto.
Qed.

(** An SRT file whose last line is an index line, converted to VTT; and a
    file that does not exist. *)
Lemma convert_raises_witness :
  convert (File ".srt" "1") "vtt" = Raise IndexError
  /\ (read_text (File ".srt" "1") = Raise IndexError
      \/ (IndexError = IndexError /\ lower ".srt" = ".srt"%string)
      \/ (IndexError = ValueError ("Unsupported file format: " ++ ".srt")
          /\ ~ known_suffix (lower ".srt"))
      \/ (IndexError = same_format_error
          /\ lower ".srt" = ("." ++ "vtt")%string)
      \/ (IndexError = ValueError ("Unsupported output format: " ++ "vtt")
          /\ ~ known_format "vtt")
      \/ int_error IndexError)
  /\ convert (Path ".srt" (Raise OSError)) "vtt" = Raise OSError.
Proof.
  assert (H : convert (File ".srt" "1") "vtt" = Raise IndexError)
    by (vm_compute; reflexivity).
  split; [exact H|]. split; [|reflexivity].
  exact (convert_raises (File ".srt" "1") "vtt" IndexError H).
Defined.

(** ** Strings: lines, tokens and white space *)

Lemma string_app_assoc (a b c : string) :
  ((a ++ b) ++ c)%string = (a ++ b ++ c)%string.
Proof. induction a as [|x a IH]; simpl; [reflexivity | now rewrite IH]. Qed.

Lemma all_chars_app (f : ascii -> bool) (a b : string) :
  all_chars f (a ++ b) = all_chars f a && all_chars f b.
Proof.
  induction a as [|x a IH]; simpl; [reflexivity|].
  now rewrite IH, andb_assoc.
Qed.

Lemma all_chars_impl (f g : ascii -> bool) (s : string) :
  (forall c, f c = true -> g c = true) ->
  all_chars f s = true -> all_chars g s = true.
Proof.
  intros Hfg. induction s as [|x s IH]; simpl; [reflexivity|].
  intros H. apply andb_true_iff in H as [Hx Hs].
  now rewrite (Hfg x Hx), IH.
Qed.

Lemma decimal_not_space (c : ascii) :
  is_decimal c = true -> negb (is_space c) = true.
Proof.
  destruct c as [[] [] [] [] [] [] [] []]; vm_compute; congruence.
Qed.

Lemma not_space_not_blank (c : ascii) :
  negb (is_space c) = true -> negb (Ascii.eqb " " c) = true.
Proof.
  destruct (Ascii.eqb_spec " " c) as [<- | _]; [discriminate | reflexivity].
Qed.

Lemma not_space_not_newline (c : ascii) :
  negb (is_space c) = true -> negb (Ascii.eqb newline_char c) = true.
Proof.
  destruct (Ascii.eqb_spec newline_char c) as [<- | _];
    [discriminate | reflexivity].
Qed.

Lemma no_space_no_newline (t : string) :
  no_space t = true -> no_newline t = true.
Proof. apply all_chars_impl, not_space_not_newline. Qed.

Lemma digits_no_space (d : string) :
  all_chars is_decimal d = true -> no_space d = true.
Proof. apply all_chars_impl, decimal_not_space. Qed.

Lemma lstrip_no_space (t rest : string) :
  t <> EmptyString -> no_space t = true ->
  lstrip (t ++ rest) = (t ++ rest)%string.
Proof.
  destruct t as [|c t]; [congruence|]. intros _ H. simpl in *.
  apply andb_true_iff in H as [Hc _]. apply negb_true_iff in Hc.
  now rewrite Hc.
Qed.

Lemma rstrip_no_space (t : string) : no_space t = true -> rstrip t = t.
Proof.
  induction t as [|c t IH]; simpl; [reflexivity|].
  intros H. apply andb_true_iff in H as [Hc Ht]. apply negb_true_iff in Hc.
  now rewrite Hc, IH.
Qed.

Lemma rstrip_app (a b : string) :
  b <> EmptyString -> rstrip b = b -> rstrip (a ++ b) = (a ++ b)%string.
Proof.
  intros Hb Hr. induction a as [|c a IH]; simpl; [assumption|].
  rewrite IH. destruct (a ++ b)%string as [|c' s] eqn:Hs.
  - destruct a; simpl in Hs; congruence.
  - now rewrite andb_false_r.
Qed.

Lemma rstrip_newline (x : string) :
  rstrip x = x -> rstrip (x ++ newline) = x.
Proof.
  induction x as [|c x IH]; simpl; [reflexivity|].
  destruct (is_space c && is_empty (rstrip x)) eqn:Hc; [discriminate|].
  intros H. injection H as H. rewrite (IH H). rewrite H in Hc.
  now rewrite Hc.
Qed.

Lemma strip_no_space (t : string) : no_space t = true -> strip t = t.
Proof.
  intros H. unfold strip. destruct t as [|c t]; [reflexivity|].
  rewrite <- (string_app_nil (String c t)) at 1.
  rewrite lstrip_no_space, string_app_nil by (congruence || assumption).
  now apply rstrip_no_space.
Qed.

Lemma plain_line_strip (l : string) : plain_line l -> strip l = l.
Proof. intros (_ & _ & Hl & Hr). unfold strip. now rewrite Hl. Qed.

Lemma plain_line_not_blank (l : string) : plain_line l -> not_blank l.
Proof.
  intros H. unfold not_blank. rewrite (plain_line_strip l H).
  destruct H as (Hne & _). now destruct l.
Qed.

Lemma plain_lines_text (ls : list string) :
  Forall plain_line ls -> text_of ls = join newline ls.
Proof.
  intros H. unfold text_of. f_equal.
  induction H as [|l ls Hl _ IH]; simpl; [reflexivity|].
  now rewrite (plain_line_strip l Hl), IH.
Qed.

(** *** [split] *)

Lemma rev_app_rev_app (t : string) :
  forall cur s, rev_app (rev_app t cur) s = rev_app cur (t ++ s).
Proof.
  induction t as [|c t IH]; intros cur s; simpl; [reflexivity|].
  now rewrite IH.
Qed.

(** [split] passes over a text that holds no first character of the
    separator. *)
Lemma split_from_pass (c0 : ascii) (sep' t : string) :
  forall cur rest,
    all_chars (fun c => negb (Ascii.eqb c0 c)) t = true ->
    split_from (String c0 sep') O cur (t ++ rest)
    = split_from (String c0 sep') O (rev_app t cur) rest.
Proof.
  induction t as [|c t IH]; intros cur rest H; [reflexivity|].
  simpl in H. apply andb_true_iff in H as [Hc Ht].
  apply negb_true_iff in Hc.
  cbn [append split_from startswith]. rewrite Hc. cbn [andb].
  now rewrite IH.
Qed.

Lemma split_from_last (c0 : ascii) (sep' t : string) :
  all_chars (fun c => negb (Ascii.eqb c0 c)) t = true ->
  split_from (String c0 sep') O EmptyString t = [t].
Proof.
  intros H. rewrite <- (string_app_nil t) at 1.
  rewrite split_from_pass by assumption. cbn [split_from].
  now rewrite rev_app_rev_app, string_app_nil.
Qed.

(** Lines joined by newlines split into the lines again. *)
Lemma split_join_lines (ls : list string) :
  forall l,
    Forall (fun l => no_newline l = true) (l :: ls) ->
    split newline (join newline (l :: ls)) = l :: ls.
Proof.
  unfold split, newline.
  induction ls as [|l' ls IH]; intros l H;
    inversion H as [|? ? Hl Hls]; subst.
  - apply split_from_last. exact Hl.
  - change (join (String (ascii_of_nat 10) "") (l :: l' :: ls))
      with (l ++ String (ascii_of_nat 10)
                   (join (String (ascii_of_nat 10) "") (l' :: ls)))%string.
    rewrite split_from_pass by exact Hl.
    cbn [split_from startswith String.length Nat.sub].
    rewrite Ascii.eqb_refl. cbn [andb].
    rewrite rev_app_rev_app, string_app_nil. cbn [rev_app].
    now rewrite IH.
Qed.

(** A time line splits at its arrow into its two time codes. *)
Lemma split_arrow (t0 t1 : string) :
  no_space t0 = true -> no_space t1 = true ->
  split " --> " (t0 ++ " --> " ++ t1) = [t0; t1].
Proof.
  intros H0 H1. unfold split.
  rewrite split_from_pass
    by (revert H0; apply all_chars_impl, not_space_not_blank).
  cbn [append split_from startswith String.length Nat.sub].
  rewrite !Ascii.eqb_refl. cbn [andb].
  rewrite rev_app_rev_app, string_app_nil. cbn [rev_app].
  rewrite split_from_last
    by (revert H1; apply all_chars_impl, not_space_not_blank).
  reflexivity.
Qed.

Lemma contains_app (sub t rest : string) :
  contains sub rest = true -> contains sub (t ++ rest) = true.
Proof.
  intros H. induction t as [|c t IH]; [assumption|].
  cbn [append contains]. rewrite IH. apply orb_true_r.
Qed.

Lemma contains_arrow (t0 t1 : string) :
  contains "-->" (t0 ++ " --> " ++ t1) = true.
Proof. apply contains_app. reflexivity. Qed.

(** *** [join] *)

Lemma join_cons (x : string) (l : list string) :
  l <> [] -> join newline (x :: l) = (x ++ newline ++ join newline l)%string.
Proof. destruct l; [congruence | reflexivity]. Qed.

Lemma join_app (l1 l2 : list string) :
  l1 <> [] -> l2 <> [] ->
  join newline (l1 ++ l2)
  = (join newline l1 ++ newline ++ join newline l2)%string.
Proof.
  intros H1 H2. induction l1 as [|x l1 IH]; [congruence|].
  destruct l1 as [|y l1].
  - cbn [app]. now rewrite join_cons.
  - change ((x :: y :: l1) ++ l2)%list with (x :: ((y :: l1) ++ l2))%list.
    rewrite join_cons by discriminate.
    rewrite IH by discriminate.
    rewrite (join_cons x (y :: l1)) by discriminate.
    now rewrite !string_app_assoc.
Qed.

Lemma closed_lines (ls : list string) :
  ls <> [] -> Forall plain_line ls -> closed ls.
Proof.
  intros Hne H. split; [assumption|].
  induction H as [|l ls (Hl & _ & _ & Hr) Hls IH]; [congruence|].
  destruct ls as [|l' ls].
  - simpl. auto.
  - rewrite join_cons by discriminate.
    destruct IH as [IH1 IH2]; [discriminate|].
    split.
    + destruct l; [congruence | discriminate].
    + rewrite <- string_app_assoc. now apply rstrip_app.
Qed.

Lemma closed_cons (x : string) (lines : list string) :
  closed lines -> closed (x :: lines).
Proof.
  intros (Hne & Hj & Hr). split; [discriminate|].
  rewrite join_cons by assumption. split.
  - destruct x; discriminate.
  - rewrite <- string_app_assoc. now apply rstrip_app.
Qed.

Lemma closed_app (pre lines : list string) :
  closed lines -> closed (pre ++ lines).
Proof.
  intros H. induction pre as [|x pre IH]; [assumption|].
  simpl. now apply closed_cons.
Qed.

(** The text of a closed list of lines, a newline after it, stripped
    at its end. *)
Lemma rstrip_closed (lines : list string) :
  closed lines -> rstrip (join newline lines ++ newline) = join newline lines.
Proof. intros (_ & _ & Hr). now apply rstrip_newline. Qed.

(** *** Blocks *)

Lemma flatten_cons (b : list string) (later : list (list string)) :
  later <> [] ->
  flatten (b :: later) = (b ++ EmptyString :: flatten later)%list.
Proof. destruct later; [congruence | reflexivity]. Qed.

Lemma flatten_not_nil (blocks : list (list string)) :
  blocks <> [] -> Forall (fun b => b <> []) blocks -> flatten blocks <> [].
Proof.
  intros Hne H. destruct H as [|b later Hb _]; [congruence|].
  destruct later as [|b' later].
  - exact Hb.
  - rewrite flatten_cons by discriminate. now destruct b.
Qed.

(** The blocks joined by newlines are the lines of the blocks, an empty
    line between two blocks, joined by newlines, and a last newline. *)
Lemma join_block_texts (blocks : list (list string)) :
  blocks <> [] -> Forall (fun b => b <> []) blocks ->
  join newline (map block_text blocks)
  = (join newline (flatten blocks) ++ newline)%string.
Proof.
  intros Hne H. induction H as [|b later Hb Hlater IH]; [congruence|].
  destruct later as [|b' later].
  - reflexivity.
  - assert (Hf : flatten (b' :: later) <> [])
      by (apply flatten_not_nil; [discriminate | assumption]).
    rewrite flatten_cons by discriminate.
    change (map block_text (b :: b' :: later))
      with (block_text b :: map block_text (b' :: later)).
    rewrite join_cons by discriminate.
    rewrite IH by discriminate.
    rewrite join_app by (assumption || discriminate).
    rewrite (join_cons "" _ Hf). unfold block_text.
    rewrite !string_app_assoc. reflexivity.
Qed.

Lemma flatten_closed (blocks : list (list string)) :
  blocks <> [] -> Forall closed blocks -> closed (flatten blocks).
Proof.
  intros Hne H. induction H as [|b later Hb Hlater IH]; [congruence|].
  destruct later as [|b' later]; [exact Hb|].
  rewrite flatten_cons by discriminate.
  apply closed_app, closed_cons, IH. discriminate.
Qed.

Lemma flatten_no_newline (blocks : list (list string)) :
  Forall (Forall (fun l => no_newline l = true)) blocks ->
  Forall (fun l => no_newline l = true) (flatten blocks).
Proof.
  induction 1 as [|b later Hb Hlater IH]; [constructor|].
  destruct later as [|b' later]; [exact Hb|].
  rewrite flatten_cons by discriminate.
  apply Forall_app. split; [assumption|]. now constructor.
Qed.

(** *** Time codes and index lines as text *)

Lemma pad_2_no_space (n : Z) : two_digits n -> no_space (pad 2 n) = true.
Proof.
  intros H. destruct (pad_2_spec n H) as ((Hd & _) & _).
  now apply digits_no_space.
Qed.

Lemma pad_3_no_space (n : Z) : three_digits n -> no_space (pad 3 n) = true.
Proof.
  intros H. destruct (pad_3_spec n H) as ((Hd & _) & _).
  now apply digits_no_space.
Qed.

Lemma pad_2_not_empty (n : Z) : two_digits n -> pad 2 n <> EmptyString.
Proof.
  intros H. destruct (pad_2_spec n H) as (_ & Hl & _).
  destruct (pad 2 n); [discriminate | congruence].
Qed.

Lemma vtt_time_no_space (h m s ms : Z) :
  fields_ok h m s ms ->
  no_space (vtt_time h m s ms) = true /\ vtt_time h m s ms <> EmptyString.
Proof.
  intros (Hh & Hm & Hs & Hms). unfold vtt_time, no_space. split.
  - rewrite !all_chars_app.
    fold (no_space (pad 2 h)) (no_space (pad 2 m)) (no_space (pad 2 s))
      (no_space (pad 3 ms)).
    now rewrite !pad_2_no_space, pad_3_no_space by assumption.
  - pose proof (pad_2_not_empty h Hh). destruct (pad 2 h); [congruence|].
    discriminate.
Qed.

Lemma srt_time_no_space (h m s ms : Z) :
  fields_ok h m s ms ->
  no_space (srt_time h m s ms) = true /\ srt_time h m s ms <> EmptyString.
Proof.
  intros (Hh & Hm & Hs & Hms). unfold srt_time, no_space. split.
  - rewrite !all_chars_app.
    fold (no_space (pad 2 h)) (no_space (pad 2 m)) (no_space (pad 2 s))
      (no_space (pad 3 ms)).
    now rewrite !pad_2_no_space, pad_3_no_space by assumption.
  - pose proof (pad_2_not_empty h Hh). destruct (pad 2 h); [congruence|].
    discriminate.
Qed.

(** A time line of two time codes without white space: what the parsers
    see of it. *)
Lemma time_line_facts (format t0 t1 : string) :
  no_space t0 = true -> t0 <> EmptyString ->
  no_space t1 = true -> t1 <> EmptyString ->
  let time_line := (t0 ++ " --> " ++ t1)%string in
  contains "-->" time_line = true
  /\ no_newline time_line = true
  /\ time_range format time_line
     = Some (parse_time t0 format, parse_time t1 format).
Proof.
  intros H0 N0 H1 N1 time_line. split; [apply contains_arrow|]. split.
  - unfold time_line, no_newline. rewrite !all_chars_app.
    fold (no_newline t0) (no_newline t1).
    rewrite (no_space_no_newline t0 H0), (no_space_no_newline t1 H1).
    reflexivity.
  - assert (Hstrip : strip time_line = time_line).
    { unfold strip, time_line. rewrite lstrip_no_space by assumption.
      rewrite <- string_app_assoc. apply rstrip_app; [assumption|].
      now apply rstrip_no_space. }
    unfold time_range. rewrite Hstrip. unfold time_line.
    rewrite split_arrow by assumption.
    now rewrite !strip_no_space by assumption.
Qed.

Lemma digit_char_decimal (d : Z) :
  0 <= d < 10 -> is_decimal (digit_char d) = true.
Proof.
  intros H.
  assert (Hd : (d = 0 \/ d = 1 \/ d = 2 \/ d = 3 \/ d = 4 \/ d = 5 \/ d = 6
                \/ d = 7 \/ d = 8 \/ d = 9)%Z) by lia.
  repeat (destruct Hd as [-> | Hd]; [reflexivity|]). now subst.
Qed.

Lemma digits_from_decimal (fuel : nat) :
  forall n acc,
    0 <= n -> all_chars is_decimal acc = true ->
    all_chars is_decimal (digits_from fuel n acc) = true.
Proof.
  induction fuel as [|fuel IH]; intros n acc Hn Hacc; simpl; [assumption|].
  assert (Hc : all_chars is_decimal (String (digit_char (n mod 10)) acc)
               = true).
  { simpl. rewrite Hacc, digit_char_decimal; [reflexivity|].
    apply Z.mod_pos_bound. lia. }
  destruct (n <? 10)%Z; [exact Hc|].
  apply IH; [|exact Hc]. apply Z.div_pos; lia.
Qed.

Lemma digits_from_not_empty (fuel : nat) :
  forall n acc,
    acc <> EmptyString -> digits_from fuel n acc <> EmptyString.
Proof.
  induction fuel as [|fuel IH]; intros n acc Hacc; simpl; [assumption|].
  destruct (n <? 10)%Z; [discriminate|]. apply IH. discriminate.
Qed.

(** [str(i)] for a natural number: decimal digits, one at least. *)
Lemma str_digits (i : Z) :
  0 <= i -> all_chars is_decimal (str i) = true /\ str i <> EmptyString.
Proof.
  intros Hi. unfold str, pad.
  assert (Hneg : (i <? 0)%Z = false) by (apply Z.ltb_ge; lia).
  rewrite Hneg. cbn [String.length Nat.sub zeros append].
  rewrite Z.abs_eq by assumption. unfold digits. split.
  - now apply digits_from_decimal.
  - cbn [digits_from]. destruct (i <? 10)%Z; [discriminate|].
    apply digits_from_not_empty. discriminate.
Qed.

(** An index line as [to_srt] writes it. *)
Lemma index_line_facts (i : Z) :
  0 <= i ->
  isdigit (strip (str i)) = true /\ no_newline (str i) = true
  /\ no_space (str i) = true /\ str i <> EmptyString.
Proof.
  intros Hi. destruct (str_digits i Hi) as [Hd Hne].
  pose proof (digits_no_space _ Hd) as Hs.
  rewrite (strip_no_space _ Hs). repeat split; auto.
  - unfold isdigit. destruct (str i) as [|c s]; [congruence|].
    cbn [is_empty negb andb].
    revert Hd. apply all_chars_impl. intros c' Hc'.
    unfold is_digit_char. now rewrite Hc'.
  - now apply no_space_no_newline.
Qed.

(** ** Reading back what [to_vtt] and [to_srt] write *)

Lemma plain_lines_no_newline (ls : list string) :
  Forall plain_line ls -> Forall (fun l => no_newline l = true) ls.
Proof. apply Forall_impl. now intros l (_ & H & _). Qed.

Lemma vtt_block_shape (b : list string) (c : cue) :
  vtt_block_lines b c ->
  closed b /\ Forall (fun l => no_newline l = true) b.
Proof.
  intros (tl & ls & -> & _ & Hnl & _ & Hne & Hls & _). split.
  - now apply closed_cons, closed_lines.
  - constructor; [assumption | now apply plain_lines_no_newline].
Qed.

Lemma srt_block_shape (b : list string) (c : cue) :
  srt_block_lines b c ->
  closed b /\ Forall (fun l => no_newline l = true) b.
Proof.
  intros (idx & tl & ls & -> & _ & Hni & Hnl & _ & Hne & Hls & _). split.
  - now apply closed_cons, closed_cons, closed_lines.
  - repeat constructor; try assumption. now apply plain_lines_no_newline.
Qed.

Lemma blocks_shape (P : list string -> cue -> Prop)
  (blocks : list (list string)) (cues : list cue) :
  (forall b c, P b c -> closed b /\ Forall (fun l => no_newline l = true) b) ->
  Forall2 P blocks cues ->
  Forall (fun b => b <> []) blocks /\ Forall closed blocks
  /\ Forall (Forall (fun l => no_newline l = true)) blocks.
Proof.
  intros HP H. induction H as [|b c blocks cues Hb _ (IH1 & IH2 & IH3)];
    [repeat constructor|].
  destruct (HP b c Hb) as [Hc Hn].
  split; [|split]; constructor; try assumption. now destruct Hc.
Qed.

Lemma vtt_blocks_document (blocks : list (list string)) (cues : list cue) :
  Forall2 vtt_block_lines blocks cues ->
  vtt_document_lines (flatten blocks) cues.
Proof.
  induction 1 as [|b c blocks cues Hb Hrest IH]; [constructor|].
  destruct Hb as (tl & ls & -> & Harrow & _ & Htime & _ & Hls & Htext).
  assert (Hc : c = (cue_start c, cue_end c, text_of ls)).
  { rewrite (plain_lines_text ls Hls), <- Htext. now destruct c as [[? ?] ?]. }
  assert (Hnb : Forall not_blank ls).
  { revert Hls. apply Forall_impl, plain_line_not_blank. }
  destruct blocks as [|b' blocks].
  - inversion Hrest; subst. rewrite Hc. now apply vtt_last.
  - rewrite flatten_cons by discriminate. rewrite Hc.
    change ((tl :: ls) ++ "" :: flatten (b' :: blocks))%list
      with (tl :: ls ++ "" :: flatten (b' :: blocks))%list.
    now apply vtt_block.
Qed.

Lemma srt_blocks_document (blocks : list (list string)) (cues : list cue) :
  Forall2 srt_block_lines blocks cues ->
  srt_document (flatten blocks) cues.
Proof.
  induction 1 as [|b c blocks cues Hb Hrest IH]; [constructor|].
  destruct Hb as (idx & tl & ls & -> & Hidx & _ & _ & Htime & _ & Hls & Htext).
  assert (Hc : c = (cue_start c, cue_end c, text_of ls)).
  { rewrite (plain_lines_text ls Hls), <- Htext. now destruct c as [[? ?] ?]. }
  assert (Hnb : Forall not_blank ls).
  { revert Hls. apply Forall_impl, plain_line_not_blank. }
  destruct blocks as [|b' blocks].
  - inversion Hrest; subst. rewrite Hc. now apply srt_last.
  - rewrite flatten_cons by discriminate. rewrite Hc.
    change ((idx :: tl :: ls) ++ "" :: flatten (b' :: blocks))%list
      with (idx :: tl :: ls ++ "" :: flatten (b' :: blocks))%list.
    now apply srt_block.
Qed.

(** The text of a document, the lines closed by a last newline, is split
    by [read_file] into the lines again. *)
Lemma read_lines (first : string) (lines : list string) :
  first <> EmptyString -> no_space first = true ->
  closed (first :: lines) ->
  Forall (fun l => no_newline l = true) (first :: lines) ->
  split newline (strip (join newline (first :: lines) ++ newline))
  = first :: lines.
Proof.
  intros Hne Hsp Hcl Hnl. unfold strip.
  assert (Hl : lstrip (join newline (first :: lines) ++ newline)
               = (join newline (first :: lines) ++ newline)%string).
  { destruct lines as [|l lines].
    - cbn [join String.concat]. now apply lstrip_no_space.
    - rewrite join_cons by discriminate. rewrite string_app_assoc.
      now apply lstrip_no_space. }
  rewrite Hl, (rstrip_closed _ Hcl). now apply split_join_lines.
Qed.

Lemma read_file_vtt (text : string) :
  read_file (File ".vtt" text) = parse_vtt (split newline (strip text)).
Proof. reflexivity. Qed.

Lemma read_file_srt (text : string) :
  read_file (File ".srt" text) = parse_srt (split newline (strip text)).
Proof. reflexivity. Qed.

Lemma format_time_vtt_fields (t : float) (h m s ms : Z) :
  time_fields t h m s ms -> format_time t "vtt" = Ok (vtt_time h m s ms).
Proof.
  intros [Hf Hms]. unfold format_time.
  change (String.eqb "vtt" "srt") with false.
  change (String.eqb "vtt" "vtt") with true. cbv iota.
  rewrite Hf. unfold bind. now rewrite Hms.
Qed.

Lemma format_time_srt_fields (t : float) (h m s ms : Z) :
  time_fields t h m s ms -> format_time t "srt" = Ok (srt_time h m s ms).
Proof.
  intros [Hf Hms]. unfold format_time.
  change (String.eqb "srt" "srt") with true. cbv iota.
  rewrite Hf. unfold bind. now rewrite Hms.
Qed.

(** The blocks [to_vtt] writes for cues that read back. *)
Lemma vtt_blocks_read_back (subtitles cues : list cue) :
  Forall2 reads_back subtitles cues ->
  exists blocks,
    vtt_blocks subtitles = Ok (map block_text blocks)
    /\ Forall2 vtt_block_lines blocks cues.
Proof.
  induction 1 as [|c c' subs cues Hc _ (blocks & Hb & Hlines)].
  - exists []. split; [reflexivity | constructor].
  - destruct Hc as (h & m & s & ms & h' & m' & s' & ms'
                    & Hs & Hsok & He & Heok & (ls & Hne & Hls & Htext) & ->).
    destruct c as [[start end_] text].
    unfold cue_start, cue_end, cue_text in *. cbn [fst snd] in *.
    destruct (vtt_time_no_space _ _ _ _ Hsok) as [Hs1 Hs2].
    destruct (vtt_time_no_space _ _ _ _ Heok) as [He1 He2].
    destruct (time_line_facts "vtt" _ _ Hs1 Hs2 He1 He2)
      as (Harrow & Hnl & Hrange).
    exists (((vtt_time h m s ms ++ " --> " ++ vtt_time h' m' s' ms')%string
             :: ls) :: blocks).
    split.
    + cbn [vtt_blocks map].
      rewrite (format_time_vtt_fields _ _ _ _ _ Hs),
        (format_time_vtt_fields _ _ _ _ _ He), Hb.
      cbn [bind]. do 2 f_equal. unfold block_text.
      rewrite join_cons by assumption. rewrite Htext.
      now rewrite !string_app_assoc.
    + constructor; [|assumption].
      eexists _, ls. split; [reflexivity|].
      unfold cue_start, cue_end, cue_text. cbn [fst snd].
      rewrite !parse_time_vtt_time in Hrange by assumption.
      repeat split; assumption.
Qed.

(** X8.  What [to_vtt] writes, [read_file] reads: for cues whose times
    [format_time] writes with fields that fit their widths, and whose
    texts are lines that are not empty and have no white space at their
    ends, the document of [to_vtt], read as a [.vtt] file, gives the cues
    back in order, each with the times of its written fields and its
    text. *)
Theorem to_vtt_reads_back (subtitles cues : list cue) :
  Forall2 reads_back subtitles cues ->
  exists doc,
    to_vtt subtitles = Ok doc
    /\ read_file (File ".vtt" doc) = Ok ("vtt"%string, cues).
Proof.
  intros H. destruct (vtt_blocks_read_back _ _ H) as (blocks & Hb & Hl).
  unfold to_vtt. rewrite Hb. cbn [bind]. eexists. split; [reflexivity|].
  rewrite read_file_vtt. destruct blocks as [|b blocks'].
  { inversion Hl; subst. vm_compute. reflexivity. }
  set (blocks := b :: blocks') in *.
  assert (Hne : blocks <> []) by discriminate.
  destruct (blocks_shape vtt_block_lines blocks cues vtt_block_shape Hl)
    as (Hnil & Hcl & Hnl).
  pose proof (flatten_not_nil blocks Hne Hnil) as Hf.
  assert (Hdoc : join newline (["WEBVTT"; ""]%string ++ map block_text blocks)
                 = (join newline ("WEBVTT" :: "" :: flatten blocks)
                    ++ newline)%string).
  { cbn [app].
    rewrite (join_cons "WEBVTT" ("" :: map block_text blocks))
      by discriminate.
    rewrite (join_cons "" (map block_text blocks)) by discriminate.
    rewrite (join_block_texts blocks Hne Hnil).
    rewrite (join_cons "WEBVTT" ("" :: flatten blocks)) by discriminate.
    rewrite (join_cons "" (flatten blocks)) by assumption.
    now rewrite !string_app_assoc. }
  rewrite Hdoc, read_lines.
  - assert (Hd : vtt_document_lines ("WEBVTT" :: "" :: flatten blocks) cues).
    { apply vtt_skip; [reflexivity|]. apply vtt_skip; [reflexivity|].
      now apply vtt_blocks_document. }
    unfold parse_vtt. do 2 f_equal.
    exact (vtt_loop_document _ _ Hd [] [] _ (le_n _)).
  - discriminate.
  - reflexivity.
  - now apply closed_cons, closed_cons, flatten_closed.
  - constructor; [reflexivity|]. constructor; [reflexivity|].
    now apply flatten_no_newline.
Qed.

(** Two cues, the first with a text of two lines. *)
Lemma to_vtt_reads_back_witness :
  exists doc,
    to_vtt [(PyFloat.of_Z 3 / PyFloat.of_Z 2, PyFloat.of_Z 3,
             lines_of ["Hello"; "big world"]%string);
            (PyFloat.of_Z 4, PyFloat.of_Z 6, "Second line"%string)]
    = Ok doc
    /\ read_file (File ".vtt" doc)
       = Ok ("vtt"%string,
             [(hms_seconds 0 0 1 500, hms_seconds 0 0 3 0,
               lines_of ["Hello"; "big world"]%string);
              (hms_seconds 0 0 4 0, hms_seconds 0 0 6 0,
               "Second line"%string)]).
Proof.
  apply to_vtt_reads_back.
  assert (Hok : forall s ms, (0 <= s <= 99)%Z -> (0 <= ms <= 999)%Z ->
                             fields_ok 0 0 s ms).
  { intros s ms Hs Hms. unfold fields_ok, two_digits, three_digits. lia. }
  assert (Hline : forall l, l <> EmptyString -> no_newline l = true ->
                            lstrip l = l -> rstrip l = l -> plain_line l).
  { intros l H1 H2 H3 H4. unfold plain_line. auto. }
  constructor; [|constructor; [|constructor]].
  - exists 0%Z, 0%Z, 1%Z, 500%Z, 0%Z, 0%Z, 3%Z, 0%Z.
    split; [split; vm_compute; reflexivity|].
    split; [apply Hok; lia|].
    split; [split; vm_compute; reflexivity|].
    split; [apply Hok; lia|].
    split; [|reflexivity].
    exists ["Hello"; "big world"]%string.
    split; [discriminate|]. split; [|reflexivity].
    constructor; [|constructor; [|constructor]];
      apply Hline; (discriminate || reflexivity).
  - exists 0%Z, 0%Z, 4%Z, 0%Z, 0%Z, 0%Z, 6%Z, 0%Z.
    split; [split; vm_compute; reflexivity|].
    split; [apply Hok; lia|].
    split; [split; vm_compute; reflexivity|].
    split; [apply Hok; lia|].
    split; [|reflexivity].
    exists ["Second line"%string].
    split; [discriminate|]. split; [|reflexivity].
    constructor; [|constructor];
      apply Hline; (discriminate || reflexivity).
Defined.

(** The blocks [to_srt] writes for cues that read back, numbered from
    [i] on. *)
Lemma srt_blocks_read_back (subtitles cues : list cue) :
  Forall2 reads_back subtitles cues ->
  forall i,
    (0 <= i)%Z ->
    exists blocks,
      srt_blocks i subtitles = Ok (map block_text blocks)
      /\ Forall2 srt_block_lines blocks cues
      /\ match blocks with
         | [] => True
         | b :: _ => exists rest, b = str i :: rest
         end.
Proof.
  induction 1 as [|c c' subs cues Hc _ IH]; intros i Hi.
  - exists []. split; [reflexivity|]. split; [constructor | exact I].
  - destruct (IH (i + 1)%Z ltac:(lia)) as (blocks & Hb & Hlines & _).
    destruct Hc as (h & m & s & ms & h' & m' & s' & ms'
                    & Hs & Hsok & He & Heok & (ls & Hne & Hls & Htext) & ->).
    destruct c as [[start end_] text].
    unfold cue_start, cue_end, cue_text in *. cbn [fst snd] in *.
    destruct (srt_time_no_space _ _ _ _ Hsok) as [Hs1 Hs2].
    destruct (srt_time_no_space _ _ _ _ Heok) as [He1 He2].
    destruct (time_line_facts "srt" _ _ Hs1 Hs2 He1 He2)
      as (_ & Hnl & Hrange).
    destruct (index_line_facts i Hi) as (Hidx & Hin & _ & _).
    exists ((str i
             :: (srt_time h m s ms ++ " --> " ++ srt_time h' m' s' ms')%string
             :: ls) :: blocks).
    split; [|split].
    + cbn [srt_blocks map].
      rewrite (format_time_srt_fields _ _ _ _ _ Hs),
        (format_time_srt_fields _ _ _ _ _ He), Hb.
      cbn [bind]. do 2 f_equal. unfold block_text.
      rewrite (join_cons (str i)) by discriminate.
      rewrite join_cons by assumption. rewrite Htext.
      now rewrite !string_app_assoc.
    + constructor; [|assumption].
      eexists _, _, ls. split; [reflexivity|].
      unfold cue_start, cue_end, cue_text. cbn [fst snd].
      rewrite !parse_time_srt_time in Hrange by assumption.
      repeat split; assumption.
    + eexists. reflexivity.
Qed.

(** X9.  What [to_srt] writes, [read_file] reads: for cues whose times
    [format_time] writes with fields that fit their widths, and whose
    texts are lines that are not empty and have no white space at their
    ends, the document of [to_srt], read as an [.srt] file, gives the cues
    back in order, each with the times of its written fields and its
    text. *)
Theorem to_srt_reads_back (subtitles cues : list cue) :
  Forall2 reads_back subtitles cues ->
  exists doc,
    to_srt subtitles = Ok doc
    /\ read_file (File ".srt" doc) = Ok ("srt"%string, cues).
Proof.
  intros H.
  destruct (srt_blocks_read_back _ _ H 1%Z ltac:(lia))
    as (blocks & Hb & Hl & Hfirst).
  unfold to_srt. rewrite Hb. cbn [bind]. eexists. split; [reflexivity|].
  rewrite read_file_srt. destruct blocks as [|b blocks'].
  { inversion Hl; subst. vm_compute. reflexivity. }
  set (blocks := b :: blocks') in *.
  assert (Hne : blocks <> []) by discriminate.
  destruct (blocks_shape srt_block_lines blocks cues srt_block_shape Hl)
    as (Hnil & Hcl & Hnl).
  pose proof (flatten_closed blocks Hne Hcl) as Hclosed.
  pose proof (flatten_no_newline blocks Hnl) as Hlines.
  pose proof (srt_blocks_document blocks cues Hl) as Hdoc.
  rewrite (join_block_texts blocks Hne Hnil).
  assert (Hhead : exists lines, flatten blocks = "1"%string :: lines).
  { destruct Hfirst as (rest & ->). unfold blocks.
    destruct blocks' as [|b' blocks'']; [now exists rest|].
    rewrite flatten_cons by discriminate. eexists. reflexivity. }
  destruct Hhead as (lines & Hflat). rewrite Hflat in *.
  rewrite read_lines by (assumption || discriminate || reflexivity).
  unfold parse_srt.
  replace (srt_loop (List.length ("1"%string :: lines)) ("1"%string :: lines)
             0 [])
    with (Ok cues); [reflexivity|].
  symmetry. exact (srt_loop_document _ _ Hdoc [] [] _ (le_n _)).
Qed.

(** Two cues, the first with a text of two lines. *)
Lemma to_srt_reads_back_witness :
  exists doc,
    to_srt [(PyFloat.of_Z 3 / PyFloat.of_Z 2, PyFloat.of_Z 3,
             lines_of ["Hello"; "big world"]%string);
            (PyFloat.of_Z 4, PyFloat.of_Z 6, "Second line"%string)]
    = Ok doc
    /\ read_file (File ".srt" doc)
       = Ok ("srt"%string,
             [(hms_seconds 0 0 1 500, hms_seconds 0 0 3 0,
               lines_of ["Hello"; "big world"]%string);
              (hms_seconds 0 0 4 0, hms_seconds 0 0 6 0,
               "Second line"%string)]).
Proof.
  apply to_srt_reads_back.
  assert (Hok : forall s ms, (0 <= s <= 99)%Z -> (0 <= ms <= 999)%Z ->
                             fields_ok 0 0 s ms).
  { intros s ms Hs Hms. unfold fields_ok, two_digits, three_digits. lia. }
  assert (Hline : forall l, l <> EmptyString -> no_newline l = true ->
                            lstrip l = l -> rstrip l = l -> plain_line l).
  { intros l H1 H2 H3 H4. unfold plain_line. auto. }
  constructor; [|constructor; [|constructor]].
  - exists 0%Z, 0%Z, 1%Z, 500%Z, 0%Z, 0%Z, 3%Z, 0%Z.
    split; [split; vm_compute; reflexivity|].
    split; [apply Hok; lia|].
    split; [split; vm_compute; reflexivity|].
    split; [apply Hok; lia|].
    split; [|reflexivity].
    exists ["Hello"; "big world"]%string.
    split; [discriminate|]. split; [|reflexivity].
    constructor; [|constructor; [|constructor]];
      apply Hline; (discriminate || reflexivity).
  - exists 0%Z, 0%Z, 4%Z, 0%Z, 0%Z, 0%Z, 6%Z, 0%Z.
    split; [split; vm_compute; reflexivity|].
    split; [apply Hok; lia|].
    split; [split; vm_compute; reflexivity|].
    split; [apply Hok; lia|].
    split; [|reflexivity].
    exists ["Second line"%string].
    split; [discriminate|]. split; [|reflexivity].
    constructor; [|constructor];
      apply Hline; (discriminate || reflexivity).
Defined.

(** ** Reading back what [to_lrc] writes *)

Lemma string_length_app (a b : string) :
  String.length (a ++ b) = (String.length a + String.length b)%nat.
Proof. induction a as [|c a IH]; simpl; [reflexivity | now rewrite IH]. Qed.

Lemma lstrip_length (s : string) :
  (String.length (lstrip s) <= String.length s)%nat.
Proof.
  induction s as [|c s IH]; simpl; [lia|].
  destruct (is_space c); simpl; lia.
Qed.

Lemma lstrip_first (c : ascii) (s : string) :
  lstrip (String c s) = String c s -> is_space c = false.
Proof.
  simpl. destruct (is_space c); [|reflexivity]. intros H.
  pose proof (lstrip_length s) as Hl. rewrite H in Hl. simpl in Hl. lia.
Qed.

Lemma strip_plain_lines (ls : list string) :
  ls <> [] -> Forall plain_line ls ->
  strip (join newline ls) = join newline ls.
Proof.
  intros Hne H. destruct (closed_lines ls Hne H) as (_ & _ & Hr).
  unfold strip.
  assert (Hl : lstrip (join newline ls) = join newline ls).
  { destruct H as [|l ls' (Hl & _ & Hls & _) _]; [congruence|].
    destruct l as [|c l]; [congruence|].
    apply lstrip_first in Hls.
    destruct ls' as [|l' ls']; simpl; now rewrite Hls. }
  now rewrite Hl.
Qed.

(** *** The tags of a written line *)

Lemma findall_from_skip (p : Re.pattern) (pre rest : string) :
  Re.findall_from p (String.length pre) (pre ++ rest)
  = Re.findall_from p O rest.
Proof.
  induction pre as [|c pre IH]; [reflexivity|]. simpl. exact IH.
Qed.

Lemma remove_from_skip (p : Re.pattern) (pre rest : string) :
  Re.remove_from p (String.length pre) (pre ++ rest)
  = Re.remove_from p O rest.
Proof.
  induction pre as [|c pre IH]; [reflexivity|]. simpl. exact IH.
Qed.

(** A text without the first character of the pattern holds no match. *)
Lemma no_match (c0 : ascii) (p : Re.pattern) (text : string) :
  all_chars (fun c => negb (Ascii.eqb c0 c)) text = true ->
  Re.findall_from (Re.Lit c0 :: p) O text = []
  /\ Re.remove_from (Re.Lit c0 :: p) O text = text.
Proof.
  induction text as [|c text IH]; intros H; [split; reflexivity|].
  simpl in H. apply andb_true_iff in H as [Hc Ht].
  apply negb_true_iff in Hc. destruct (IH Ht) as [IH1 IH2].
  cbn [Re.findall_from Re.remove_from Re.match_here]. rewrite Hc.
  now rewrite IH1, IH2.
Qed.

(** A match at the start of a text, and what follows it. *)
Lemma match_at_start (p : Re.pattern) (c : ascii) (pre r : string)
  (gs : list string) :
  Re.match_here p (String c (pre ++ r)) = Some (gs, r) ->
  Re.findall p (String c (pre ++ r)) = gs :: Re.findall_from p O r
  /\ Re.remove p (String c (pre ++ r)) = Re.remove_from p O r.
Proof.
  intros H. unfold Re.findall, Re.remove.
  cbn [Re.findall_from Re.remove_from]. rewrite H.
  replace (String.length (String c (pre ++ r)) - String.length r - 1)%nat
    with (String.length pre)
    by (cbn [String.length]; rewrite string_length_app; lia).
  now rewrite findall_from_skip, remove_from_skip.
Qed.

Lemma lrc_tag_no_space (m s cs : Z) :
  two_digits m -> two_digits s -> two_digits cs ->
  no_space (lrc_tag m s cs) = true.
Proof.
  intros Hm Hs Hcs. unfold lrc_tag, no_space. rewrite !all_chars_app.
  fold (no_space (pad 2 m)) (no_space (pad 2 s)) (no_space (pad 2 cs)).
  rewrite (pad_2_no_space m Hm), (pad_2_no_space s Hs),
    (pad_2_no_space cs Hcs).
  reflexivity.
Qed.

(** The line [to_lrc] writes for a tag and a text, as [parse_lrc] sees
    it. *)
Lemma written_line (m s cs : Z) (text : string) :
  two_digits m -> two_digits s -> two_digits cs -> lrc_text text ->
  let line := (lrc_tag m s cs ++ text)%string in
  plain_line line
  /\ forall d, lrc_line d line = dict_set d (lrc_seconds m s cs) text.
Proof.
  intros Hm Hs Hcs (Hnl & Hnb & Hl & Hr) line.
  pose proof (lrc_tag_no_space m s cs Hm Hs Hcs) as Htag.
  assert (Hplain : plain_line line).
  { unfold plain_line, line. split; [discriminate|]. split; [|split].
    - unfold no_newline. rewrite all_chars_app.
      fold (no_newline (lrc_tag m s cs)) (no_newline text).
      now rewrite (no_space_no_newline _ Htag), Hnl.
    - reflexivity.
    - destruct text as [|c text].
      + rewrite string_app_nil. now apply rstrip_no_space.
      + apply rstrip_app; [discriminate | assumption]. }
  split; [exact Hplain|]. intros d.
  destruct (pad_2_spec m Hm) as (Dm & _ & Im).
  destruct (pad_2_spec s Hs) as (Ds & _ & Is).
  destruct (pad_2_spec cs Hcs) as (Dcs & _ & Ics).
  unfold lrc_line. rewrite (plain_line_strip line Hplain).
  change (is_empty line) with false. cbv iota.
  set (pre := (pad 2 m ++ ":" ++ pad 2 s ++ "." ++ pad 2 cs ++ "]")%string).
  assert (Hmatch : Re.match_here lrc_time_pattern (String "[" (pre ++ text))
                   = Some ([pad 2 m; pad 2 s; pad 2 cs], text)).
  { unfold pre. rewrite !string_app_assoc.
    exact (lrc_pattern_match _ _ _ text Dm Ds Dcs). }
  destruct (match_at_start _ _ _ _ _ Hmatch) as [Hfind Hrem].
  destruct (no_match "[" (tl lrc_time_pattern) text Hnb) as [Hf0 Hr0].
  change (Re.Lit "[" :: tl lrc_time_pattern) with lrc_time_pattern in Hf0, Hr0.
  rewrite Hf0 in Hfind. rewrite Hr0 in Hrem.
  change line with (String "[" (pre ++ text)).
  rewrite Hfind, Hrem. cbn [fold_left tag_seconds].
  assert (Hstrip : strip text = text) by (unfold strip; now rewrite Hl).
  now rewrite Hstrip, Im, Is, Ics.
Qed.

(** *** The dict and the cues of lines in ascending order *)

Lemma flt_asym (x y : float) : flt x y -> (y <? x) = false.
Proof.
  unfold flt. rewrite !ltb_fcmp.
  destruct (fcmp x y) as [[| |]|] eqn:H; try discriminate.
  intros _. apply fcmp_sym in H. now rewrite H.
Qed.

Lemma dict_keys_set_new (d : dict) (k : float) (v : string) :
  Forall (fun k' => (k' =? k) = false) (dict_keys d) ->
  dict_keys (dict_set d k v) = (dict_keys d ++ [k])%list.
Proof.
  induction d as [|[k' v'] d IH]; simpl; intros H; [reflexivity|].
  inversion H as [|? ? Hk Hd]; subst. rewrite Hk. simpl. now rewrite IH.
Qed.

Lemma dict_of_keys (cues : list cue) :
  forall d,
    StronglySorted flt (dict_keys d ++ map cue_start cues) ->
    dict_keys (dict_of cues d) = (dict_keys d ++ map cue_start cues)%list.
Proof.
  unfold dict_of.
  induction cues as [|c cues IH]; intros d Hs; simpl.
  - now rewrite app_nil_r.
  - assert (Hnew : dict_keys (dict_set d (cue_start c) (cue_text c))
                   = (dict_keys d ++ [cue_start c])%list).
    { apply dict_keys_set_new. clear IH.
      induction (dict_keys d) as [|k ks IHk]; [constructor|].
      simpl in Hs. inversion Hs as [|? ? Hs' Hall]; subst.
      constructor; [|now apply IHk].
      apply flt_not_eq. rewrite Forall_forall in Hall. apply Hall.
      apply in_or_app. right. now left. }
    rewrite IH; rewrite Hnew, <- app_assoc; [reflexivity | exact Hs].
Qed.

Lemma dict_of_get_other (cues : list cue) (k : float) :
  forall d,
    Forall (fun c => (cue_start c =? k) = false) cues ->
    dict_get (dict_of cues d) k = dict_get d k.
Proof.
  unfold dict_of.
  induction cues as [|c cues IH]; intros d H; simpl; [reflexivity|].
  inversion H as [|? ? Hc Hcues]; subst.
  now rewrite IH, dict_get_set, Hc.
Qed.

Lemma dict_of_get (cues : list cue) :
  forall d,
    StronglySorted flt (map cue_start cues) ->
    Forall (fun c => (cue_start c =? cue_start c) = true) cues ->
    Forall (fun c => dict_get (dict_of cues d) (cue_start c)
                     = Ok (cue_text c)) cues.
Proof.
  induction cues as [|c cues IH]; intros d Hs Hnum; [constructor|].
  simpl in Hs. inversion Hs as [|? ? Hs' Hall]; subst.
  inversion Hnum as [|? ? Hc Hnum']; subst.
  constructor.
  - change (dict_of (c :: cues) d)
      with (dict_of cues (dict_set d (cue_start c) (cue_text c))).
    rewrite dict_of_get_other, dict_get_set, Hc; [reflexivity|].
    apply Forall_forall. intros c' Hc'. rewrite feq_sym.
    apply flt_not_eq. rewrite Forall_forall in Hall. apply Hall.
    now apply in_map.
  - now apply IH.
Qed.

Lemma insert_sorted_last (x : float) (l : list float) :
  Forall (fun y => flt y x) l -> insert_sorted x l = (l ++ [x])%list.
Proof.
  induction 1 as [|y l Hy _ IH]; simpl; [reflexivity|].
  now rewrite (flt_asym y x Hy), IH.
Qed.

Lemma sorted_ascending_from (l : list float) :
  forall acc,
    StronglySorted flt (acc ++ l) ->
    fold_left (fun acc x => insert_sorted x acc) l acc = (acc ++ l)%list.
Proof.
  induction l as [|x l IH]; intros acc Hs; simpl.
  - now rewrite app_nil_r.
  - assert (Hacc : Forall (fun y => flt y x) acc).
    { clear IH. induction acc as [|a acc IHa]; [constructor|].
      simpl in Hs. inversion Hs as [|? ? Hs' Hall]; subst.
      constructor; [|now apply IHa].
      rewrite Forall_forall in Hall. apply Hall.
      apply in_or_app. right. now left. }
    rewrite (insert_sorted_last x acc Hacc).
    rewrite IH; rewrite <- app_assoc; [reflexivity | exact Hs].
Qed.

(** [sorted] leaves a list in strictly ascending order as it is. *)
Lemma sorted_ascending (l : list float) :
  StronglySorted flt l -> sorted l = l.
Proof. intros H. exact (sorted_ascending_from l [] H). Qed.

(** The loop over the sorted times, on the starts of chained cues whose
    texts the dict holds. *)
Lemma lrc_cues_chained (d : dict) (cues : list cue) :
  chained cues ->
  Forall (fun c => dict_get d (cue_start c) = Ok (cue_text c)) cues ->
  lrc_cues d (map cue_start cues) = Ok cues.
Proof.
  induction cues as [|c cues IH]; intros Hch Htxt; [reflexivity|].
  destruct Hch as [Hend Hch]. inversion Htxt as [|? ? Hc Htxt']; subst.
  cbn [map lrc_cues]. rewrite Hc, (IH Hch Htxt'). cbn [bind].
  destruct c as [[start end_] text].
  unfold cue_start, cue_end, cue_text in *. cbn [fst snd] in *.
  rewrite Hend. now destruct cues.
Qed.

(** The lines [to_lrc] writes for cues that read back. *)
Lemma lrc_blocks_read_back (subtitles cues : list cue) :
  Forall2 lrc_reads_back subtitles cues ->
  exists lines,
    lrc_blocks subtitles = Ok lines
    /\ Forall plain_line lines
    /\ (lines = [] <-> cues = [])
    /\ Forall (fun c => (cue_start c =? cue_start c) = true) cues
    /\ forall d, fold_left lrc_line lines d = dict_of cues d.
Proof.
  induction 1 as [|c c' subs cues Hc _
                    (lines & Hb & Hplain & Hnil & Hnum & Hfold)].
  - exists []. repeat split; auto.
  - destruct Hc as (m & s & cs & Hf & Hm & Hs & Hcs & Htext & Hstart & Htxt).
    destruct (written_line m s cs (cue_text c) Hm Hs Hcs Htext)
      as [Hline Hset].
    exists ((lrc_tag m s cs ++ cue_text c)%string :: lines).
    destruct c as [[start end_] text].
    unfold cue_start, cue_end, cue_text in *. cbn [fst snd] in *.
    split; [|split; [|split; [|split]]].
    + cbn [lrc_blocks]. rewrite Hf, Hb. reflexivity.
    + now constructor.
    + split; discriminate.
    + constructor; [|assumption]. rewrite Hstart.
      apply time_ok_number, lrc_seconds_ok; assumption.
    + intros d. cbn [fold_left]. rewrite Hset, Hfold.
      unfold dict_of. cbn [fold_left]. unfold cue_start, cue_text.
      now rewrite Hstart, Htxt.
Qed.

(** X10.  What [to_lrc] writes, [read_file] reads, but for the ends: for
    cues whose starts [format_time] writes with fields of two digits,
    in strictly ascending order of the written starts, and whose texts
    are one line without an opening bracket and without white space at
    its ends, the document of [to_lrc], read as an [.lrc] file, gives in
    order the cues of the written starts and the texts, each ending
    where the next one starts and the last one 5 seconds after its
    start. *)
Theorem to_lrc_reads_back (subtitles cues : list cue) :
  Forall2 lrc_reads_back subtitles cues ->
  StronglySorted flt (map cue_start cues) ->
  chained cues ->
  exists doc,
    to_lrc subtitles = Ok doc
    /\ read_file (File ".lrc" doc) = Ok ("lrc"%string, cues).
Proof.
  intros H Hs Hch.
  destruct (lrc_blocks_read_back _ _ H)
    as (lines & Hb & Hplain & Hnil & Hnum & Hfold).
  unfold to_lrc. rewrite Hb. cbn [bind]. eexists. split; [reflexivity|].
  change (read_file (File ".lrc" (join newline lines)))
    with (parse_lrc (split newline (strip (join newline lines)))).
  destruct lines as [|l lines'].
  { destruct Hnil as [Hnil _]. rewrite (Hnil eq_refl).
    vm_compute. reflexivity. }
  rewrite strip_plain_lines by (discriminate || assumption).
  rewrite split_join_lines by (now apply plain_lines_no_newline).
  unfold parse_lrc. rewrite Hfold.
  rewrite (dict_of_keys cues [] Hs). cbn [dict_keys map app].
  rewrite (sorted_ascending _ Hs).
  rewrite (lrc_cues_chained _ cues Hch (dict_of_get cues [] Hs Hnum)).
  reflexivity.
Qed.

(** Two cues, the first ending at 2.0: read back, it ends where the
    second starts. *)
Lemma to_lrc_reads_back_witness :
  exists doc,
    to_lrc [(PyFloat.of_Z 1, PyFloat.of_Z 2, "Line A"%string);
            (PyFloat.of_Z 11 / PyFloat.of_Z 2, PyFloat.of_Z 7,
             "Line B"%string)]
    = Ok doc
    /\ read_file (File ".lrc" doc)
       = Ok ("lrc"%string,
             [(lrc_seconds 0 1 0, lrc_seconds 0 5 50, "Line A"%string);
              (lrc_seconds 0 5 50, lrc_seconds 0 5 50 + PyFloat.of_Z 5,
               "Line B"%string)]).
Proof.
  assert (H2 : forall n, (0 <= n <= 99)%Z -> two_digits n)
    by (intros n Hn; exact Hn).
  assert (Htext : forall t, no_newline t = true -> no_bracket t = true ->
                            lstrip t = t -> rstrip t = t -> lrc_text t).
  { intros t Ha Hb Hc Hd. unfold lrc_text. auto. }
  apply to_lrc_reads_back.
  - constructor; [|constructor; [|constructor]].
    + exists 0%Z, 1%Z, 0%Z.
      split; [vm_compute; reflexivity|].
      split; [apply H2; lia|]. split; [apply H2; lia|].
      split; [apply H2; lia|].
      split; [apply Htext; reflexivity|]. split; reflexivity.
    + exists 0%Z, 5%Z, 50%Z.
      split; [vm_compute; reflexivity|].
      split; [apply H2; lia|]. split; [apply H2; lia|].
      split; [apply H2; lia|].
      split; [apply Htext; reflexivity|]. split; reflexivity.
  - constructor; [constructor; [constructor | constructor]|].
    constructor; [|constructor]. vm_compute. reflexivity.
  - cbn [chained]. split; [reflexivity|]. split; [reflexivity | exact I].
Defined.

(** ** When [parse_srt] raises *)

Lemma srt_loop_raises_last (lines : list string) (e : exn) :
  forall fuel i subtitles,
    srt_loop fuel lines i subtitles = Raise e ->
    exists l,
      nth_error lines (List.length lines - 1) = Some l
      /\ isdigit (strip l) = true.
Proof.
  induction fuel as [|fuel IH]; intros i subs; simpl; [discriminate|].
  destruct (nth_error lines i) as [line|] eqn:Hi; [|discriminate].
  destruct (isdigit (strip line)) eqn:Hd; [|apply IH].
  destruct (nth_error lines (i + 1)) as [time_line|] eqn:Hn.
  - destruct (split " --> " (strip time_line)) as [|t0 [|t1 [|t2 ts]]];
      try apply IH.
    destruct (take_text lines (i + 1 + 1)) as [text_lines i']. apply IH.
  - intros _. exists line. split; [|assumption].
    apply nth_error_None in Hn.
    assert (Hlt : (i < List.length lines)%nat)
      by (apply nth_error_Some; congruence).
    replace (List.length lines - 1)%nat with i by lia. exact Hi.
Qed.

(** X11.  [parse_srt] raises nothing but [IndexError], and only on lines
    whose last one is an index line: a line of digits, white space
    around it or not. *)
Theorem parse_srt_raises (lines : list string) (e : exn) :
  parse_srt lines = Raise e ->
  e = IndexError
  /\ exists before l, lines = (before ++ [l])%list /\ isdigit (strip l) = true.
Proof.
  unfold parse_srt, bind.
  destruct (srt_loop (List.length lines) lines 0 []) as [subs|e'] eqn:Hl;
    [discriminate|].
  intros H. injection H as <-. split.
  - eapply srt_loop_raises. eassumption.
  - apply srt_loop_raises_last in Hl as (l & Hn & Hd).
    apply nth_error_split in Hn as (l1 & l2 & Heq & Hlen).
    exists l1, l. split; [|assumption].
    rewrite Heq in Hlen. rewrite length_app in Hlen. simpl in Hlen.
    destruct l2 as [|x l2]; [assumption | simpl in Hlen; lia].
Qed.

(** A block and, after it, an index line with spaces around it. *)
Lemma parse_srt_raises_witness :
  IndexError = IndexError
  /\ exists before l,
       ["1"; "00:00:01,000 --> 00:00:02,000"; "Hi"; ""; " 2 "]%string
       = (before ++ [l])%list
       /\ isdigit (strip l) = true.
Proof.
  apply (parse_srt_raises
           ["1"; "00:00:01,000 --> 00:00:02,000"; "Hi"; ""; " 2 "]%string).
  vm_compute. reflexivity.
Defined.

(** ** What [read_file] looks at *)

Lemma rstrip_rstrip (s : string) : rstrip (rstrip s) = rstrip s.
Proof.
  induction s as [|c s IH]; [reflexivity|]. simpl.
  destruct (is_space c && is_empty (rstrip s)) eqn:Hc; [reflexivity|].
  simpl. now rewrite IH, Hc.
Qed.

Lemma lstrip_start (s : string) :
  match lstrip s with
  | EmptyString => True
  | String c _ => is_space c = false
  end.
Proof.
  induction s as [|c s IH]; simpl; [exact I|].
  destruct (is_space c) eqn:Hc; [exact IH | exact Hc].
Qed.

Lemma strip_strip (s : string) : strip (strip s) = strip s.
Proof.
  unfold strip. pose proof (lstrip_start s) as H.
  destruct (lstrip s) as [|c t]; [reflexivity|].
  assert (Hr : rstrip (String c t) = String c (rstrip t))
    by (simpl; now rewrite H).
  rewrite Hr. simpl. rewrite H. simpl.
  now rewrite rstrip_rstrip.
Qed.

(** X12.  [read_file] looks at the extension up to the case of its
    letters and at the text up to the white space around it: a file with
    a known extension is read like the file with the extension in lower
    case and the text stripped. *)
Theorem read_file_normalises (f : file) (text : string) :
  known_suffix (lower (suffix f)) ->
  read_text f = Ok text ->
  read_file f = read_file (File (lower (suffix f)) (strip text)).
Proof.
  intros Hext Htext. rewrite (read_file_text f text Htext).
  rewrite (read_file_text (File (lower (suffix f)) (strip text))
             (strip text) eq_refl).
  cbv zeta. cbn [suffix File]. rewrite strip_strip.
  destruct Hext as [H | [H | H]]; rewrite H; reflexivity.
Qed.

(** An SRT file named in capitals, blank lines around its only block. *)
Lemma read_file_normalises_witness :
  let text :=
    lines_of [""; "  "; "1"; "00:00:01,000 --> 00:00:02,000"; "Hi"; "";
              ""]%string in
  read_file (File ".SRT" text) = read_file (File ".srt" (strip text))
  /\ read_file (File ".SRT" text)
     = Ok ("srt"%string, [(PyFloat.of_Z 1, PyFloat.of_Z 2, "Hi"%string)]).
Proof.
  cbv zeta. split.
  - apply (read_file_normalises
             (File ".SRT"
                (lines_of [""; "  "; "1"; "00:00:01,000 --> 00:00:02,000";
                           "Hi"; ""; ""]%string))).
    + left. reflexivity.
    + reflexivity.
  - vm_compute. reflexivity.
Defined.
